(** * MidiFileStream: a streaming reader of Standard MIDI Files

    A shallow embedding of [MidiFileStream.cpp] / [MidiFileStream.h]
    (stream-based MIDI file reading library for Arduino) and the
    properties of its chunk reader, variable-length-quantity decoder and
    event decoder.

    Conventions of the embedding.
    - The library targets the 8-bit AVR Arduino (the header notes that an
      enum takes 2 bytes there): [int] is a 16-bit, [long] a 32-bit and
      [char] an 8-bit two's-complement integer.  Values are kept in [Z];
      every conversion or shift that can leave the range of its type is
      wrapped explicitly with [cast_int], [cast_long] or [cast_char].
    - The underlying [Stream] is the list of bytes it has yet to deliver;
      [read()] pops the first one and answers -1 once the list is empty.
    - Member functions take the object and return the object they leave
      behind next to their result.
    - A store outside a character buffer is undefined in C++; the model
      answers [None] for it, and the theorems show it is never reached. *)

From Stdlib Require Import ZArith List Bool Lia.
From Stdlib Require Import Strings.Byte.
Import ListNotations.
Local Open Scope Z_scope.

(** ** Machine integers *)

Definition wrap (bits : Z) (z : Z) : Z :=
  (z + 2 ^ (bits - 1)) mod 2 ^ bits - 2 ^ (bits - 1).

Definition cast_char (z : Z) : Z := wrap 8 z.
Definition cast_int (z : Z) : Z := wrap 16 z.
Definition cast_long (z : Z) : Z := wrap 32 z.

(** The value [Stream::read()] reports for a byte: 0..255. *)
Definition byte_val (b : byte) : Z := Z.of_N (Byte.to_N b).

(** ** Constants of MidiFileStream.h *)

Definition CT_UNK : Z := 0.
Definition CT_END : Z := 1.
Definition CT_MTHD : Z := 100.
Definition CT_MTRK : Z := 101.

Definition ET_UNK : Z := 0.
Definition ET_NO_OP : Z := 1.
Definition ET_END : Z := 2.
Definition ET_SYSEX_F0 : Z := 3.
Definition ET_SYSEX_ESC : Z := 4.
Definition ET_SEQ_NUM : Z := 5.
Definition ET_TEXT : Z := 6.
Definition ET_COPYRIGHT : Z := 7.
Definition ET_NAME : Z := 8.
Definition ET_INSTRUMENT : Z := 9.
Definition ET_LYRIC : Z := 10.
Definition ET_MARKER : Z := 11.
Definition ET_CUE : Z := 12.
Definition ET_CHAN_PREFIX : Z := 13.
Definition ET_END_TRACK : Z := 14.
Definition ET_TEMPO : Z := 15.
Definition ET_SMPTE_OFFSET : Z := 16.
Definition ET_TIME_SIGN : Z := 17.
Definition ET_KEY_SIGN : Z := 18.
Definition ET_CHANNEL : Z := 19.

Definition CH_NOTE_OFF : Z := 0x8.
Definition CH_NOTE_ON : Z := 0x9.
Definition CH_NOTE_AFTERTOUCH : Z := 0xA.
Definition CH_CONTROLLER : Z := 0xB.
Definition CH_PROG_CHANGE : Z := 0xC.
Definition CH_CHAN_AFTERTOUCH : Z := 0xD.
Definition CH_PITCH_BEND : Z := 0xE.

Definition EV_BUFFER_SIZE : Z := 140 + 1.

(** ** Event data

    [union eventData].  The nine structs [dataSysexF0], [dataSysexEsc],
    [dataText], [dataCopyright], [dataName], [dataInstrument],
    [dataLyric], [dataMarker] and [dataCue] have the same layout, an
    [int length] followed by [char bytes[EV_BUFFER_SIZE]], and occupy the
    same storage: they are the one member [buffer].  The remaining
    members are kept side by side; the model does not follow the sharing
    of their storage, so a member is meaningful only after an event of
    its own type was read (which is how the header says to use it). *)

Record dataBuffer := mkDataBuffer {
  length_ : Z;
  bytes : list Z
}.

Record dataSmpteOffset := mkDataSmpteOffset {
  hours : Z; minutes : Z; seconds : Z; frames : Z; f100ths : Z
}.

Record dataTimeSign := mkDataTimeSign {
  numer : Z; denom : Z; metro : Z; m32nds : Z
}.

Record dataKeySign := mkDataKeySign {
  numSharps : Z; isMinor : Z
}.

Record dataChannel := mkDataChannel {
  code : Z; chan : Z; param1 : Z; param2 : Z
}.

Record eventData := mkEventData {
  buffer : dataBuffer;
  seqNum_number : Z;
  chanPrefix_chan : Z;
  tempo_uSecPerBeat : Z;
  smpteOffset : dataSmpteOffset;
  timeSign : dataTimeSign;
  keySign : dataKeySign;
  channel : dataChannel
}.

(** ** The object *)

Record MidiFileStream := mkMidiFileStream {
  _pStream : list byte;
  _bytesLeft : Z;
  _format : Z;
  _numTracks : Z;
  _ticksPerBeat : Z;
  _runningStatus : Z;
  _eventType : Z;
  _eventDeltaTicks : Z;
  _eventData : eventData
}.

Definition set_pStream (v : list byte) (s : MidiFileStream) : MidiFileStream :=
  mkMidiFileStream v (_bytesLeft s) (_format s) (_numTracks s) (_ticksPerBeat s)
    (_runningStatus s) (_eventType s) (_eventDeltaTicks s) (_eventData s).

Definition set_bytesLeft (v : Z) (s : MidiFileStream) : MidiFileStream :=
  mkMidiFileStream (_pStream s) v (_format s) (_numTracks s) (_ticksPerBeat s)
    (_runningStatus s) (_eventType s) (_eventDeltaTicks s) (_eventData s).

Definition set_format (v : Z) (s : MidiFileStream) : MidiFileStream :=
  mkMidiFileStream (_pStream s) (_bytesLeft s) v (_numTracks s) (_ticksPerBeat s)
    (_runningStatus s) (_eventType s) (_eventDeltaTicks s) (_eventData s).

Definition set_numTracks (v : Z) (s : MidiFileStream) : MidiFileStream :=
  mkMidiFileStream (_pStream s) (_bytesLeft s) (_format s) v (_ticksPerBeat s)
    (_runningStatus s) (_eventType s) (_eventDeltaTicks s) (_eventData s).

Definition set_ticksPerBeat (v : Z) (s : MidiFileStream) : MidiFileStream :=
  mkMidiFileStream (_pStream s) (_bytesLeft s) (_format s) (_numTracks s) v
    (_runningStatus s) (_eventType s) (_eventDeltaTicks s) (_eventData s).

Definition set_runningStatus (v : Z) (s : MidiFileStream) : MidiFileStream :=
  mkMidiFileStream (_pStream s) (_bytesLeft s) (_format s) (_numTracks s)
    (_ticksPerBeat s) v (_eventType s) (_eventDeltaTicks s) (_eventData s).

Definition set_eventType (v : Z) (s : MidiFileStream) : MidiFileStream :=
  mkMidiFileStream (_pStream s) (_bytesLeft s) (_format s) (_numTracks s)
    (_ticksPerBeat s) (_runningStatus s) v (_eventDeltaTicks s) (_eventData s).

Definition set_eventDeltaTicks (v : Z) (s : MidiFileStream) : MidiFileStream :=
  mkMidiFileStream (_pStream s) (_bytesLeft s) (_format s) (_numTracks s)
    (_ticksPerBeat s) (_runningStatus s) (_eventType s) v (_eventData s).

Definition set_eventData (v : eventData) (s : MidiFileStream) : MidiFileStream :=
  mkMidiFileStream (_pStream s) (_bytesLeft s) (_format s) (_numTracks s)
    (_ticksPerBeat s) (_runningStatus s) (_eventType s) (_eventDeltaTicks s) v.

(** ** Accessors *)

Definition getFormat (s : MidiFileStream) : Z := _format s.
Definition getNumTracks (s : MidiFileStream) : Z := _numTracks s.
Definition getTicksPerBeat (s : MidiFileStream) : Z := _ticksPerBeat s.
Definition getChunkBytesLeft (s : MidiFileStream) : Z := _bytesLeft s.
Definition getEventDeltaTicks (s : MidiFileStream) : Z := _eventDeltaTicks s.
Definition getEventType (s : MidiFileStream) : Z := _eventType s.
Definition getEventDataP (s : MidiFileStream) : eventData := _eventData s.

(** ** Reading from the stream and from the current chunk *)

(** [_pStream->read()]. *)
Definition stream_read (s : MidiFileStream) : Z * MidiFileStream :=
  match _pStream s with
  | [] => (-1, s)
  | b :: rest => (byte_val b, set_pStream rest s)
  end.

(** [readChunkByte]: one byte of the current chunk, or -1 at its end. *)
Definition readChunkByte (s : MidiFileStream) : Z * MidiFileStream :=
  if _bytesLeft s <=? 0 then (-1, s)
  else stream_read (set_bytesLeft (_bytesLeft s - 1) s).

(** [readFixedLong]: the loop, with [n] iterations still to run. *)
Fixpoint readFixedLong_loop (n : nat) (result : Z) (s : MidiFileStream)
  : Z * MidiFileStream :=
  match n with
  | O => (result, s)
  | S n' =>
      let '(bint, s) := readChunkByte s in
      if bint <? 0 then (-1, s)
      else
        let result := cast_long (Z.shiftl result 8) in
        let result := Z.lor result bint in
        readFixedLong_loop n' result s
  end.

Definition readFixedLong (numBytes : Z) (s : MidiFileStream) : Z * MidiFileStream :=
  readFixedLong_loop (Z.to_nat numBytes) 0 s.

(** [readVariableLong]: the [while (anotherByte)] loop.  [fuel] bounds the
    number of iterations of the model; the loop itself leaves through
    [numBytes > 4] after at most six (see [readVariableLong_loop_fuel]). *)
Fixpoint readVariableLong_loop (fuel : nat) (numBytes result : Z) (s : MidiFileStream)
  : option (Z * MidiFileStream) :=
  match fuel with
  | O => None
  | S fuel' =>
      if numBytes >? 4 then Some (-1, s)
      else
        let '(bint, s) := readChunkByte s in
        if bint <? 0 then Some (-1, s)
        else
          let numBytes := numBytes + 1 in
          let anotherByte := Z.land bint 0x80 =? 0x80 in
          let result := cast_long (Z.shiftl result 7) in
          let result := Z.lor result (Z.land bint 0x7F) in
          if anotherByte then readVariableLong_loop fuel' numBytes result s
          else Some (result, s)
  end.

Definition readVariableLong (s : MidiFileStream) : Z * MidiFileStream :=
  match readVariableLong_loop 6 0 0 s with
  | Some r => r
  | None => (-1, s)
  end.

(** ** Character buffers *)

(** [pBuffer[i] = c].  A store past the end of the array is undefined
    behaviour: [None]. *)
Definition store (pBuffer : list Z) (i : nat) (c : Z) : option (list Z) :=
  if (i <? length pBuffer)%nat
  then Some (firstn i pBuffer ++ c :: skipn (S i) pBuffer)
  else None.

Notation "'do' x <- a ; b" :=
  (match a with Some x => b | None => None end)
  (at level 10, x pattern, a at level 100, b at level 200).

(** [readVariableBytes], first loop: [n] iterations still to run; [cp] is
    the offset of the pointer [cp] into [pBuffer].  The boolean is false
    when the loop left through [return -1]. *)
Fixpoint readVariableBytes_fill (n : nat) (bytesRead : Z) (cp : nat)
    (pBuffer : list Z) (s : MidiFileStream)
  : option (bool * Z * nat * list Z * MidiFileStream) :=
  match n with
  | O => Some (true, bytesRead, cp, pBuffer, s)
  | S n' =>
      let '(bint, s) := readChunkByte s in
      if bint <? 0 then Some (false, bytesRead, cp, pBuffer, s)
      else
        do pBuffer <- store pBuffer cp (cast_char bint);
        readVariableBytes_fill n' (bytesRead + 1) (S cp) pBuffer s
  end.

(** [readVariableBytes], second loop (also the loop that discards the
    data of an unknown meta event): [n] bytes still to skip. *)
Fixpoint skipChunkBytes (n : nat) (s : MidiFileStream) : bool * MidiFileStream :=
  match n with
  | O => (true, s)
  | S n' =>
      let '(bint, s) := readChunkByte s in
      if bint <? 0 then (false, s) else skipChunkBytes n' s
  end.

Definition readVariableBytes (length : Z) (pBuffer : list Z) (s : MidiFileStream)
  : option (Z * list Z * MidiFileStream) :=
  do pBuffer <- store pBuffer 0 0;
  let truncLength :=
    if length >? EV_BUFFER_SIZE - 1 then EV_BUFFER_SIZE - 1 else length in
  do r <- readVariableBytes_fill (Z.to_nat truncLength) 0 0%nat pBuffer s;
  let '(ok, bytesRead, cp, pBuffer, s) := r in
  if negb ok then Some (-1, pBuffer, s)
  else
    do pBuffer <- store pBuffer cp 0;
    let '(ok, s) := skipChunkBytes (Z.to_nat (length - bytesRead)) s in
    if negb ok then Some (-1, pBuffer, s)
    else Some (truncLength, pBuffer, s).

(** ** Chunks *)

Definition mthd : list Z := [77; 84; 104; 100].  (* 'M' 'T' 'h' 'd' *)
Definition mtrk : list Z := [77; 84; 114; 107].  (* 'M' 'T' 'r' 'k' *)

(** [openChunk], reading the signature: [n] characters still to read,
    [i] the loop index.  [inl t] is an early [return t]. *)
Fixpoint openChunk_sig (n : nat) (i : Z) (sig : list Z) (s : MidiFileStream)
  : (Z + list Z) * MidiFileStream :=
  match n with
  | O => (inr sig, s)
  | S n' =>
      let '(bint, s) := stream_read s in
      let sig := sig ++ [cast_char bint] in
      if bint <? 0 then
        if i =? 0 then (inl CT_END, s) else (inl CT_UNK, s)
      else openChunk_sig n' (i + 1) sig s
  end.

(** The comparison loops of [openChunk]: the index [i] at which
    [for (i = 0; i < 4; ++i) if (sig[i] != ref[i]) break;] stops. *)
Fixpoint sig_compare (i : Z) (sig ref : list Z) : Z :=
  match sig, ref with
  | c :: sig', r :: ref' => if c =? r then sig_compare (i + 1) sig' ref' else i
  | _, _ => i
  end.

Definition openChunk (s : MidiFileStream) : Z * MidiFileStream :=
  let s := set_bytesLeft (-1) s in
  let s := set_runningStatus 0 s in
  let s := set_eventType ET_UNK s in
  let s := set_eventDeltaTicks (-1) s in
  match openChunk_sig 4 0 [] s with
  | (inl t, s) => (t, s)
  | (inr sig, s) =>
      let s := set_bytesLeft 4 s in
      let '(r, s) := readFixedLong 4 s in
      let s := set_bytesLeft r s in
      if _bytesLeft s <? 0 then (CT_UNK, s)
      else if sig_compare 0 sig mthd =? 4 then (CT_MTHD, s)
      else if sig_compare 0 sig mtrk =? 4 then (CT_MTRK, s)
      else (CT_UNK, s)
  end.

(** [begin(stream)]. *)
Definition begin (stream : list byte) (s : MidiFileStream) : bool * MidiFileStream :=
  let s := set_pStream stream s in
  let s := set_bytesLeft (-1) s in
  let s := set_format (-1) s in
  let s := set_numTracks (-1) s in
  let s := set_ticksPerBeat 0 s in
  let s := set_runningStatus 0 s in
  let s := set_eventType ET_UNK s in
  let s := set_eventDeltaTicks (-1) s in
  let '(chunkType, s) := openChunk s in
  if negb (chunkType =? CT_MTHD) then (false, s)
  else if negb (_bytesLeft s =? 6) then (false, s)
  else
    let '(r, s) := readFixedLong 2 s in
    let s := set_format (cast_int r) s in
    if _format s <? 0 then (false, s)
    else
      let '(r, s) := readFixedLong 2 s in
      let s := set_numTracks (cast_int r) s in
      if _numTracks s <? 0 then (false, s)
      else
        let '(r, s) := readFixedLong 2 s in
        let s := set_ticksPerBeat (cast_int r) s in
        if _ticksPerBeat s <? 0 then (false, s)
        else if _bytesLeft s >? 0 then (false, s)
        else (true, s).

(** [end()].  The stream pointer is cleared: nothing is left to read. *)
Definition end_ (s : MidiFileStream) : MidiFileStream :=
  let s := set_pStream [] s in
  let s := set_bytesLeft (-1) s in
  let s := set_format (-1) s in
  let s := set_numTracks (-1) s in
  let s := set_ticksPerBeat 0 s in
  let s := set_runningStatus 0 s in
  let s := set_eventType ET_UNK s in
  set_eventDeltaTicks (-1) s.

(** ** Assignments to the members of [_eventData] *)

Definition set_buffer (v : dataBuffer) (s : MidiFileStream) : MidiFileStream :=
  let d := _eventData s in
  set_eventData (mkEventData v (seqNum_number d) (chanPrefix_chan d)
    (tempo_uSecPerBeat d) (smpteOffset d) (timeSign d) (keySign d) (channel d)) s.

Definition set_buffer_length (v : Z) (s : MidiFileStream) : MidiFileStream :=
  set_buffer (mkDataBuffer v (bytes (buffer (_eventData s)))) s.

Definition set_buffer_bytes (v : list Z) (s : MidiFileStream) : MidiFileStream :=
  set_buffer (mkDataBuffer (length_ (buffer (_eventData s))) v) s.

Definition set_seqNum_number (v : Z) (s : MidiFileStream) : MidiFileStream :=
  let d := _eventData s in
  set_eventData (mkEventData (buffer d) v (chanPrefix_chan d)
    (tempo_uSecPerBeat d) (smpteOffset d) (timeSign d) (keySign d) (channel d)) s.

Definition set_chanPrefix_chan (v : Z) (s : MidiFileStream) : MidiFileStream :=
  let d := _eventData s in
  set_eventData (mkEventData (buffer d) (seqNum_number d) v
    (tempo_uSecPerBeat d) (smpteOffset d) (timeSign d) (keySign d) (channel d)) s.

Definition set_tempo_uSecPerBeat (v : Z) (s : MidiFileStream) : MidiFileStream :=
  let d := _eventData s in
  set_eventData (mkEventData (buffer d) (seqNum_number d) (chanPrefix_chan d)
    v (smpteOffset d) (timeSign d) (keySign d) (channel d)) s.

Definition set_smpteOffset (v : dataSmpteOffset) (s : MidiFileStream) : MidiFileStream :=
  let d := _eventData s in
  set_eventData (mkEventData (buffer d) (seqNum_number d) (chanPrefix_chan d)
    (tempo_uSecPerBeat d) v (timeSign d) (keySign d) (channel d)) s.

Definition set_timeSign (v : dataTimeSign) (s : MidiFileStream) : MidiFileStream :=
  let d := _eventData s in
  set_eventData (mkEventData (buffer d) (seqNum_number d) (chanPrefix_chan d)
    (tempo_uSecPerBeat d) (smpteOffset d) v (keySign d) (channel d)) s.

Definition set_keySign (v : dataKeySign) (s : MidiFileStream) : MidiFileStream :=
  let d := _eventData s in
  set_eventData (mkEventData (buffer d) (seqNum_number d) (chanPrefix_chan d)
    (tempo_uSecPerBeat d) (smpteOffset d) (timeSign d) v (channel d)) s.

Definition set_channel (v : dataChannel) (s : MidiFileStream) : MidiFileStream :=
  let d := _eventData s in
  set_eventData (mkEventData (buffer d) (seqNum_number d) (chanPrefix_chan d)
    (tempo_uSecPerBeat d) (smpteOffset d) (timeSign d) (keySign d) v) s.

Definition set_hours (v : Z) (s : MidiFileStream) : MidiFileStream :=
  let d := smpteOffset (_eventData s) in
  set_smpteOffset (mkDataSmpteOffset v (minutes d) (seconds d) (frames d) (f100ths d)) s.
Definition set_minutes (v : Z) (s : MidiFileStream) : MidiFileStream :=
  let d := smpteOffset (_eventData s) in
  set_smpteOffset (mkDataSmpteOffset (hours d) v (seconds d) (frames d) (f100ths d)) s.
Definition set_seconds (v : Z) (s : MidiFileStream) : MidiFileStream :=
  let d := smpteOffset (_eventData s) in
  set_smpteOffset (mkDataSmpteOffset (hours d) (minutes d) v (frames d) (f100ths d)) s.
Definition set_frames (v : Z) (s : MidiFileStream) : MidiFileStream :=
  let d := smpteOffset (_eventData s) in
  set_smpteOffset (mkDataSmpteOffset (hours d) (minutes d) (seconds d) v (f100ths d)) s.
Definition set_f100ths (v : Z) (s : MidiFileStream) : MidiFileStream :=
  let d := smpteOffset (_eventData s) in
  set_smpteOffset (mkDataSmpteOffset (hours d) (minutes d) (seconds d) (frames d) v) s.

Definition set_numer (v : Z) (s : MidiFileStream) : MidiFileStream :=
  let d := timeSign (_eventData s) in
  set_timeSign (mkDataTimeSign v (denom d) (metro d) (m32nds d)) s.
Definition set_denom (v : Z) (s : MidiFileStream) : MidiFileStream :=
  let d := timeSign (_eventData s) in
  set_timeSign (mkDataTimeSign (numer d) v (metro d) (m32nds d)) s.
Definition set_metro (v : Z) (s : MidiFileStream) : MidiFileStream :=
  let d := timeSign (_eventData s) in
  set_timeSign (mkDataTimeSign (numer d) (denom d) v (m32nds d)) s.
Definition set_m32nds (v : Z) (s : MidiFileStream) : MidiFileStream :=
  let d := timeSign (_eventData s) in
  set_timeSign (mkDataTimeSign (numer d) (denom d) (metro d) v) s.

Definition set_numSharps (v : Z) (s : MidiFileStream) : MidiFileStream :=
  set_keySign (mkDataKeySign v (isMinor (keySign (_eventData s)))) s.
Definition set_isMinor (v : Z) (s : MidiFileStream) : MidiFileStream :=
  set_keySign (mkDataKeySign (numSharps (keySign (_eventData s))) v) s.

Definition set_code (v : Z) (s : MidiFileStream) : MidiFileStream :=
  let d := channel (_eventData s) in
  set_channel (mkDataChannel v (chan d) (param1 d) (param2 d)) s.
Definition set_chan (v : Z) (s : MidiFileStream) : MidiFileStream :=
  let d := channel (_eventData s) in
  set_channel (mkDataChannel (code d) v (param1 d) (param2 d)) s.
Definition set_param1 (v : Z) (s : MidiFileStream) : MidiFileStream :=
  let d := channel (_eventData s) in
  set_channel (mkDataChannel (code d) (chan d) v (param2 d)) s.
Definition set_param2 (v : Z) (s : MidiFileStream) : MidiFileStream :=
  let d := channel (_eventData s) in
  set_channel (mkDataChannel (code d) (chan d) (param1 d) v) s.

(** ** Events *)

(** [return _eventType;] *)
Definition ret (s : MidiFileStream) : option (Z * MidiFileStream) :=
  Some (_eventType s, s).

(** [_eventType = ET_UNK; return _eventType;] *)
Definition fail (s : MidiFileStream) : option (Z * MidiFileStream) :=
  ret (set_eventType ET_UNK s).

(** The events whose data is a run of bytes (both sysex events and the
    seven text meta events):
    [_eventType = et;
     _eventData.X.length = readVariableBytes(length, &_eventData.X.bytes[0]);
     if (_eventData.X.length < 0) { _eventType = ET_UNK; return _eventType; }]
    followed by the [return _eventType] that ends the enclosing branch. *)
Definition readEvent_bytes (et length : Z) (s : MidiFileStream)
  : option (Z * MidiFileStream) :=
  let s := set_eventType et s in
  do r <- readVariableBytes length (bytes (buffer (_eventData s))) s;
  let '(l, pBuffer, s) := r in
  let s := set_buffer_bytes pBuffer s in
  let s := set_buffer_length (cast_int l) s in
  if length_ (buffer (_eventData s)) <? 0 then fail s else ret s.

(** [bint = readChunkByte(); if (bint < 0) { _eventType = ET_UNK; }]:
    the reads of the SMPTE offset, time signature and key signature
    events, which note the failure and carry on. *)
Definition readChunkByte_noting (s : MidiFileStream) : Z * MidiFileStream :=
  let '(bint, s) := readChunkByte s in
  if bint <? 0 then (bint, set_eventType ET_UNK s) else (bint, s).

(** The [switch ((char) metaType)] of [readEvent] with what follows it. *)
Definition readEvent_meta (metaType length : Z) (s : MidiFileStream)
  : option (Z * MidiFileStream) :=
  let c := cast_char metaType in
  if c =? 0x00 then (* Sequence Number *)
    let s := set_eventType ET_SEQ_NUM s in
    if negb (length =? 2) then fail s
    else
      let '(l, s) := readFixedLong 2 s in
      if l <? 0 then fail s
      else ret (set_seqNum_number (cast_int l) s)
  else if c =? 0x01 then readEvent_bytes ET_TEXT length s
  else if c =? 0x02 then readEvent_bytes ET_COPYRIGHT length s
  else if c =? 0x03 then readEvent_bytes ET_NAME length s
  else if c =? 0x04 then readEvent_bytes ET_INSTRUMENT length s
  else if c =? 0x05 then readEvent_bytes ET_LYRIC length s
  else if c =? 0x06 then readEvent_bytes ET_MARKER length s
  else if c =? 0x07 then readEvent_bytes ET_CUE length s
  else if c =? 0x20 then (* Midi Channel Prefix *)
    let s := set_eventType ET_CHAN_PREFIX s in
    if negb (length =? 1) then fail s
    else
      let '(bint, s) := readChunkByte s in
      if bint <? 0 then fail s
      else ret (set_chanPrefix_chan bint s)
  else if c =? 0x2F then (* End of Track *)
    let s := set_eventType ET_END_TRACK s in
    if negb (length =? 0) then fail s
    else ret s
  else if c =? 0x51 then (* Set Tempo *)
    let s := set_eventType ET_TEMPO s in
    if negb (length =? 3) then fail s
    else
      let '(l, s) := readFixedLong 3 s in
      let s := set_tempo_uSecPerBeat l s in
      if tempo_uSecPerBeat (_eventData s) <? 0 then fail s
      else ret s
  else if c =? 0x54 then (* SMPTE Offset *)
    let s := set_eventType ET_SMPTE_OFFSET s in
    if negb (length =? 5) then fail s
    else
      let '(bint, s) := readChunkByte_noting s in
      let s := set_hours bint s in
      let '(bint, s) := readChunkByte_noting s in
      let s := set_minutes bint s in
      let '(bint, s) := readChunkByte_noting s in
      let s := set_seconds bint s in
      let '(bint, s) := readChunkByte_noting s in
      let s := set_frames bint s in
      let '(bint, s) := readChunkByte_noting s in
      let s := set_f100ths bint s in
      ret s
  else if c =? 0x58 then (* Time Signature *)
    let s := set_eventType ET_TIME_SIGN s in
    if negb (length =? 4) then fail s
    else
      let '(bint, s) := readChunkByte_noting s in
      let s := set_numer bint s in
      let '(bint, s) := readChunkByte_noting s in
      (* [1 << bint]; undefined in C++ unless 0 <= bint < 15, taken here
         as the shift of the integers cut to 16 bits *)
      let s := set_denom (cast_int (Z.shiftl 1 bint)) s in
      let '(bint, s) := readChunkByte_noting s in
      let s := set_metro bint s in
      let '(bint, s) := readChunkByte_noting s in
      let s := set_m32nds bint s in
      ret s
  else if c =? 0x59 then (* Key Signature *)
    let s := set_eventType ET_KEY_SIGN s in
    if negb (length =? 2) then fail s
    else
      let '(bint, s) := readChunkByte_noting s in
      let s := set_numSharps bint s in
      let s :=
        if negb (Z.land (numSharps (keySign (_eventData s))) 0x80 =? 0)
        then set_numSharps (Z.lor (numSharps (keySign (_eventData s))) (-0x80)) s
        else s in
      let '(bint, s) := readChunkByte_noting s in
      let s := set_isMinor bint s in
      ret s
  else (* Unknown Meta event *)
    let s := set_eventType ET_NO_OP s in
    let '(ok, s) := skipChunkBytes (Z.to_nat length) s in
    if negb ok then fail s else ret s.

(** The channel event that ends [readEvent], from its end backwards.
    The second parameter: *)
Definition readEvent_param2 (s : MidiFileStream) : option (Z * MidiFileStream) :=
  if (code (channel (_eventData s)) =? 0xC)
     || (code (channel (_eventData s)) =? 0xD)
  then ret (set_param2 0 s)
  else
    let '(bint, s) := readChunkByte s in
    if bint <? 0 then fail s
    else ret (set_param2 bint s).

(** From [_eventData.channel.code = (char) (bint >> 4);] on: [bint] is
    the status byte in force, [runningBint] the data byte set aside when
    running status is used, or -1. *)
Definition readEvent_status (runningBint bint : Z) (s : MidiFileStream)
  : option (Z * MidiFileStream) :=
  let s := set_code (cast_char (Z.shiftr bint 4)) s in
  let s := set_chan (Z.land bint 0x0F) s in
  let s := set_runningStatus bint s in
  if negb (runningBint =? -1) then
    readEvent_param2 (set_param1 runningBint s)
  else
    let '(bint, s) := readChunkByte s in
    if bint <? 0 then fail s
    else readEvent_param2 (set_param1 bint s).

(** [bint] is the first byte of the event. *)
Definition readEvent_channel (bint : Z) (s : MidiFileStream)
  : option (Z * MidiFileStream) :=
  let s := set_eventType ET_CHANNEL s in
  let runningBint := -1 in
  if Z.land bint 0x80 =? 0 then
    let runningBint := bint in
    let bint := _runningStatus s in
    if Z.land bint 0x80 =? 0 then fail s
    else readEvent_status runningBint bint s
  else readEvent_status runningBint bint s.

(** [readEvent]. *)
Definition readEvent (s : MidiFileStream) : option (Z * MidiFileStream) :=
  let s := set_eventType ET_UNK s in
  let '(dt, s) := readVariableLong s in
  let s := set_eventDeltaTicks dt s in
  if _eventDeltaTicks s <? 0 then ret (set_eventType ET_END s)
  else
    let '(bint, s) := readChunkByte s in
    if bint <? 0 then fail s
    else if (bint =? 0xF0) || (bint =? 0xF7) then
      (* A Sysex event: that clears running status. *)
      let s := set_runningStatus 0 s in
      let '(length, s) := readVariableLong s in
      if length <? 0 then fail s
      else if bint =? 0xF0 then readEvent_bytes ET_SYSEX_F0 length s
      else if bint =? 0xF7 then readEvent_bytes ET_SYSEX_ESC length s
      else ret s
    else if bint =? 0xFF then
      (* A Meta event: that clears running status. *)
      let s := set_runningStatus 0 s in
      let '(metaType, s) := readChunkByte s in
      if metaType <? 0 then fail s
      else
        let '(length, s) := readVariableLong s in
        if length <? 0 then fail s
        else readEvent_meta metaType length s
    else readEvent_channel bint s.

(** ** Vocabulary of the specification *)

(** The byte with value [z], for [0 <= z < 256]. *)
Definition byte_of_Z (z : Z) : byte :=
  match Byte.of_N (Z.to_N z) with
  | Some b => b
  | None => x00
  end.

(** The encoder of variable-length quantities.  The library only reads;
    this is the encoding §4.1 of the specification describes (each byte
    carries 7 bits of data in its low bits, the high bit says that more
    bytes follow, the most significant group comes first).
    [vlq_groups fuel x acc] puts the groups of [x] that are left, each
    with its high bit set, in front of [acc]. *)
Fixpoint vlq_groups (fuel : nat) (x : Z) (acc : list byte) : list byte :=
  match fuel with
  | O => acc
  | S fuel' =>
      if x =? 0 then acc
      else vlq_groups fuel' (Z.shiftr x 7)
             (byte_of_Z (Z.lor 0x80 (Z.land x 0x7F)) :: acc)
  end.

Definition vlq_encode (x : Z) : list byte :=
  vlq_groups 3 (Z.shiftr x 7) [byte_of_Z (Z.land x 0x7F)].

(** A byte whose high bit is set: more bytes follow. *)
Definition continuation (b : byte) : Prop := Z.land (byte_val b) 0x80 = 0x80.

(** The number a run of bytes stands for, 7 bits a byte, starting from
    [acc]. *)
Definition vlq_value (acc : Z) (bs : list byte) : Z :=
  fold_left (fun a b => a * 128 + Z.land (byte_val b) 0x7F) bs acc.

(** The declared length each fixed-shape meta event must have, by meta
    type, as the cases of [readEvent] test it. *)
Definition fixed_meta_length (metaType : Z) : option Z :=
  if metaType =? 0x00 then Some 2        (* sequence number *)
  else if metaType =? 0x20 then Some 1   (* channel prefix *)
  else if metaType =? 0x2F then Some 0   (* end of track *)
  else if metaType =? 0x51 then Some 3   (* tempo *)
  else if metaType =? 0x54 then Some 5   (* SMPTE offset *)
  else if metaType =? 0x58 then Some 4   (* time signature *)
  else if metaType =? 0x59 then Some 2   (* key signature *)
  else None.

(** The event buffer of the object has the size its declaration gives. *)
Definition buffer_ok (s : MidiFileStream) : Prop :=
  Z.of_nat (length (bytes (buffer (_eventData s)))) = EV_BUFFER_SIZE.

(** [s'] was reached from [s] inside the budget of the open chunk: the
    bytes [taken] from the stream are paid for by the decrease of
    [_bytesLeft], which never goes below zero (or below where it
    started, if that was negative already). *)
Definition within_budget (s s' : MidiFileStream) : Prop :=
  exists taken : list byte,
    _pStream s = taken ++ _pStream s'
    /\ Z.of_nat (length taken) <= _bytesLeft s - _bytesLeft s'
    /\ Z.min 0 (_bytesLeft s) <= _bytesLeft s'.

(** The object after [n] bytes of the chunk were consumed. *)
Definition advance (n : nat) (s : MidiFileStream) : MidiFileStream :=
  set_pStream (skipn n (_pStream s)) (set_bytesLeft (_bytesLeft s - Z.of_nat n) s).

(** The declared length of a chunk: four bytes, most significant first. *)
Definition declared_length (l1 l2 l3 l4 : byte) : Z :=
  ((byte_val l1 * 256 + byte_val l2) * 256 + byte_val l3) * 256 + byte_val l4.

(** [readChunkByte] and the readers built from it look at [_pStream] and
    [_bytesLeft] only.  An update [u] of other fields of the object (a
    frame) can therefore be moved across them. *)
Record frame (u : MidiFileStream -> MidiFileStream) : Prop := mkFrame {
  frame_pStream : forall s, _pStream (u s) = _pStream s;
  frame_bytesLeft : forall s, _bytesLeft (u s) = _bytesLeft s;
  frame_set_pStream : forall p s, u (set_pStream p s) = set_pStream p (u s);
  frame_set_bytesLeft : forall b s, u (set_bytesLeft b s) = set_bytesLeft b (u s)
}.

(** [only_read s s']: [s'] differs from [s] in [_pStream] and
    [_bytesLeft] at most. *)
Definition only_read (s s' : MidiFileStream) : Prop :=
  s' = set_pStream (_pStream s') (set_bytesLeft (_bytesLeft s') s).

(** [event_step k s s']: [s'] was reached from [s] inside the budget of
    the chunk, with an event buffer of the same size and, when [k] is
    set, the same running status; [same_view] says that two objects look
    the same to it. *)
Definition buffer_size (s : MidiFileStream) : nat :=
  List.length (bytes (buffer (_eventData s))).

Definition same_view (k : bool) (s t : MidiFileStream) : Prop :=
  _pStream s = _pStream t /\ _bytesLeft s = _bytesLeft t
  /\ buffer_size s = buffer_size t
  /\ (k = true -> _runningStatus s = _runningStatus t).

Definition event_step (k : bool) (s s' : MidiFileStream) : Prop :=
  within_budget s s'
  /\ buffer_size s' = buffer_size s
  /\ (k = true -> _runningStatus s' = _runningStatus s).

(** ** Objects to run the reader on *)

Definition cleared_eventData : eventData :=
  mkEventData (mkDataBuffer 0 (repeat 0 (Z.to_nat EV_BUFFER_SIZE))) 0 0 0
    (mkDataSmpteOffset 0 0 0 0 0) (mkDataTimeSign 0 0 0 0)
    (mkDataKeySign 0 0) (mkDataChannel 0 0 0 0).

(** An object as [end()] leaves it, before any [begin]. *)
Definition closed : MidiFileStream :=
  mkMidiFileStream [] (-1) (-1) (-1) 0 0 ET_UNK (-1) cleared_eventData.

(** An object inside a chunk with [n] bytes left to read, on a stream
    that still holds [stream]. *)
Definition in_chunk (stream : list byte) (n : Z) : MidiFileStream :=
  set_bytesLeft n (set_pStream stream closed).

(** ** Further vocabulary *)

(** The number a run of bytes stands for, most significant byte first,
    starting from [acc]. *)
Definition be_value (acc : Z) (bs : list byte) : Z :=
  fold_left (fun r b => r * 256 + byte_val b) bs acc.

(** How many bytes [readChunkByte] can still deliver: what the budget of
    the chunk allows, of what the stream holds. *)
Definition readable (s : MidiFileStream) : Z :=
  Z.min (Z.max 0 (_bytesLeft s)) (Z.of_nat (List.length (_pStream s))).

(** The event type [readEvent] gives each of the seven text meta types,
    as its [switch] lists them. *)
Definition text_event_type (metaType : Z) : option Z :=
  if metaType =? 0x01 then Some ET_TEXT
  else if metaType =? 0x02 then Some ET_COPYRIGHT
  else if metaType =? 0x03 then Some ET_NAME
  else if metaType =? 0x04 then Some ET_INSTRUMENT
  else if metaType =? 0x05 then Some ET_LYRIC
  else if metaType =? 0x06 then Some ET_MARKER
  else if metaType =? 0x07 then Some ET_CUE
  else None.

(** The members that no read of an event touches once the delta time
    is set: the delta time itself and the three fields of the header. *)
Definition kept_fields (s : MidiFileStream) : Z * Z * Z * Z :=
  (_eventDeltaTicks s, _format s, _numTracks s, _ticksPerBeat s).

(** [read_on s s']: [s'] was reached from [s] by reading on in the same
    event: the kept members and the size of the event buffer are those
    of [s], and the event type is that of [s] or was set to [ET_UNK]. *)
Definition read_on (s s' : MidiFileStream) : Prop :=
  kept_fields s' = kept_fields s
  /\ buffer_size s' = buffer_size s
  /\ (_eventType s' = _eventType s \/ _eventType s' = ET_UNK).

(** What [openChunk] leaves of the object [s] it was called on: the
    state of the event reader starts afresh, and the header fields and
    the event data stay. *)
Definition chunk_opened (s s' : MidiFileStream) : Prop :=
  _runningStatus s' = 0 /\ _eventType s' = ET_UNK /\ _eventDeltaTicks s' = -1
  /\ _format s' = _format s /\ _numTracks s' = _numTracks s
  /\ _ticksPerBeat s' = _ticksPerBeat s /\ _eventData s' = _eventData s.

(** * Properties *)

(** A boolean comparison known in a hypothesis, as the order it decides. *)
Ltac zb H :=
  first
    [ apply Z.ltb_lt in H | apply Z.ltb_ge in H
    | apply Z.leb_le in H | apply Z.leb_gt in H
    | apply Z.eqb_eq in H | apply Z.eqb_neq in H
    | rewrite Z.gtb_ltb in H; first [apply Z.ltb_lt in H | apply Z.ltb_ge in H] ].

(** ** Machine integers and bytes *)

Lemma cast_char_id (z : Z) : -128 <= z < 128 -> cast_char z = z.
Proof.
  intros H. unfold cast_char, wrap. change (2 ^ (8 - 1)) with 128.
  change (2 ^ 8) with 256. rewrite Z.mod_small; lia.
Qed.

Lemma cast_int_id (z : Z) : -32768 <= z < 32768 -> cast_int z = z.
Proof.
  intros H. unfold cast_int, wrap. change (2 ^ (16 - 1)) with 32768.
  change (2 ^ 16) with 65536. rewrite Z.mod_small; lia.
Qed.

Lemma cast_int_high (z : Z) : 32768 <= z < 65536 -> cast_int z = z - 65536.
Proof.
  intros H. unfold cast_int, wrap. change (2 ^ (16 - 1)) with 32768.
  change (2 ^ 16) with 65536.
  replace (z + 32768) with (z - 32768 + 1 * 65536) by lia.
  rewrite Z.mod_add by lia. rewrite Z.mod_small; lia.
Qed.

Lemma cast_long_id (z : Z) : -2147483648 <= z < 2147483648 -> cast_long z = z.
Proof.
  intros H. unfold cast_long, wrap. change (2 ^ (32 - 1)) with 2147483648.
  change (2 ^ 32) with 4294967296. rewrite Z.mod_small; lia.
Qed.

Lemma byte_val_range (b : byte) : 0 <= byte_val b < 256.
Proof.
  unfold byte_val. pose proof (Byte.to_N_bounded b). lia.
Qed.

Lemma byte_val_byte_of_Z (z : Z) : 0 <= z < 256 -> byte_val (byte_of_Z z) = z.
Proof.
  intros H. unfold byte_val, byte_of_Z.
  destruct (Byte.of_N (Z.to_N z)) as [b|] eqn:E.
  - apply Byte.to_of_N in E. rewrite E. lia.
  - apply Byte.of_N_None_iff in E. lia.
Qed.

Lemma land_0x7F (z : Z) : Z.land z 0x7F = z mod 128.
Proof. change 0x7F with (Z.ones 7). now rewrite Z.land_ones by lia. Qed.

Lemma land_0x80_byte (b : byte) :
  Z.land (byte_val b) 0x80 = if byte_val b <? 128 then 0 else 0x80.
Proof. destruct b; reflexivity. Qed.

Lemma continuation_iff (b : byte) : continuation b <-> 128 <= byte_val b.
Proof.
  unfold continuation. rewrite land_0x80_byte.
  destruct (byte_val b <? 128) eqn:E; [apply Z.ltb_lt in E | apply Z.ltb_ge in E];
    split; intros; try lia; discriminate.
Qed.

(** Seven fresh low bits: or-ing a group in is adding it. *)
Lemma shift7_lor (r g : Z) :
  Z.lor (Z.shiftl r 7) (Z.land g 0x7F) = r * 128 + g mod 128.
Proof.
  rewrite <- Z.lxor_lor, <- Z.add_nocarry_lxor.
  - rewrite Z.shiftl_mul_pow2 by lia. now rewrite land_0x7F.
  - rewrite (Z.land_comm g), Z.land_assoc. change 0x7F with (Z.ones 7).
    rewrite Z.land_ones by lia. rewrite Z.shiftl_mul_pow2 by lia.
    rewrite Z.mod_mul by lia. apply Z.land_0_l.
  - rewrite (Z.land_comm g), Z.land_assoc. change 0x7F with (Z.ones 7).
    rewrite Z.land_ones by lia. rewrite Z.shiftl_mul_pow2 by lia.
    rewrite Z.mod_mul by lia. apply Z.land_0_l.
Qed.

Lemma lor_0x80 (g : Z) : Z.lor 0x80 (Z.land g 0x7F) = 128 + g mod 128.
Proof.
  change 0x80 with (Z.shiftl 1 7) at 1. rewrite shift7_lor. ring.
Qed.

(** ** The object after reads *)

Lemma advance_0 (s : MidiFileStream) : advance 0 s = s.
Proof.
  destruct s. unfold advance, set_pStream, set_bytesLeft. simpl.
  f_equal. lia.
Qed.

Lemma advance_advance (n m : nat) (s : MidiFileStream) :
  advance m (advance n s) = advance (n + m) s.
Proof.
  destruct s. unfold advance, set_pStream, set_bytesLeft. simpl.
  f_equal.
  - rewrite skipn_skipn. f_equal. lia.
  - lia.
Qed.

Lemma advance_pStream (n : nat) (s : MidiFileStream) :
  _pStream (advance n s) = skipn n (_pStream s).
Proof. reflexivity. Qed.

Lemma advance_bytesLeft (n : nat) (s : MidiFileStream) :
  _bytesLeft (advance n s) = _bytesLeft s - Z.of_nat n.
Proof. reflexivity. Qed.

(** ** readChunkByte *)

Lemma readChunkByte_exhausted (s : MidiFileStream) :
  _bytesLeft s <= 0 -> readChunkByte s = (-1, s).
Proof.
  intros H. unfold readChunkByte.
  destruct (_bytesLeft s <=? 0) eqn:E; [reflexivity | apply Z.leb_gt in E; lia].
Qed.

Lemma readChunkByte_cons (s : MidiFileStream) (b : byte) (rest : list byte) :
  0 < _bytesLeft s -> _pStream s = b :: rest ->
  readChunkByte s = (byte_val b, advance 1 s).
Proof.
  intros H E. unfold readChunkByte.
  destruct (_bytesLeft s <=? 0) eqn:L; [apply Z.leb_le in L; lia |].
  unfold stream_read, advance. simpl. rewrite E. reflexivity.
Qed.

Lemma readChunkByte_nil (s : MidiFileStream) :
  0 < _bytesLeft s -> _pStream s = [] ->
  readChunkByte s = (-1, set_bytesLeft (_bytesLeft s - 1) s).
Proof.
  intros H E. unfold readChunkByte.
  destruct (_bytesLeft s <=? 0) eqn:L; [apply Z.leb_le in L; lia |].
  unfold stream_read. simpl. rewrite E. reflexivity.
Qed.

(** The three ways a read can go. *)
Lemma readChunkByte_cases (s : MidiFileStream) :
  (_bytesLeft s <= 0 /\ readChunkByte s = (-1, s))
  \/ (0 < _bytesLeft s /\ _pStream s = []
      /\ readChunkByte s = (-1, set_bytesLeft (_bytesLeft s - 1) s))
  \/ (exists b rest, 0 < _bytesLeft s /\ _pStream s = b :: rest
      /\ readChunkByte s = (byte_val b, advance 1 s)).
Proof.
  destruct (Z_le_gt_dec (_bytesLeft s) 0) as [H|H].
  - left. split; [exact H | now apply readChunkByte_exhausted].
  - right. destruct (_pStream s) as [|b rest] eqn:E.
    + left. repeat split; [lia | apply readChunkByte_nil; [lia | exact E]].
    + right. exists b, rest.
      repeat split; [lia | apply (readChunkByte_cons s b rest); [lia | exact E]].
Qed.

Lemma readChunkByte_range (s : MidiFileStream) :
  fst (readChunkByte s) = -1 \/ 0 <= fst (readChunkByte s) < 256.
Proof.
  destruct (readChunkByte_cases s) as [[_ E]|[(_ & _ & E)|(b & rest & _ & _ & E)]];
    rewrite E; simpl; [now left | now left | right; apply byte_val_range].
Qed.

(** ** readVariableLong *)

(** The loop leaves by itself: with [numBytes] counted so far, any fuel
    above [5 - numBytes] yields a result. *)
Lemma readVariableLong_loop_total (fuel : nat) :
  forall numBytes result s,
    (0 < fuel)%nat ->
    5 - numBytes < Z.of_nat fuel ->
    readVariableLong_loop fuel numBytes result s <> None.
Proof.
  induction fuel as [|fuel IH]; intros numBytes result s H0 Hf; [lia |].
  simpl. destruct (numBytes >? 4) eqn:E4; [discriminate |].
  zb E4.
  destruct (readChunkByte s) as [bint s1].
  destruct (bint <? 0); [discriminate |].
  destruct (Z.land bint 128 =? 128); [| discriminate].
  apply IH; lia.
Qed.

Lemma readVariableLong_loop_more (fuel : nat) :
  forall numBytes result s r,
    readVariableLong_loop fuel numBytes result s = Some r ->
    readVariableLong_loop (S fuel) numBytes result s = Some r.
Proof.
  induction fuel as [|fuel IH]; intros numBytes result s r H; [discriminate |].
  remember (S fuel) as f eqn:Ef. simpl. subst f. simpl in H.
  destruct (numBytes >? 4); [exact H |].
  destruct (readChunkByte s) as [bint s1].
  destruct (bint <? 0); [exact H |].
  destruct (Z.land bint 128 =? 128); [| exact H].
  apply IH. exact H.
Qed.

(** Six rounds are all [readVariableLong] ever needs: the model's fuel is
    never the reason for its answer. *)
Lemma readVariableLong_loop_fuel (k : nat) (s : MidiFileStream) :
  readVariableLong_loop (6 + k) 0 0 s = Some (readVariableLong s).
Proof.
  induction k as [|k IH].
  - change (6 + 0)%nat with 6%nat. unfold readVariableLong.
    destruct (readVariableLong_loop 6 0 0 s) as [r|] eqn:E; [reflexivity |].
    exfalso. revert E. apply readVariableLong_loop_total; simpl; lia.
  - replace (6 + S k)%nat with (S (6 + k)) by lia.
    apply readVariableLong_loop_more. exact IH.
Qed.

Lemma vlq_value_app (acc : Z) (bs cs : list byte) :
  vlq_value acc (bs ++ cs) = vlq_value (vlq_value acc bs) cs.
Proof. unfold vlq_value. apply fold_left_app. Qed.

Lemma vlq_value_ge (bs : list byte) :
  forall acc, 0 <= acc -> acc <= vlq_value acc bs.
Proof.
  induction bs as [|b bs IH]; intros acc H; simpl; [lia |].
  rewrite land_0x7F. pose proof (Z.mod_pos_bound (byte_val b) 128 ltac:(lia)).
  etransitivity; [| apply IH]; lia.
Qed.

(** Decoding a run of continuation bytes closed by a byte with its high
    bit clear, as long as no more than five bytes are read in all and the
    number fits a [long]. *)
Lemma readVariableLong_loop_decode (conts : list byte) :
  forall (last : byte) fuel numBytes result s,
    Forall continuation conts ->
    ~ continuation last ->
    (exists rest, _pStream s = conts ++ last :: rest) ->
    Z.of_nat (length conts) + 1 <= _bytesLeft s ->
    0 <= numBytes ->
    numBytes + Z.of_nat (length conts) <= 4 ->
    (length conts < fuel)%nat ->
    0 <= result ->
    vlq_value result (conts ++ [last]) < 2147483648 ->
    readVariableLong_loop fuel numBytes result s
    = Some (vlq_value result (conts ++ [last]), advance (length conts + 1) s).
Proof.
  induction conts as [|c conts IH];
    intros last fuel numBytes result s Hc Hl [rest Hs] Hb Hn Hn4 Hf Hr Hv.
  - destruct fuel as [|fuel]; [simpl in Hf; lia |].
    cbn [app length Nat.add] in *. cbn [readVariableLong_loop].
    destruct (numBytes >? 4) eqn:E4; [zb E4; lia |].
    rewrite (readChunkByte_cons s last rest) by (try assumption; lia).
    pose proof (byte_val_range last) as Hrg.
    destruct (byte_val last <? 0) eqn:E0; [zb E0; lia |].
    destruct (Z.land (byte_val last) 0x80 =? 0x80) eqn:Ec;
      [zb Ec; contradiction |].
    cbn [vlq_value fold_left] in *. rewrite land_0x7F in Hv.
    pose proof (Z.mod_pos_bound (byte_val last) 128 ltac:(lia)).
    rewrite cast_long_id
      by (rewrite Z.shiftl_mul_pow2 by lia; change (2 ^ 7) with 128; lia).
    rewrite shift7_lor, land_0x7F. reflexivity.
  - destruct fuel as [|fuel]; [simpl in Hf; lia |].
    inversion Hc as [|? ? Hcc Hcs]; subst.
    cbn [app length] in Hs, Hb, Hn4, Hf, Hv |- *.
    cbn [readVariableLong_loop].
    destruct (numBytes >? 4) eqn:E4; [zb E4; lia |].
    rewrite (readChunkByte_cons s c (conts ++ last :: rest)) by (try assumption; lia).
    pose proof (byte_val_range c) as Hrg.
    destruct (byte_val c <? 0) eqn:E0; [zb E0; lia |].
    unfold continuation in Hcc. rewrite Hcc, Z.eqb_refl.
    unfold vlq_value in Hv |- *. cbn [fold_left] in Hv |- *.
    fold (vlq_value (result * 128 + Z.land (byte_val c) 0x7F) (conts ++ [last])) in Hv |- *.
    rewrite land_0x7F in Hv.
    pose proof (Z.mod_pos_bound (byte_val c) 128 ltac:(lia)) as Hm.
    pose proof (vlq_value_ge (conts ++ [last]) (result * 128 + byte_val c mod 128) ltac:(lia)).
    rewrite cast_long_id
      by (rewrite Z.shiftl_mul_pow2 by lia; change (2 ^ 7) with 128; lia).
    rewrite shift7_lor, land_0x7F.
    rewrite (IH last fuel (numBytes + 1) (result * 128 + byte_val c mod 128) (advance 1 s));
      try assumption; try lia.
    + rewrite advance_advance. reflexivity.
    + exists rest. rewrite advance_pStream, Hs. reflexivity.
    + rewrite advance_bytesLeft. lia.
Qed.

Lemma Forall_firstn {A : Type} (P : A -> Prop) (n : nat) :
  forall l : list A, Forall P l -> Forall P (firstn n l).
Proof.
  induction n as [|n IH]; intros l H; [constructor |].
  destruct H as [|a l Ha Hl]; [constructor |].
  simpl. constructor; [exact Ha | now apply IH].
Qed.

(** No end in sight: when every byte the loop is allowed to read (five
    at most, and no more than the chunk has left) has its high bit set,
    the answer is -1. *)
Lemma readVariableLong_loop_unterminated (fuel : nat) :
  forall numBytes result s,
    (0 < fuel)%nat ->
    5 - numBytes < Z.of_nat fuel ->
    Forall continuation
      (firstn (Z.to_nat (Z.min (5 - numBytes) (_bytesLeft s))) (_pStream s)) ->
    exists s', readVariableLong_loop fuel numBytes result s = Some (-1, s').
Proof.
  induction fuel as [|fuel IH]; intros numBytes result s Hn Hf Hc; [lia |].
  cbn [readVariableLong_loop].
  destruct (numBytes >? 4) eqn:E4; [eexists; reflexivity |].
  zb E4.
  destruct (readChunkByte_cases s) as [[_ E]|[(_ & _ & E)|(b & rest & Hb & Hs & E)]];
    rewrite E; try (eexists; reflexivity).
  pose proof (byte_val_range b) as Hrg.
  destruct (byte_val b <? 0) eqn:E0; [zb E0; lia |].
  replace (Z.to_nat (Z.min (5 - numBytes) (_bytesLeft s)))
    with (S (Z.to_nat (Z.min (5 - (numBytes + 1)) (_bytesLeft s - 1)))) in Hc by lia.
  rewrite Hs in Hc. simpl in Hc. inversion Hc as [|? ? Hcb Hcr]; subst.
  unfold continuation in Hcb. rewrite Hcb, Z.eqb_refl.
  apply IH; try lia. rewrite advance_pStream, advance_bytesLeft, Hs. exact Hcr.
Qed.

Lemma readVariableLong_unterminated (s : MidiFileStream) :
  Forall continuation (firstn (Z.to_nat (Z.min 5 (_bytesLeft s))) (_pStream s)) ->
  fst (readVariableLong s) = -1.
Proof.
  intros Hc. pose proof (readVariableLong_loop_fuel 0 s) as Hfuel.
  change (6 + 0)%nat with 6%nat in Hfuel.
  destruct (readVariableLong_loop_unterminated 6 0 0 s) as [s' E]; try lia.
  - exact Hc.
  - rewrite E in Hfuel. inversion Hfuel as [E']. reflexivity.
Qed.

Lemma readVariableLong_exhausted (s : MidiFileStream) :
  _bytesLeft s <= 0 -> readVariableLong s = (-1, s).
Proof.
  intros H. unfold readVariableLong. cbn [readVariableLong_loop].
  change (0 >? 4) with false. cbv iota.
  now rewrite readChunkByte_exhausted.
Qed.

(** Decoding a well-formed quantity of up to five bytes. *)
Lemma readVariableLong_decode (conts : list byte) (last : byte) (s : MidiFileStream) :
  Forall continuation conts ->
  ~ continuation last ->
  (exists rest, _pStream s = conts ++ last :: rest) ->
  Z.of_nat (length conts) + 1 <= _bytesLeft s ->
  (length conts <= 4)%nat ->
  vlq_value 0 (conts ++ [last]) < 2147483648 ->
  readVariableLong s
  = (vlq_value 0 (conts ++ [last]), advance (length conts + 1) s).
Proof.
  intros Hc Hl Hs Hb Hlen Hv.
  pose proof (readVariableLong_loop_fuel 0 s) as Hfuel.
  change (6 + 0)%nat with 6%nat in Hfuel.
  rewrite (readVariableLong_loop_decode conts last 6 0 0 s) in Hfuel;
    try assumption; try lia.
  now inversion Hfuel.
Qed.

(** ** The encoder of the specification *)

Lemma vlq_groups_spec (fuel : nat) :
  forall y acc,
    0 <= y < 128 ^ Z.of_nat fuel ->
    exists conts,
      vlq_groups fuel y acc = conts ++ acc
      /\ Forall continuation conts
      /\ (length conts <= fuel)%nat
      /\ forall r, vlq_value r conts = r * 128 ^ Z.of_nat (length conts) + y.
Proof.
  induction fuel as [|fuel IH]; intros y acc Hy.
  - exists []. simpl in *. repeat split; auto. intros r. lia.
  - cbn [vlq_groups]. destruct (y =? 0) eqn:E0.
    + apply Z.eqb_eq in E0. subst y. exists []. simpl. repeat split; auto; try lia.
    + apply Z.eqb_neq in E0.
      rewrite Nat2Z.inj_succ, Z.pow_succ_r in Hy by lia.
      destruct (IH (Z.shiftr y 7) (byte_of_Z (Z.lor 0x80 (Z.land y 0x7F)) :: acc))
        as (conts & Eg & Hc & Hlen & Hval).
      { rewrite Z.shiftr_div_pow2 by lia. change (2 ^ 7) with 128.
        split; [apply Z.div_pos; lia | apply Z.div_lt_upper_bound; lia]. }
      exists (conts ++ [byte_of_Z (Z.lor 0x80 (Z.land y 0x7F))]).
      pose proof (Z.mod_pos_bound y 128 ltac:(lia)) as Hm.
      assert (Hbv : byte_val (byte_of_Z (Z.lor 0x80 (Z.land y 0x7F))) = 128 + y mod 128).
      { rewrite lor_0x80. apply byte_val_byte_of_Z. lia. }
      repeat split.
      * rewrite Eg, <- app_assoc. reflexivity.
      * apply Forall_app. split; [exact Hc |].
        constructor; [| constructor]. apply continuation_iff. lia.
      * rewrite length_app. simpl. lia.
      * intros r. rewrite vlq_value_app, Hval. cbn [vlq_value fold_left].
        rewrite Hbv, land_0x7F, length_app. simpl length.
        rewrite Nat2Z.inj_add. change (Z.of_nat 1) with 1.
        rewrite Z.pow_add_r by lia. change (128 ^ 1) with 128.
        rewrite Z.shiftr_div_pow2 by lia. change (2 ^ 7) with 128.
        replace ((128 + y mod 128) mod 128) with (y mod 128)
          by (rewrite <- Zplus_mod_idemp_l; rewrite Z.mod_same by lia;
              rewrite Z.add_0_l; now rewrite Z.mod_mod by lia).
        pose proof (Z.div_mod y 128 ltac:(lia)). lia.
Qed.

(** The encoding of a number below 2^28: at most three continuation
    bytes, then a byte with the high bit clear, standing for that
    number. *)
Lemma vlq_encode_spec (x : Z) :
  0 <= x < 2 ^ 28 ->
  exists conts last,
    vlq_encode x = conts ++ [last]
    /\ Forall continuation conts
    /\ ~ continuation last
    /\ (length conts <= 3)%nat
    /\ vlq_value 0 (conts ++ [last]) = x.
Proof.
  intros Hx. unfold vlq_encode.
  destruct (vlq_groups_spec 3 (Z.shiftr x 7) [byte_of_Z (Z.land x 0x7F)])
    as (conts & Eg & Hc & Hlen & Hval).
  { rewrite Z.shiftr_div_pow2 by lia. change (2 ^ 7) with 128.
    change (128 ^ Z.of_nat 3) with 2097152. change (2 ^ 28) with 268435456 in Hx.
    split; [apply Z.div_pos; lia | apply Z.div_lt_upper_bound; lia]. }
  pose proof (Z.mod_pos_bound x 128 ltac:(lia)) as Hm.
  assert (Hbv : byte_val (byte_of_Z (Z.land x 0x7F)) = x mod 128).
  { rewrite land_0x7F. apply byte_val_byte_of_Z. lia. }
  exists conts, (byte_of_Z (Z.land x 0x7F)). repeat split; try assumption.
  - rewrite continuation_iff. lia.
  - rewrite vlq_value_app, Hval. cbn [vlq_value fold_left].
    rewrite Hbv, land_0x7F, Z.mod_mod by lia.
    rewrite Z.shiftr_div_pow2 by lia. change (2 ^ 7) with 128.
    pose proof (Z.div_mod x 128 ltac:(lia)). lia.
Qed.

(** What the decoder keeps of §4.1: it decodes the encoding of every
    integer in [0, 2^28 - 1] back to that integer (consuming exactly the
    bytes of the encoding), and answers the error -1 when five bytes in
    a row carry the continuation bit.  A fifth byte that closes the
    quantity is another matter, see below. *)
Theorem readVariableLong_round_trip :
  (forall (x : Z) (s : MidiFileStream) (rest : list byte),
      0 <= x <= 2 ^ 28 - 1 ->
      _pStream s = vlq_encode x ++ rest ->
      Z.of_nat (length (vlq_encode x)) <= _bytesLeft s ->
      readVariableLong s = (x, advance (length (vlq_encode x)) s))
  /\ (forall (s : MidiFileStream) (conts rest : list byte),
      _pStream s = conts ++ rest ->
      length conts = 5%nat ->
      Forall continuation conts ->
      fst (readVariableLong s) = -1).
Proof.
  split.
  - intros x s rest Hx Hs Hb.
    destruct (vlq_encode_spec x ltac:(lia)) as (conts & last & Ee & Hc & Hl & Hlen & Hv).
    rewrite Ee in Hs, Hb |- *. rewrite length_app in Hb |- *. simpl length in Hb |- *.
    rewrite (readVariableLong_decode conts last s); try assumption; try lia.
    + now rewrite Hv.
    + exists rest. rewrite Hs, <- app_assoc. reflexivity.
  - intros s conts rest Hs Hlen Hc.
    apply readVariableLong_unterminated.
    rewrite Hs, firstn_app.
    replace (Z.to_nat (Z.min 5 (_bytesLeft s)) - length conts)%nat with 0%nat by lia.
    rewrite firstn_O, app_nil_r. now apply Forall_firstn.
Qed.

Lemma readVariableLong_round_trip_witness :
  readVariableLong (in_chunk [x81; x48; x2a] 3)
  = (200, advance 2 (in_chunk [x81; x48; x2a] 3))
  /\ fst (readVariableLong (in_chunk [x81; x80; x80; x80; x80; x00] 6)) = -1.
Proof.
  destruct readVariableLong_round_trip as [Hdec Hrej].
  split.
  - apply (Hdec 200 (in_chunk [x81; x48; x2a] 3) [x2a]).
    + lia.
    + reflexivity.
    + simpl. lia.
  - apply (Hrej (in_chunk [x81; x80; x80; x80; x80; x00] 6)
             [x81; x80; x80; x80; x80] [x00]).
    + reflexivity.
    + reflexivity.
    + repeat constructor.
Defined.

(** C1. A quantity of five bytes is not refused when its fifth byte
    closes it.  The loop tests [numBytes > 4] before it reads, so the
    fifth byte is read and shifted in before the limit is looked at
    ("not terminated after 4 bytes", says the message of that test):
    81 80 80 80 00 is decoded as 2^28, with all five bytes taken, where
    28 bits and more were to be an error; and the 35 bits of
    88 80 80 80 00 and of 90 80 80 80 07 (which stands for 2^32 + 7) are
    cut to the 32 of a [long], giving -2^31 and 7.  Only a fifth byte
    that has the continuation bit set as well is answered with -1. *)
Theorem readVariableLong_fifth_byte_accepted :
  readVariableLong (in_chunk [x81; x80; x80; x80; x00] 5) = (2 ^ 28, in_chunk [] 0)
  /\ fst (readVariableLong (in_chunk [x81; x80; x80; x80; x00] 5)) <> -1
  /\ vlq_value 0 [x81; x80; x80; x80; x00] = 2 ^ 28
  /\ fst (readVariableLong (in_chunk [x88; x80; x80; x80; x00] 5)) = - 2 ^ 31
  /\ vlq_value 0 [x90; x80; x80; x80; x07] = 2 ^ 32 + 7
  /\ readVariableLong (in_chunk [x90; x80; x80; x80; x07] 5) = (7, in_chunk [] 0)
  /\ fst (readVariableLong (in_chunk [x81; x80; x80; x80; x80] 5)) = -1.
Proof. repeat split; try (vm_compute; reflexivity). vm_compute. discriminate. Qed.

(** ** Fields the chunk readers leave alone *)

Lemma frame_id : frame (fun s => s).
Proof. now split. Qed.

Lemma frame_compose (u v : MidiFileStream -> MidiFileStream) :
  frame u -> frame v -> frame (fun s => u (v s)).
Proof.
  intros [u1 u2 u3 u4] [v1 v2 v3 v4]. split; intros.
  - now rewrite u1, v1.
  - now rewrite u2, v2.
  - now rewrite v3, u3.
  - now rewrite v4, u4.
Qed.

Lemma frame_set_eventType (e : Z) : frame (set_eventType e).
Proof. now split. Qed.

Lemma frame_set_eventDeltaTicks (d : Z) : frame (set_eventDeltaTicks d).
Proof. now split. Qed.

Lemma frame_set_runningStatus (r : Z) : frame (set_runningStatus r).
Proof. now split. Qed.

Lemma frame_set_eventData (d : eventData) : frame (set_eventData d).
Proof. now split. Qed.

Create HintDb frames.
#[local] Hint Resolve frame_id frame_compose frame_set_eventType
  frame_set_eventDeltaTicks frame_set_runningStatus frame_set_eventData : frames.

Section Frames.
Variable u : MidiFileStream -> MidiFileStream.
Hypothesis Hu : frame u.

Lemma readChunkByte_frame (s : MidiFileStream) :
  readChunkByte (u s) = (fst (readChunkByte s), u (snd (readChunkByte s))).
Proof.
  unfold readChunkByte. rewrite (frame_bytesLeft u Hu).
  destruct (_bytesLeft s <=? 0); [reflexivity |].
  unfold stream_read.
  rewrite <- (frame_set_bytesLeft u Hu), (frame_pStream u Hu).
  cbn [_pStream set_bytesLeft].
  destruct (_pStream s) as [|b rest]; [reflexivity |].
  cbn [fst snd]. now rewrite (frame_set_pStream u Hu).
Qed.

Lemma readFixedLong_loop_frame (n : nat) :
  forall result s,
    readFixedLong_loop n result (u s)
    = (fst (readFixedLong_loop n result s), u (snd (readFixedLong_loop n result s))).
Proof.
  induction n as [|n IH]; intros result s; [reflexivity |].
  cbn [readFixedLong_loop]. rewrite readChunkByte_frame.
  destruct (readChunkByte s) as [bint s1]. cbn [fst snd].
  destruct (bint <? 0); [reflexivity | apply IH].
Qed.

Lemma readFixedLong_frame (numBytes : Z) (s : MidiFileStream) :
  readFixedLong numBytes (u s)
  = (fst (readFixedLong numBytes s), u (snd (readFixedLong numBytes s))).
Proof. apply readFixedLong_loop_frame. Qed.

Lemma readVariableLong_loop_frame (fuel : nat) :
  forall numBytes result s,
    readVariableLong_loop fuel numBytes result (u s)
    = match readVariableLong_loop fuel numBytes result s with
      | Some (r, s') => Some (r, u s')
      | None => None
      end.
Proof.
  induction fuel as [|fuel IH]; intros numBytes result s; [reflexivity |].
  cbn [readVariableLong_loop]. destruct (numBytes >? 4); [reflexivity |].
  rewrite readChunkByte_frame.
  destruct (readChunkByte s) as [bint s1]. cbn [fst snd].
  destruct (bint <? 0); [reflexivity |].
  destruct (Z.land bint 128 =? 128); [apply IH | reflexivity].
Qed.

Lemma readVariableLong_frame (s : MidiFileStream) :
  readVariableLong (u s)
  = (fst (readVariableLong s), u (snd (readVariableLong s))).
Proof.
  pose proof (readVariableLong_loop_fuel 0 s) as E.
  pose proof (readVariableLong_loop_fuel 0 (u s)) as E'.
  rewrite readVariableLong_loop_frame, E in E'.
  destruct (readVariableLong s) as [r s']. now inversion E'.
Qed.

Lemma skipChunkBytes_frame (n : nat) :
  forall s,
    skipChunkBytes n (u s)
    = (fst (skipChunkBytes n s), u (snd (skipChunkBytes n s))).
Proof.
  induction n as [|n IH]; intros s; [reflexivity |].
  cbn [skipChunkBytes]. rewrite readChunkByte_frame.
  destruct (readChunkByte s) as [bint s1]. cbn [fst snd].
  destruct (bint <? 0); [reflexivity | apply IH].
Qed.
End Frames.

(** ** readEvent: the delta time *)

Ltac proj :=
  cbn [fst snd _pStream _bytesLeft _format _numTracks _ticksPerBeat
       _runningStatus _eventType _eventDeltaTicks _eventData
       set_pStream set_bytesLeft set_format set_numTracks set_ticksPerBeat
       set_runningStatus set_eventType set_eventDeltaTicks set_eventData
       advance] in *.

(** What [readEvent] does once the delta time is known. *)
Lemma readEvent_delta (s : MidiFileStream) :
  readEvent s
  = (let s1 := set_eventDeltaTicks (fst (readVariableLong s))
                 (set_eventType ET_UNK (snd (readVariableLong s))) in
     if fst (readVariableLong s) <? 0 then Some (ET_END, set_eventType ET_END s1)
     else
       let '(bint, s) := readChunkByte s1 in
       if bint <? 0 then fail s
       else if (bint =? 0xF0) || (bint =? 0xF7) then
         let s := set_runningStatus 0 s in
         let '(length, s) := readVariableLong s in
         if length <? 0 then fail s
         else if bint =? 0xF0 then readEvent_bytes ET_SYSEX_F0 length s
         else if bint =? 0xF7 then readEvent_bytes ET_SYSEX_ESC length s
         else ret s
       else if bint =? 0xFF then
         let s := set_runningStatus 0 s in
         let '(metaType, s) := readChunkByte s in
         if metaType <? 0 then fail s
         else
           let '(length, s) := readVariableLong s in
           if length <? 0 then fail s
           else readEvent_meta metaType length s
       else readEvent_channel bint s).
Proof.
  unfold readEvent.
  rewrite (readVariableLong_frame _ (frame_set_eventType ET_UNK)).
  destruct (readVariableLong s) as [dt s1]. reflexivity.
Qed.

Lemma readEvent_delta_failure (s : MidiFileStream) :
  fst (readVariableLong s) < 0 ->
  option_map fst (readEvent s) = Some ET_END.
Proof.
  intros H. rewrite readEvent_delta. cbv zeta.
  destruct (fst (readVariableLong s) <? 0) eqn:E; [reflexivity | zb E; lia].
Qed.

(** C4. Every failure of the delta-time read at the head of [readEvent]
    is reported as [ET_END]: a negative answer of [readVariableLong] in
    general; in particular a chunk with no bytes left, a quantity cut
    short by the end of the chunk or of the stream, a quantity that runs
    to five continuation bytes, and a five-byte quantity that wraps to a
    negative [long].  No other outcome tells these apart. *)
Theorem readEvent_delta_failure_is_ET_END :
  (forall s : MidiFileStream,
      fst (readVariableLong s) < 0 ->
      option_map fst (readEvent s) = Some ET_END)
  /\ (forall s : MidiFileStream,
      _bytesLeft s <= 0 ->
      option_map fst (readEvent s) = Some ET_END)
  /\ (forall (s : MidiFileStream) (conts rest : list byte),
      _pStream s = conts ++ rest ->
      Forall continuation conts ->
      rest = [] \/ _bytesLeft s <= Z.of_nat (length conts) \/ (5 <= length conts)%nat ->
      option_map fst (readEvent s) = Some ET_END)
  /\ (fst (readVariableLong (in_chunk [x88; x80; x80; x80; x00; x90; x40; x7f] 8))
      = - 2 ^ 31
      /\ option_map fst (readEvent (in_chunk [x88; x80; x80; x80; x00; x90; x40; x7f] 8))
         = Some ET_END).
Proof.
  split; [exact readEvent_delta_failure |].
  split; [| split].
  - intros s H. apply readEvent_delta_failure.
    rewrite readVariableLong_exhausted by exact H. simpl. lia.
  - intros s conts rest Hs Hc Hcase. apply readEvent_delta_failure.
    rewrite readVariableLong_unterminated; [lia |].
    rewrite Hs, firstn_app. apply Forall_app. split.
    + now apply Forall_firstn.
    + destruct Hcase as [-> | [Hb | Hlen]].
      * rewrite firstn_nil. constructor.
      * replace (Z.to_nat (Z.min 5 (_bytesLeft s)) - length conts)%nat with 0%nat by lia.
        constructor.
      * replace (Z.to_nat (Z.min 5 (_bytesLeft s)) - length conts)%nat with 0%nat by lia.
        constructor.
  - split; vm_compute; reflexivity.
Qed.

Lemma readEvent_delta_failure_is_ET_END_witness :
  option_map fst (readEvent (in_chunk [x81; x80; x80; x80; x80; x00] 6)) = Some ET_END
  /\ option_map fst (readEvent (in_chunk [x00; x90; x40; x7f] 0)) = Some ET_END
  /\ option_map fst (readEvent (in_chunk [x81; x80; x00] 2)) = Some ET_END.
Proof.
  destruct readEvent_delta_failure_is_ET_END as (Hneg & Hzero & Hcut & _).
  split; [| split].
  - apply Hneg. vm_compute. reflexivity.
  - apply Hzero. simpl. lia.
  - apply (Hcut _ [x81; x80] [x00]).
    + reflexivity.
    + repeat constructor.
    + right. left. simpl. lia.
Defined.

(** ** readEvent: meta events *)

(** The road to the [switch] on the meta type: delta time, the byte
    0xFF, the meta type and the declared length, each read where the
    previous read stopped. *)
Lemma readEvent_meta_event (s s1 s2 s3 s4 : MidiFileStream) (dt metaType length : Z) :
  readVariableLong s = (dt, s1) -> 0 <= dt ->
  readChunkByte s1 = (0xFF, s2) ->
  readChunkByte s2 = (metaType, s3) -> 0 <= metaType ->
  readVariableLong s3 = (length, s4) -> 0 <= length ->
  readEvent s
  = readEvent_meta metaType length
      (set_runningStatus 0 (set_eventDeltaTicks dt (set_eventType ET_UNK s4))).
Proof.
  intros E1 Hdt E2 E3 Hmt E4 Hlen.
  rewrite readEvent_delta, E1. cbv zeta. cbn [fst snd].
  destruct (dt <? 0) eqn:E; [zb E; lia | clear E].
  rewrite (readChunkByte_frame (fun x => set_eventDeltaTicks dt (set_eventType ET_UNK x)))
    by auto with frames.
  rewrite E2. cbn [fst snd]. change (255 <? 0) with false.
  change ((255 =? 240) || (255 =? 247)) with false. change (255 =? 255) with true.
  cbv iota.
  rewrite (readChunkByte_frame
             (fun x => set_runningStatus 0 (set_eventDeltaTicks dt (set_eventType ET_UNK x))))
    by auto with frames.
  rewrite E3. cbn [fst snd].
  destruct (metaType <? 0) eqn:E; [zb E; lia | clear E].
  rewrite (readVariableLong_frame
             (fun x => set_runningStatus 0 (set_eventDeltaTicks dt (set_eventType ET_UNK x))))
    by auto with frames.
  rewrite E4. cbn [fst snd].
  destruct (length <? 0) eqn:E; [zb E; lia | reflexivity].
Qed.

Lemma readEvent_meta_end_track (length : Z) (s : MidiFileStream) :
  readEvent_meta 0x2F length s
  = (let s := set_eventType ET_END_TRACK s in
     if negb (length =? 0) then fail s else ret s).
Proof. reflexivity. Qed.

Lemma readEvent_exhausted (s : MidiFileStream) :
  _bytesLeft s <= 0 -> option_map fst (readEvent s) = Some ET_END.
Proof.
  intros H. apply readEvent_delta_failure.
  rewrite readVariableLong_exhausted by exact H. simpl. lia.
Qed.

(** C3. [readEvent] on a chunk with no bytes left answers [ET_END].  That
    is not the answer to a meta End-of-Track event: the bytes FF 2F 00
    after a delta time are returned as an event of its own kind,
    [ET_END_TRACK]; and when they were the last bytes of the chunk, the
    call after that one answers [ET_END]. *)
Theorem readEvent_end_of_track :
  (forall s : MidiFileStream,
      _bytesLeft s <= 0 -> option_map fst (readEvent s) = Some ET_END)
  /\ ET_END <> ET_END_TRACK
  /\ (forall (s s1 : MidiFileStream) (dt : Z) (rest : list byte),
      readVariableLong s = (dt, s1) -> 0 <= dt ->
      _pStream s1 = xff :: x2f :: x00 :: rest ->
      3 <= _bytesLeft s1 ->
      exists s',
        readEvent s = Some (ET_END_TRACK, s')
        /\ getEventType s' = ET_END_TRACK
        /\ getEventDeltaTicks s' = dt
        /\ _pStream s' = rest
        /\ _bytesLeft s' = _bytesLeft s1 - 3
        /\ (_bytesLeft s1 = 3 -> option_map fst (readEvent s') = Some ET_END)).
Proof.
  split; [exact readEvent_exhausted |].
  split; [discriminate |].
  intros s s1 dt rest E1 Hdt Hs Hb.
  assert (E2 : readChunkByte s1 = (0xFF, advance 1 s1)).
  { apply (readChunkByte_cons s1 xff (x2f :: x00 :: rest)); [lia | exact Hs]. }
  assert (E3 : readChunkByte (advance 1 s1) = (0x2F, advance 2 s1)).
  { rewrite (readChunkByte_cons (advance 1 s1) x2f (x00 :: rest)).
    - now rewrite advance_advance.
    - rewrite advance_bytesLeft. lia.
    - rewrite advance_pStream, Hs. reflexivity. }
  assert (E4 : readVariableLong (advance 2 s1) = (0, advance 3 s1)).
  { rewrite (readVariableLong_decode [] x00 (advance 2 s1)).
    - now rewrite advance_advance.
    - constructor.
    - unfold continuation. discriminate.
    - exists rest. rewrite advance_pStream, Hs. reflexivity.
    - rewrite advance_bytesLeft. simpl. lia.
    - simpl. lia.
    - vm_compute. reflexivity. }
  rewrite (readEvent_meta_event s s1 _ _ _ dt 0x2F 0 E1 Hdt E2 E3 ltac:(lia) E4 ltac:(lia)).
  rewrite readEvent_meta_end_track. cbv zeta. change (negb (0 =? 0)) with false.
  cbv iota. unfold ret. eexists. split; [reflexivity |].
  unfold getEventType, getEventDeltaTicks. proj. rewrite Hs.
  repeat split; try lia.
  intros Hb3. apply readEvent_exhausted. proj. lia.
Qed.

Lemma readEvent_end_of_track_witness :
  option_map fst (readEvent (in_chunk [] 0)) = Some ET_END
  /\ exists s',
       readEvent (in_chunk [x00; xff; x2f; x00] 4) = Some (ET_END_TRACK, s')
       /\ getEventType s' = ET_END_TRACK
       /\ getEventDeltaTicks s' = 0
       /\ _pStream s' = []
       /\ _bytesLeft s' = 3 - 3
       /\ (3 = 3 -> option_map fst (readEvent s') = Some ET_END).
Proof.
  destruct readEvent_end_of_track as (Hzero & _ & Hmeta).
  split.
  - apply Hzero. simpl. lia.
  - apply (Hmeta (in_chunk [x00; xff; x2f; x00] 4)
             (advance 1 (in_chunk [x00; xff; x2f; x00] 4)) 0 []).
    + reflexivity.
    + lia.
    + reflexivity.
    + simpl. lia.
Defined.

(** ** Fields the chunk readers change *)

Lemma only_read_refl (s : MidiFileStream) : only_read s s.
Proof. destruct s. reflexivity. Qed.

Lemma only_read_trans (s s' s'' : MidiFileStream) :
  only_read s s' -> only_read s' s'' -> only_read s s''.
Proof.
  unfold only_read. intros H1 H2. rewrite H2 at 1. rewrite H1 at 1. reflexivity.
Qed.

Lemma only_read_fields (s s' : MidiFileStream) :
  only_read s s' ->
  _runningStatus s' = _runningStatus s /\ _eventData s' = _eventData s
  /\ _eventType s' = _eventType s /\ _eventDeltaTicks s' = _eventDeltaTicks s
  /\ _format s' = _format s /\ _numTracks s' = _numTracks s
  /\ _ticksPerBeat s' = _ticksPerBeat s.
Proof. intros H. rewrite H. repeat split. Qed.

Lemma readChunkByte_only_read (s : MidiFileStream) :
  only_read s (snd (readChunkByte s)).
Proof.
  destruct (readChunkByte_cases s) as [[_ E]|[(_ & _ & E)|(b & rest & _ & _ & E)]];
    rewrite E; destruct s; reflexivity.
Qed.

Lemma readVariableLong_loop_only_read (fuel : nat) :
  forall numBytes result s r s',
    readVariableLong_loop fuel numBytes result s = Some (r, s') ->
    only_read s s'.
Proof.
  induction fuel as [|fuel IH]; intros numBytes result s r s' H; [discriminate |].
  cbn [readVariableLong_loop] in H.
  destruct (numBytes >? 4); [inversion H; apply only_read_refl |].
  pose proof (readChunkByte_only_read s) as Hd.
  destruct (readChunkByte s) as [bint s1]. cbn [snd] in Hd.
  destruct (bint <? 0); [inversion H; now subst |].
  destruct (Z.land bint 128 =? 128).
  - apply IH in H. eapply only_read_trans; eassumption.
  - inversion H. now subst.
Qed.

Lemma readVariableLong_only_read (s : MidiFileStream) :
  only_read s (snd (readVariableLong s)).
Proof.
  pose proof (readVariableLong_loop_fuel 0 s) as E.
  destruct (readVariableLong s) as [r s'].
  now apply readVariableLong_loop_only_read in E.
Qed.

(** Evaluate the tests of the [switch] on a known meta type. *)
Ltac switch_on_meta_type :=
  unfold readEvent_meta; cbv zeta;
  repeat match goal with
         | |- context [cast_char ?k =? ?j] =>
             let b := eval vm_compute in (cast_char k =? j) in
             change (cast_char k =? j) with b
         end;
  cbv iota.

Lemma fixed_meta_length_nonneg (metaType n : Z) :
  fixed_meta_length metaType = Some n -> 0 <= metaType.
Proof.
  unfold fixed_meta_length. intros Hn.
  repeat match type of Hn with
         | (if ?m =? ?k then _ else _) = _ =>
             let E := fresh "E" in
             destruct (m =? k) eqn:E; [zb E; lia | clear E]
         end.
  discriminate.
Qed.

Lemma readEvent_meta_wrong_length (metaType n length : Z) (s : MidiFileStream) :
  fixed_meta_length metaType = Some n ->
  length <> n ->
  readEvent_meta metaType length s = Some (ET_UNK, set_eventType ET_UNK s).
Proof.
  unfold fixed_meta_length. intros Hn Hlen.
  repeat match type of Hn with
         | (if ?m =? ?k then _ else _) = _ =>
             let E := fresh "E" in
             destruct (m =? k) eqn:E;
               [zb E; subst m; injection Hn as <-; switch_on_meta_type;
                destruct (length =? _) eqn:El; [zb El; contradiction | reflexivity]
               | clear E]
         end.
  discriminate.
Qed.

(** C9. A fixed-shape meta event (sequence number, channel prefix, end
    of track, tempo, SMPTE offset, time signature, key signature) whose
    declared length differs from the size of its shape: [readEvent]
    answers [ET_UNK], and reads none of the payload; the stream, the
    budget of the chunk and the event data stay as the read of the
    length left them. *)
Theorem readEvent_fixed_meta_wrong_length
    (s s1 s2 s3 s4 : MidiFileStream) (dt metaType length n : Z) :
  readVariableLong s = (dt, s1) -> 0 <= dt ->
  readChunkByte s1 = (0xFF, s2) ->
  readChunkByte s2 = (metaType, s3) ->
  readVariableLong s3 = (length, s4) ->
  fixed_meta_length metaType = Some n ->
  length <> n ->
  exists s',
    readEvent s = Some (ET_UNK, s')
    /\ getEventType s' = ET_UNK
    /\ _pStream s' = _pStream s4
    /\ _bytesLeft s' = _bytesLeft s4
    /\ _eventData s' = _eventData s.
Proof.
  intros E1 Hdt E2 E3 E4 Hn Hlen.
  pose proof (fixed_meta_length_nonneg metaType n Hn) as Hmt.
  assert (Hd : _eventData s4 = _eventData s).
  { pose proof (readVariableLong_only_read s) as H1.
    pose proof (readChunkByte_only_read s1) as H2.
    pose proof (readChunkByte_only_read s2) as H3.
    pose proof (readVariableLong_only_read s3) as H4.
    rewrite E1 in H1. rewrite E2 in H2. rewrite E3 in H3. rewrite E4 in H4.
    cbn [snd] in *.
    apply (only_read_fields s s4).
    eauto using only_read_trans. }
  destruct (Z_lt_ge_dec length 0) as [Hneg | Hpos].
  - (* the length itself could not be read *)
    rewrite readEvent_delta, E1. cbv zeta. cbn [fst snd].
    destruct (dt <? 0) eqn:E; [zb E; lia | clear E].
    rewrite (readChunkByte_frame (fun x => set_eventDeltaTicks dt (set_eventType ET_UNK x)))
      by auto with frames.
    rewrite E2. cbn [fst snd]. change (255 <? 0) with false.
    change ((255 =? 240) || (255 =? 247)) with false. change (255 =? 255) with true.
    cbv iota.
    rewrite (readChunkByte_frame
               (fun x => set_runningStatus 0 (set_eventDeltaTicks dt (set_eventType ET_UNK x))))
      by auto with frames.
    rewrite E3. cbn [fst snd].
    destruct (metaType <? 0) eqn:E; [zb E; lia | clear E].
    rewrite (readVariableLong_frame
               (fun x => set_runningStatus 0 (set_eventDeltaTicks dt (set_eventType ET_UNK x))))
      by auto with frames.
    rewrite E4. cbn [fst snd].
    destruct (length <? 0) eqn:E; [clear E | zb E; lia].
    eexists. split; [reflexivity |]. unfold getEventType. proj. auto.
  - rewrite (readEvent_meta_event s s1 s2 s3 s4 dt metaType length E1 Hdt E2 E3 Hmt E4)
      by lia.
    rewrite (readEvent_meta_wrong_length metaType n length _ Hn Hlen).
    eexists. split; [reflexivity |]. unfold getEventType. proj. auto.
Qed.

Lemma readEvent_fixed_meta_wrong_length_witness :
  exists s',
    readEvent (in_chunk [x00; xff; x51; x02; x07; xa1] 6) = Some (ET_UNK, s')
    /\ getEventType s' = ET_UNK
    /\ _pStream s' = _pStream (in_chunk [x07; xa1] 2)
    /\ _bytesLeft s' = _bytesLeft (in_chunk [x07; xa1] 2)
    /\ _eventData s' = _eventData (in_chunk [x00; xff; x51; x02; x07; xa1] 6).
Proof.
  apply (readEvent_fixed_meta_wrong_length
           (in_chunk [x00; xff; x51; x02; x07; xa1] 6)
           (in_chunk [xff; x51; x02; x07; xa1] 5)
           (in_chunk [x51; x02; x07; xa1] 4)
           (in_chunk [x02; x07; xa1] 3)
           (in_chunk [x07; xa1] 2)
           0 0x51 2 3).
  - reflexivity.
  - lia.
  - reflexivity.
  - reflexivity.
  - reflexivity.
  - reflexivity.
  - lia.
Defined.

(** ** readEvent: channel events and running status *)

Ltac proj_data :=
  cbn [fst snd _pStream _bytesLeft _format _numTracks _ticksPerBeat
       _runningStatus _eventType _eventDeltaTicks _eventData
       set_pStream set_bytesLeft set_format set_numTracks set_ticksPerBeat
       set_runningStatus set_eventType set_eventDeltaTicks set_eventData
       advance getEventDataP
       buffer seqNum_number chanPrefix_chan tempo_uSecPerBeat smpteOffset
       timeSign keySign channel code chan param1 param2 length_ bytes
       set_buffer set_buffer_length set_buffer_bytes set_channel
       set_code set_chan set_param1 set_param2] in *.

Lemma land_0x80_range (v : Z) :
  0 <= v < 256 -> Z.land v 0x80 = if v <? 128 then 0 else 0x80.
Proof.
  intros H. rewrite <- (byte_val_byte_of_Z v H) at 1.
  rewrite land_0x80_byte, byte_val_byte_of_Z by exact H. reflexivity.
Qed.

Lemma shiftr4_range (v : Z) : 128 <= v < 256 -> 8 <= Z.shiftr v 4 < 16.
Proof.
  intros H. rewrite Z.shiftr_div_pow2 by lia. change (2 ^ 4) with 16.
  split; [apply Z.div_le_lower_bound; lia | apply Z.div_lt_upper_bound; lia].
Qed.

(** The road to the channel event: delta time, then a first byte that
    opens neither a sysex nor a meta event. *)
Lemma readEvent_channel_event (s s1 s2 : MidiFileStream) (dt bint : Z) :
  readVariableLong s = (dt, s1) -> 0 <= dt ->
  readChunkByte s1 = (bint, s2) -> 0 <= bint ->
  bint <> 0xF0 -> bint <> 0xF7 -> bint <> 0xFF ->
  readEvent s
  = readEvent_channel bint (set_eventDeltaTicks dt (set_eventType ET_UNK s2)).
Proof.
  intros E1 Hdt E2 Hb H0 H7 HF.
  rewrite readEvent_delta, E1. cbv zeta. cbn [fst snd].
  destruct (dt <? 0) eqn:E; [zb E; lia | clear E].
  rewrite (readChunkByte_frame (fun x => set_eventDeltaTicks dt (set_eventType ET_UNK x)))
    by auto with frames.
  rewrite E2. cbn [fst snd].
  destruct (bint <? 0) eqn:E; [zb E; lia | clear E].
  destruct (bint =? 240) eqn:E; [zb E; contradiction | clear E].
  destruct (bint =? 247) eqn:E; [zb E; contradiction | clear E].
  destruct (bint =? 255) eqn:E; [zb E; contradiction | clear E].
  reflexivity.
Qed.

(** A channel event of two parameters that brings its own status byte. *)
Lemma readEvent_explicit_status
    (s s1 : MidiFileStream) (dt : Z) (st p1 p2 : byte) (rest : list byte) :
  readVariableLong s = (dt, s1) -> 0 <= dt ->
  _pStream s1 = st :: p1 :: p2 :: rest ->
  3 <= _bytesLeft s1 ->
  0x80 <= byte_val st ->
  byte_val st <> 0xF0 -> byte_val st <> 0xF7 -> byte_val st <> 0xFF ->
  Z.shiftr (byte_val st) 4 <> 0xC -> Z.shiftr (byte_val st) 4 <> 0xD ->
  exists s',
    readEvent s = Some (ET_CHANNEL, s')
    /\ channel (getEventDataP s')
       = mkDataChannel (Z.shiftr (byte_val st) 4) (Z.land (byte_val st) 0x0F)
           (byte_val p1) (byte_val p2)
    /\ _runningStatus s' = byte_val st
    /\ _pStream s' = rest
    /\ _bytesLeft s' = _bytesLeft s1 - 3.
Proof.
  intros E1 Hdt Hs Hb Hst H0 H7 HF HC HD.
  pose proof (byte_val_range st) as Rst.
  pose proof (byte_val_range p1) as Rp1.
  pose proof (byte_val_range p2) as Rp2.
  rewrite (readEvent_channel_event s s1 (advance 1 s1) dt (byte_val st));
    try assumption; try lia;
    [| apply (readChunkByte_cons s1 st (p1 :: p2 :: rest)); [lia | exact Hs]].
  unfold readEvent_channel. cbv zeta.
  rewrite land_0x80_range by lia.
  destruct (byte_val st <? 128) eqn:E; [zb E; lia | clear E].
  change (128 =? 0) with false. cbv iota.
  unfold readEvent_status. cbv zeta. change (negb (-1 =? -1)) with false. cbv iota.
  rewrite (readChunkByte_cons _ p1 (p2 :: rest));
    [| proj_data; lia | proj_data; rewrite Hs; reflexivity].
  destruct (byte_val p1 <? 0) eqn:E; [zb E; lia | clear E].
  unfold readEvent_param2. proj_data.
  pose proof (shiftr4_range (byte_val st) ltac:(lia)) as Rc.
  rewrite cast_char_id by lia.
  destruct (Z.shiftr (byte_val st) 4 =? 12) eqn:E; [zb E; contradiction | clear E].
  destruct (Z.shiftr (byte_val st) 4 =? 13) eqn:E; [zb E; contradiction | clear E].
  cbn [orb].
  rewrite (readChunkByte_cons _ p2 rest);
    [| proj_data; lia | proj_data; rewrite Hs; reflexivity].
  destruct (byte_val p2 <? 0) eqn:E; [zb E; lia | clear E].
  unfold ret. proj_data. eexists. split; [reflexivity |].
  proj_data. rewrite Hs. repeat split; try lia.
Qed.

(** A channel event of two parameters under running status. *)
Lemma readEvent_running_status
    (s s1 : MidiFileStream) (dt : Z) (d1 d2 : byte) (rest : list byte) :
  readVariableLong s = (dt, s1) -> 0 <= dt ->
  _pStream s1 = d1 :: d2 :: rest ->
  2 <= _bytesLeft s1 ->
  byte_val d1 < 0x80 ->
  0x80 <= _runningStatus s <= 0xFF ->
  Z.shiftr (_runningStatus s) 4 <> 0xC -> Z.shiftr (_runningStatus s) 4 <> 0xD ->
  exists s',
    readEvent s = Some (ET_CHANNEL, s')
    /\ channel (getEventDataP s')
       = mkDataChannel (Z.shiftr (_runningStatus s) 4) (Z.land (_runningStatus s) 0x0F)
           (byte_val d1) (byte_val d2)
    /\ _runningStatus s' = _runningStatus s
    /\ _pStream s' = rest
    /\ _bytesLeft s' = _bytesLeft s1 - 2.
Proof.
  intros E1 Hdt Hs Hb Hd1 Hrs HC HD.
  pose proof (byte_val_range d1) as Rd1.
  pose proof (byte_val_range d2) as Rd2.
  assert (Ers : _runningStatus s1 = _runningStatus s).
  { pose proof (readVariableLong_only_read s) as H. rewrite E1 in H.
    apply (only_read_fields s s1 H). }
  rewrite (readEvent_channel_event s s1 (advance 1 s1) dt (byte_val d1));
    try assumption; try lia;
    [| apply (readChunkByte_cons s1 d1 (d2 :: rest)); [lia | exact Hs]].
  unfold readEvent_channel. cbv zeta.
  rewrite (land_0x80_range (byte_val d1)) by lia.
  destruct (byte_val d1 <? 128) eqn:E; [clear E | zb E; lia].
  change (0 =? 0) with true. cbv iota. proj_data. rewrite Ers.
  rewrite (land_0x80_range (_runningStatus s)) by lia.
  destruct (_runningStatus s <? 128) eqn:E; [zb E; lia | clear E].
  change (128 =? 0) with false. cbv iota.
  unfold readEvent_status. cbv zeta.
  destruct (byte_val d1 =? -1) eqn:E; [zb E; lia | clear E]. cbn [negb].
  unfold readEvent_param2. proj_data.
  pose proof (shiftr4_range (_runningStatus s) ltac:(lia)) as Rc.
  rewrite cast_char_id by lia.
  destruct (Z.shiftr (_runningStatus s) 4 =? 12) eqn:E; [zb E; contradiction | clear E].
  destruct (Z.shiftr (_runningStatus s) 4 =? 13) eqn:E; [zb E; contradiction | clear E].
  cbn [orb].
  rewrite (readChunkByte_cons _ d2 rest);
    [| proj_data; lia | proj_data; rewrite Hs; reflexivity].
  destruct (byte_val d2 <? 0) eqn:E; [zb E; lia | clear E].
  unfold ret. proj_data. eexists. split; [reflexivity |].
  proj_data. rewrite Hs. repeat split; try lia.
Qed.

(** A channel event of one parameter (program change, channel
    aftertouch) that brings its own status byte: [param2] is 0 and the
    byte after the parameter is left in the stream. *)
Lemma readEvent_explicit_status_one
    (s s1 : MidiFileStream) (dt : Z) (st p1 : byte) (rest : list byte) :
  readVariableLong s = (dt, s1) -> 0 <= dt ->
  _pStream s1 = st :: p1 :: rest ->
  2 <= _bytesLeft s1 ->
  Z.shiftr (byte_val st) 4 = 0xC \/ Z.shiftr (byte_val st) 4 = 0xD ->
  exists s',
    readEvent s = Some (ET_CHANNEL, s')
    /\ channel (getEventDataP s')
       = mkDataChannel (Z.shiftr (byte_val st) 4) (Z.land (byte_val st) 0x0F)
           (byte_val p1) 0
    /\ _runningStatus s' = byte_val st
    /\ _pStream s' = rest
    /\ _bytesLeft s' = _bytesLeft s1 - 2.
Proof.
  intros E1 Hdt Hs Hb Hop.
  pose proof (byte_val_range st) as Rst.
  pose proof (byte_val_range p1) as Rp1.
  assert (Hst : 192 <= byte_val st < 224).
  { rewrite Z.shiftr_div_pow2 in Hop by lia. change (2 ^ 4) with 16 in Hop.
    pose proof (Z.div_mod (byte_val st) 16 ltac:(lia)).
    pose proof (Z.mod_pos_bound (byte_val st) 16 ltac:(lia)). lia. }
  rewrite (readEvent_channel_event s s1 (advance 1 s1) dt (byte_val st));
    try assumption; try lia;
    [| apply (readChunkByte_cons s1 st (p1 :: rest)); [lia | exact Hs]].
  unfold readEvent_channel. cbv zeta.
  rewrite land_0x80_range by lia.
  destruct (byte_val st <? 128) eqn:E; [zb E; lia | clear E].
  change (128 =? 0) with false. cbv iota.
  unfold readEvent_status. cbv zeta. change (negb (-1 =? -1)) with false. cbv iota.
  rewrite (readChunkByte_cons _ p1 rest);
    [| proj_data; lia | proj_data; rewrite Hs; reflexivity].
  destruct (byte_val p1 <? 0) eqn:E; [zb E; lia | clear E].
  unfold readEvent_param2. proj_data.
  rewrite cast_char_id by lia.
  assert (Eop : (Z.shiftr (byte_val st) 4 =? 12) || (Z.shiftr (byte_val st) 4 =? 13) = true).
  { destruct Hop as [-> | ->]; reflexivity. }
  rewrite Eop. unfold ret. proj_data. eexists. split; [reflexivity |].
  proj_data. rewrite Hs. repeat split; try lia.
Qed.

(** A channel event of one parameter under running status. *)
Lemma readEvent_running_status_one
    (s s1 : MidiFileStream) (dt : Z) (d1 : byte) (rest : list byte) :
  readVariableLong s = (dt, s1) -> 0 <= dt ->
  _pStream s1 = d1 :: rest ->
  1 <= _bytesLeft s1 ->
  byte_val d1 < 0x80 ->
  0x80 <= _runningStatus s <= 0xFF ->
  Z.shiftr (_runningStatus s) 4 = 0xC \/ Z.shiftr (_runningStatus s) 4 = 0xD ->
  exists s',
    readEvent s = Some (ET_CHANNEL, s')
    /\ channel (getEventDataP s')
       = mkDataChannel (Z.shiftr (_runningStatus s) 4) (Z.land (_runningStatus s) 0x0F)
           (byte_val d1) 0
    /\ _runningStatus s' = _runningStatus s
    /\ _pStream s' = rest
    /\ _bytesLeft s' = _bytesLeft s1 - 1.
Proof.
  intros E1 Hdt Hs Hb Hd1 Hrs Hop.
  pose proof (byte_val_range d1) as Rd1.
  assert (Ers : _runningStatus s1 = _runningStatus s).
  { pose proof (readVariableLong_only_read s) as H. rewrite E1 in H.
    apply (only_read_fields s s1 H). }
  rewrite (readEvent_channel_event s s1 (advance 1 s1) dt (byte_val d1));
    try assumption; try lia;
    [| apply (readChunkByte_cons s1 d1 rest); [lia | exact Hs]].
  unfold readEvent_channel. cbv zeta.
  rewrite (land_0x80_range (byte_val d1)) by lia.
  destruct (byte_val d1 <? 128) eqn:E; [clear E | zb E; lia].
  change (0 =? 0) with true. cbv iota. proj_data. rewrite Ers.
  rewrite (land_0x80_range (_runningStatus s)) by lia.
  destruct (_runningStatus s <? 128) eqn:E; [zb E; lia | clear E].
  change (128 =? 0) with false. cbv iota.
  unfold readEvent_status. cbv zeta.
  destruct (byte_val d1 =? -1) eqn:E; [zb E; lia | clear E]. cbn [negb].
  unfold readEvent_param2. proj_data.
  pose proof (shiftr4_range (_runningStatus s) ltac:(lia)) as Rc.
  rewrite cast_char_id by lia.
  assert (Eop : (Z.shiftr (_runningStatus s) 4 =? 12)
                || (Z.shiftr (_runningStatus s) 4 =? 13) = true).
  { destruct Hop as [-> | ->]; reflexivity. }
  rewrite Eop. unfold ret. proj_data. eexists. split; [reflexivity |].
  proj_data. rewrite Hs. repeat split; try lia.
Qed.

(** C5, as stated, fails for the opcodes of one parameter.  After the
    program change C0 05, the event 06 under running status is decoded
    with [param1] = 6 and [param2] = 0, while the next byte of the chunk,
    0x10, stays in the stream (it is the delta time of the event after
    it): [param2] is not the next byte. *)
Lemma running_status_one_parameter_counterexample :
  (do r1 <- readEvent (in_chunk [x00; xc0; x05; x00; x06; x10; x90; x40; x7f] 9);
   do r2 <- readEvent (snd r1);
   Some (fst r1, _runningStatus (snd r1), fst r2,
         channel (getEventDataP (snd r2)), _pStream (snd r2)))
  = Some (ET_CHANNEL, 0xC0, ET_CHANNEL,
          mkDataChannel CH_PROG_CHANGE 0 0x06 0, [x10; x90; x40; x7f])
  /\ 0 <> byte_val x10.
Proof. split; [vm_compute; reflexivity | discriminate]. Qed.

(** C5 (amended). Running status.  After a channel event that brought
    its status byte (say 90 40 7F, a note-on), that byte is the running
    status; a following event whose first byte has the top bit clear (say
    41 00) is decoded as a channel event with the opcode and channel of
    the running status and its first byte as [param1]; [param2] is the
    next byte, except for program change (0xC) and channel aftertouch
    (0xD), where [param2] is 0 and no further byte is read; and the
    status byte used, read or running, is the running status
    afterwards. *)
Theorem readEvent_running_status_reuse :
  (forall (s s1 : MidiFileStream) (dt : Z) (st p1 p2 : byte) (rest : list byte),
      readVariableLong s = (dt, s1) -> 0 <= dt ->
      _pStream s1 = st :: p1 :: p2 :: rest ->
      3 <= _bytesLeft s1 ->
      0x80 <= byte_val st ->
      byte_val st <> 0xF0 -> byte_val st <> 0xF7 -> byte_val st <> 0xFF ->
      Z.shiftr (byte_val st) 4 <> 0xC -> Z.shiftr (byte_val st) 4 <> 0xD ->
      exists s',
        readEvent s = Some (ET_CHANNEL, s')
        /\ channel (getEventDataP s')
           = mkDataChannel (Z.shiftr (byte_val st) 4) (Z.land (byte_val st) 0x0F)
               (byte_val p1) (byte_val p2)
        /\ _runningStatus s' = byte_val st
        /\ _pStream s' = rest
        /\ _bytesLeft s' = _bytesLeft s1 - 3)
  /\ (forall (s s1 : MidiFileStream) (dt : Z) (st p1 : byte) (rest : list byte),
      readVariableLong s = (dt, s1) -> 0 <= dt ->
      _pStream s1 = st :: p1 :: rest ->
      2 <= _bytesLeft s1 ->
      Z.shiftr (byte_val st) 4 = 0xC \/ Z.shiftr (byte_val st) 4 = 0xD ->
      exists s',
        readEvent s = Some (ET_CHANNEL, s')
        /\ channel (getEventDataP s')
           = mkDataChannel (Z.shiftr (byte_val st) 4) (Z.land (byte_val st) 0x0F)
               (byte_val p1) 0
        /\ _runningStatus s' = byte_val st
        /\ _pStream s' = rest
        /\ _bytesLeft s' = _bytesLeft s1 - 2)
  /\ (forall (s s1 : MidiFileStream) (dt : Z) (d1 d2 : byte) (rest : list byte),
      readVariableLong s = (dt, s1) -> 0 <= dt ->
      _pStream s1 = d1 :: d2 :: rest ->
      2 <= _bytesLeft s1 ->
      byte_val d1 < 0x80 ->
      0x80 <= _runningStatus s <= 0xFF ->
      Z.shiftr (_runningStatus s) 4 <> 0xC -> Z.shiftr (_runningStatus s) 4 <> 0xD ->
      exists s',
        readEvent s = Some (ET_CHANNEL, s')
        /\ channel (getEventDataP s')
           = mkDataChannel (Z.shiftr (_runningStatus s) 4)
               (Z.land (_runningStatus s) 0x0F) (byte_val d1) (byte_val d2)
        /\ _runningStatus s' = _runningStatus s
        /\ _pStream s' = rest
        /\ _bytesLeft s' = _bytesLeft s1 - 2)
  /\ (forall (s s1 : MidiFileStream) (dt : Z) (d1 : byte) (rest : list byte),
      readVariableLong s = (dt, s1) -> 0 <= dt ->
      _pStream s1 = d1 :: rest ->
      1 <= _bytesLeft s1 ->
      byte_val d1 < 0x80 ->
      0x80 <= _runningStatus s <= 0xFF ->
      Z.shiftr (_runningStatus s) 4 = 0xC \/ Z.shiftr (_runningStatus s) 4 = 0xD ->
      exists s',
        readEvent s = Some (ET_CHANNEL, s')
        /\ channel (getEventDataP s')
           = mkDataChannel (Z.shiftr (_runningStatus s) 4)
               (Z.land (_runningStatus s) 0x0F) (byte_val d1) 0
        /\ _runningStatus s' = _runningStatus s
        /\ _pStream s' = rest
        /\ _bytesLeft s' = _bytesLeft s1 - 1)
  /\ (do r1 <- readEvent (in_chunk [x00; x90; x40; x7f; x00; x41; x00] 7);
      do r2 <- readEvent (snd r1);
      Some (fst r1, channel (getEventDataP (snd r1)), _runningStatus (snd r1),
            fst r2, channel (getEventDataP (snd r2)), _runningStatus (snd r2)))
     = Some (ET_CHANNEL, mkDataChannel CH_NOTE_ON 0 0x40 0x7F, 0x90,
             ET_CHANNEL, mkDataChannel CH_NOTE_ON 0 0x41 0x00, 0x90).
Proof.
  split; [exact readEvent_explicit_status |].
  split; [exact readEvent_explicit_status_one |].
  split; [exact readEvent_running_status |].
  split; [exact readEvent_running_status_one |].
  vm_compute. reflexivity.
Qed.

Lemma readEvent_running_status_reuse_witness :
  (exists s',
      readEvent (in_chunk [x00; x90; x40; x7f; x00; x41; x00] 7) = Some (ET_CHANNEL, s')
      /\ channel (getEventDataP s')
         = mkDataChannel (Z.shiftr (byte_val x90) 4) (Z.land (byte_val x90) 0x0F)
             (byte_val x40) (byte_val x7f)
      /\ _runningStatus s' = byte_val x90
      /\ _pStream s' = [x00; x41; x00]
      /\ _bytesLeft s' = 6 - 3)
  /\ (exists s',
      readEvent (set_runningStatus 0x90 (in_chunk [x00; x41; x00] 3))
      = Some (ET_CHANNEL, s')
      /\ channel (getEventDataP s')
         = mkDataChannel (Z.shiftr 0x90 4) (Z.land 0x90 0x0F) (byte_val x41) (byte_val x00)
      /\ _runningStatus s' = 0x90
      /\ _pStream s' = []
      /\ _bytesLeft s' = 2 - 2)
  /\ (exists s',
      readEvent (set_runningStatus 0xC0 (in_chunk [x00; x06; x10] 3))
      = Some (ET_CHANNEL, s')
      /\ channel (getEventDataP s')
         = mkDataChannel (Z.shiftr 0xC0 4) (Z.land 0xC0 0x0F) (byte_val x06) 0
      /\ _runningStatus s' = 0xC0
      /\ _pStream s' = [x10]
      /\ _bytesLeft s' = 2 - 1).
Proof.
  destruct readEvent_running_status_reuse as (Hexp & _ & Hrun & Hone & _).
  split; [| split].
  - apply (Hexp (in_chunk [x00; x90; x40; x7f; x00; x41; x00] 7)
             (advance 1 (in_chunk [x00; x90; x40; x7f; x00; x41; x00] 7))
             0 x90 x40 x7f [x00; x41; x00]);
      try reflexivity; vm_compute; try lia; discriminate.
  - apply (Hrun (set_runningStatus 0x90 (in_chunk [x00; x41; x00] 3))
             (advance 1 (set_runningStatus 0x90 (in_chunk [x00; x41; x00] 3)))
             0 x41 x00 []);
      try reflexivity; vm_compute; try lia; try discriminate.
    split; discriminate.
  - apply (Hone (set_runningStatus 0xC0 (in_chunk [x00; x06; x10] 3))
             (advance 1 (set_runningStatus 0xC0 (in_chunk [x00; x06; x10] 3)))
             0 x06 [x10]).
    + reflexivity.
    + lia.
    + reflexivity.
    + simpl. lia.
    + vm_compute. reflexivity.
    + simpl. lia.
    + left. reflexivity.
Defined.

(** ** The budget of the chunk *)

Lemma within_budget_refl (s : MidiFileStream) : within_budget s s.
Proof. exists []. simpl. repeat split; lia. Qed.

Lemma within_budget_trans (s s' s'' : MidiFileStream) :
  within_budget s s' -> within_budget s' s'' -> within_budget s s''.
Proof.
  intros (t1 & E1 & L1 & M1) (t2 & E2 & L2 & M2).
  exists (t1 ++ t2). rewrite length_app, E1, E2, app_assoc.
  repeat split; lia.
Qed.

(** Only the stream and the budget matter to [within_budget]. *)
Lemma within_budget_same (s s' t t' : MidiFileStream) :
  _pStream t = _pStream s -> _bytesLeft t = _bytesLeft s ->
  _pStream t' = _pStream s' -> _bytesLeft t' = _bytesLeft s' ->
  within_budget s s' -> within_budget t t'.
Proof.
  intros P B P' B' (tk & E & L & M). exists tk. rewrite P, B, P', B'. auto.
Qed.

Lemma readChunkByte_within_budget (s : MidiFileStream) :
  within_budget s (snd (readChunkByte s)).
Proof.
  destruct (readChunkByte_cases s) as [[_ E]|[(Hb & Hs & E)|(b & rest & Hb & Hs & E)]];
    rewrite E; cbn [snd].
  - apply within_budget_refl.
  - exists []. proj. rewrite Hs. simpl. repeat split; lia.
  - exists [b]. proj. rewrite Hs. simpl. repeat split; lia.
Qed.

Lemma readFixedLong_loop_within_budget (n : nat) :
  forall result s, within_budget s (snd (readFixedLong_loop n result s)).
Proof.
  induction n as [|n IH]; intros result s; [apply within_budget_refl |].
  cbn [readFixedLong_loop].
  pose proof (readChunkByte_within_budget s) as H.
  destruct (readChunkByte s) as [bint s1]. cbn [snd] in H.
  destruct (bint <? 0); [exact H |].
  eapply within_budget_trans; [exact H | apply IH].
Qed.

Lemma readFixedLong_within_budget (numBytes : Z) (s : MidiFileStream) :
  within_budget s (snd (readFixedLong numBytes s)).
Proof. apply readFixedLong_loop_within_budget. Qed.

Lemma readVariableLong_loop_within_budget (fuel : nat) :
  forall numBytes result s r s',
    readVariableLong_loop fuel numBytes result s = Some (r, s') ->
    within_budget s s'.
Proof.
  induction fuel as [|fuel IH]; intros numBytes result s r s' H; [discriminate |].
  cbn [readVariableLong_loop] in H.
  destruct (numBytes >? 4); [inversion H; apply within_budget_refl |].
  pose proof (readChunkByte_within_budget s) as Hd.
  destruct (readChunkByte s) as [bint s1]. cbn [snd] in Hd.
  destruct (bint <? 0); [inversion H; now subst |].
  destruct (Z.land bint 128 =? 128).
  - apply IH in H. eapply within_budget_trans; eassumption.
  - inversion H. now subst.
Qed.

Lemma readVariableLong_within_budget (s : MidiFileStream) :
  within_budget s (snd (readVariableLong s)).
Proof.
  pose proof (readVariableLong_loop_fuel 0 s) as E.
  destruct (readVariableLong s) as [r s'].
  now apply readVariableLong_loop_within_budget in E.
Qed.

Lemma skipChunkBytes_within_budget (n : nat) :
  forall s, within_budget s (snd (skipChunkBytes n s)).
Proof.
  induction n as [|n IH]; intros s; [apply within_budget_refl |].
  cbn [skipChunkBytes].
  pose proof (readChunkByte_within_budget s) as H.
  destruct (readChunkByte s) as [bint s1]. cbn [snd] in H.
  destruct (bint <? 0); [exact H |].
  eapply within_budget_trans; [exact H | apply IH].
Qed.

Lemma skipChunkBytes_only_read (n : nat) :
  forall s, only_read s (snd (skipChunkBytes n s)).
Proof.
  induction n as [|n IH]; intros s; [apply only_read_refl |].
  cbn [skipChunkBytes].
  pose proof (readChunkByte_only_read s) as H.
  destruct (readChunkByte s) as [bint s1]. cbn [snd] in H.
  destruct (bint <? 0); [exact H |].
  eapply only_read_trans; [exact H | apply IH].
Qed.

Lemma readFixedLong_loop_only_read (n : nat) :
  forall result s, only_read s (snd (readFixedLong_loop n result s)).
Proof.
  induction n as [|n IH]; intros result s; [apply only_read_refl |].
  cbn [readFixedLong_loop].
  pose proof (readChunkByte_only_read s) as H.
  destruct (readChunkByte s) as [bint s1]. cbn [snd] in H.
  destruct (bint <? 0); [exact H |].
  eapply only_read_trans; [exact H | apply IH].
Qed.

(** Skipping [n] bytes that are there. *)
Lemma skipChunkBytes_success (n : nat) :
  forall s,
    Z.of_nat n <= _bytesLeft s ->
    (n <= length (_pStream s))%nat ->
    skipChunkBytes n s = (true, advance n s).
Proof.
  induction n as [|n IH]; intros s Hb Hs.
  - cbn [skipChunkBytes]. now rewrite advance_0.
  - cbn [skipChunkBytes].
    destruct (_pStream s) as [|b rest] eqn:E; [simpl in Hs; lia |].
    rewrite (readChunkByte_cons s b rest) by (try assumption; lia).
    pose proof (byte_val_range b).
    destruct (byte_val b <? 0) eqn:E0; [zb E0; lia |].
    rewrite IH.
    + now rewrite advance_advance.
    + rewrite advance_bytesLeft. lia.
    + rewrite advance_pStream, E. simpl in *. lia.
Qed.

(** ** readVariableBytes *)

Lemma store_in_range (pBuffer : list Z) (i : nat) (c : Z) :
  (i < length pBuffer)%nat ->
  store pBuffer i c = Some (firstn i pBuffer ++ c :: skipn (S i) pBuffer).
Proof.
  intros H. unfold store.
  destruct (i <? length pBuffer)%nat eqn:E; [reflexivity |].
  apply Nat.ltb_ge in E. lia.
Qed.

Lemma store_length (pBuffer pBuffer' : list Z) (i : nat) (c : Z) :
  store pBuffer i c = Some pBuffer' -> length pBuffer' = length pBuffer.
Proof.
  unfold store. destruct (i <? length pBuffer)%nat eqn:E; [| discriminate].
  apply Nat.ltb_lt in E. intros H. injection H as <-.
  change (match pBuffer with [] => [] | _ :: l => skipn i l end)
    with (skipn (S i) pBuffer).
  rewrite length_app. cbn [length]. rewrite length_firstn, length_skipn. lia.
Qed.

Lemma stored_firstn (pBuffer : list Z) (cp : nat) (c : Z) :
  (cp < length pBuffer)%nat ->
  firstn (S cp) (firstn cp pBuffer ++ c :: skipn (S cp) pBuffer)
  = firstn cp pBuffer ++ [c].
Proof.
  intros H. rewrite firstn_app, length_firstn.
  replace (Nat.min cp (length pBuffer)) with cp by lia.
  replace (S cp - cp)%nat with 1%nat by lia.
  rewrite firstn_firstn. replace (Nat.min (S cp) cp) with cp by lia.
  reflexivity.
Qed.

Lemma stored_skipn (pBuffer : list Z) (cp k : nat) (c : Z) :
  (cp < length pBuffer)%nat ->
  skipn (S cp + k) (firstn cp pBuffer ++ c :: skipn (S cp) pBuffer)
  = skipn (S cp + k) pBuffer.
Proof.
  intros H. rewrite skipn_app, length_firstn.
  replace (Nat.min cp (length pBuffer)) with cp by lia.
  rewrite skipn_all2 by (rewrite length_firstn; lia).
  replace (S cp + k - cp)%nat with (S k) by lia.
  cbn [app]. change (skipn (S k) (c :: skipn (S cp) pBuffer))
    with (skipn k (skipn (S cp) pBuffer)).
  rewrite skipn_skipn. f_equal. lia.
Qed.

(** The first loop never stores outside a buffer that has room for the
    [n] characters to come, and stays inside the budget of the chunk. *)
Lemma readVariableBytes_fill_safe (n : nat) :
  forall bytesRead cp pBuffer s,
    (cp + n <= length pBuffer)%nat ->
    exists ok bytesRead' cp' pBuffer' s',
      readVariableBytes_fill n bytesRead cp pBuffer s
      = Some (ok, bytesRead', cp', pBuffer', s')
      /\ length pBuffer' = length pBuffer
      /\ (cp' <= cp + n)%nat
      /\ 0 <= bytesRead' - bytesRead <= Z.of_nat n
      /\ within_budget s s' /\ only_read s s'.
Proof.
  induction n as [|n IH]; intros bytesRead cp pBuffer s Hroom.
  - exists true, bytesRead, cp, pBuffer, s. cbn [readVariableBytes_fill].
    repeat split; try lia; [apply within_budget_refl | apply only_read_refl].
  - cbn [readVariableBytes_fill].
    pose proof (readChunkByte_within_budget s) as Hw.
    pose proof (readChunkByte_only_read s) as Ho.
    destruct (readChunkByte s) as [bint s1]. cbn [snd] in Hw, Ho.
    destruct (bint <? 0).
    + exists false, bytesRead, cp, pBuffer, s1. repeat split; try lia; assumption.
    + rewrite store_in_range by lia.
      destruct (IH (bytesRead + 1) (S cp)
                  (firstn cp pBuffer ++ cast_char bint :: skipn (S cp) pBuffer) s1)
        as (ok & br & cp' & buf' & s' & E & Hl & Hcp & Hbr & Hw' & Ho').
      { rewrite length_app. cbn [length]. rewrite length_firstn, length_skipn. lia. }
      exists ok, br, cp', buf', s'. rewrite E.
      repeat split; try lia.
      * rewrite Hl, length_app. cbn [length]. rewrite length_firstn, length_skipn. lia.
      * eapply within_budget_trans; eassumption.
      * eapply only_read_trans; eassumption.
Qed.

(** The first loop when the [n] bytes are there: they are stored, as
    characters, from offset [cp] on. *)
Lemma readVariableBytes_fill_success (payload : list byte) :
  forall bytesRead cp pBuffer s rest,
    _pStream s = payload ++ rest ->
    Z.of_nat (length payload) <= _bytesLeft s ->
    (cp + length payload <= length pBuffer)%nat ->
    readVariableBytes_fill (length payload) bytesRead cp pBuffer s
    = Some (true, bytesRead + Z.of_nat (length payload), (cp + length payload)%nat,
            firstn cp pBuffer ++ map (fun b => cast_char (byte_val b)) payload
              ++ skipn (cp + length payload) pBuffer,
            advance (length payload) s).
Proof.
  induction payload as [|b payload IH]; intros bytesRead cp pBuffer s rest Hs Hb Hroom.
  - cbn [length readVariableBytes_fill map app]. rewrite advance_0.
    rewrite Nat.add_0_r, Z.add_0_r, firstn_skipn. reflexivity.
  - cbn [length readVariableBytes_fill]. cbn [length] in Hb, Hroom.
    rewrite (readChunkByte_cons s b (payload ++ rest)) by (try assumption; lia).
    pose proof (byte_val_range b).
    destruct (byte_val b <? 0) eqn:E0; [zb E0; lia |].
    rewrite store_in_range by lia.
    rewrite (IH _ _ _ _ rest).
    + rewrite advance_advance, stored_firstn, stored_skipn by lia.
      rewrite <- app_assoc. cbn [map app].
      replace (bytesRead + 1 + Z.of_nat (length payload))
        with (bytesRead + Z.of_nat (S (length payload))) by lia.
      replace (S cp + length payload)%nat with (cp + S (length payload))%nat by lia.
      reflexivity.
    + rewrite advance_pStream, Hs. reflexivity.
    + rewrite advance_bytesLeft. lia.
    + rewrite length_app. cbn [length]. rewrite length_firstn, length_skipn. lia.
Qed.

(** [readVariableBytes] on a buffer of [EV_BUFFER_SIZE] characters never
    stores outside it, whatever the declared length, and reads inside the
    budget of the chunk. *)
Lemma readVariableBytes_safe (length : Z) (pBuffer : list Z) (s : MidiFileStream) :
  Z.of_nat (List.length pBuffer) = EV_BUFFER_SIZE ->
  exists r pBuffer' s',
    readVariableBytes length pBuffer s = Some (r, pBuffer', s')
    /\ List.length pBuffer' = List.length pBuffer
    /\ r <= EV_BUFFER_SIZE - 1
    /\ within_budget s s' /\ only_read s s'.
Proof.
  unfold EV_BUFFER_SIZE. intros Hlen. unfold readVariableBytes.
  rewrite store_in_range by lia.
  set (buf0 := firstn 0 pBuffer ++ 0 :: skipn 1 pBuffer).
  assert (Hlen0 : List.length buf0 = List.length pBuffer).
  { unfold buf0. rewrite length_app. cbn [List.length].
    rewrite length_firstn, length_skipn. lia. }
  set (truncLength := if length >? EV_BUFFER_SIZE - 1 then EV_BUFFER_SIZE - 1 else length).
  assert (Htr : truncLength <= 140 /\ truncLength <= length).
  { unfold truncLength, EV_BUFFER_SIZE.
    destruct (length >? 140 + 1 - 1) eqn:E; zb E; lia. }
  destruct (readVariableBytes_fill_safe (Z.to_nat truncLength) 0 0%nat buf0 s)
    as (ok & br & cp & buf1 & s1 & E & Hl1 & Hcp & Hbr & Hw & Ho); [lia |].
  rewrite E. destruct ok; cbn [negb].
  - assert (Hin : (cp < List.length buf1)%nat) by lia.
    rewrite store_in_range by exact Hin.
    pose proof (skipChunkBytes_within_budget (Z.to_nat (length - br)) s1) as Hw2.
    pose proof (skipChunkBytes_only_read (Z.to_nat (length - br)) s1) as Ho2.
    destruct (skipChunkBytes (Z.to_nat (length - br)) s1) as [ok2 s2].
    cbn [snd] in Hw2, Ho2.
    assert (Hl2 : List.length (firstn cp buf1 ++ 0 :: skipn (S cp) buf1)
                  = List.length pBuffer).
    { rewrite length_app. cbn [List.length]. rewrite length_firstn, length_skipn. lia. }
    destruct ok2; cbn [negb]; eexists _, _, _; (split; [reflexivity |]);
      repeat split; try exact Hl2; unfold EV_BUFFER_SIZE; try lia;
      eauto using within_budget_trans, only_read_trans.
  - eexists _, _, _. split; [reflexivity |].
    repeat split; try lia; assumption.
Qed.

(** [readVariableBytes] when the declared bytes are there: at most
    [EV_BUFFER_SIZE - 1] of them are stored, from the start of the
    buffer, a null character follows them, the stored length is returned
    and all the declared bytes are consumed. *)
Lemma readVariableBytes_success
    (length : Z) (pBuffer : list Z) (s : MidiFileStream) (payload rest : list byte) :
  Z.of_nat (List.length pBuffer) = EV_BUFFER_SIZE ->
  _pStream s = payload ++ rest ->
  Z.of_nat (List.length payload) = length ->
  length <= _bytesLeft s ->
  readVariableBytes length pBuffer s
  = Some (Z.min length (EV_BUFFER_SIZE - 1),
          map (fun b => cast_char (byte_val b))
              (firstn (Z.to_nat (EV_BUFFER_SIZE - 1)) payload)
            ++ 0 :: skipn (S (Z.to_nat (Z.min length (EV_BUFFER_SIZE - 1)))) pBuffer,
          advance (List.length payload) s).
Proof.
  unfold EV_BUFFER_SIZE. intros Hlen Hs Hp Hb. unfold readVariableBytes.
  rewrite store_in_range by lia.
  set (buf0 := firstn 0 pBuffer ++ 0 :: skipn 1 pBuffer).
  assert (Hlen0 : List.length buf0 = List.length pBuffer).
  { unfold buf0. rewrite length_app. cbn [List.length].
    rewrite length_firstn, length_skipn. lia. }
  change (EV_BUFFER_SIZE - 1) with 140. change (140 + 1 - 1) with 140.
  set (n := Z.to_nat (Z.min length 140)).
  assert (Etr : (if length >? 140 then 140 else length) = Z.of_nat n).
  { unfold n. destruct (length >? 140) eqn:E; zb E; lia. }
  rewrite Etr, Nat2Z.id.
  set (p1 := firstn n payload). set (p2 := skipn n payload).
  assert (Hp1 : List.length p1 = n) by (unfold p1; rewrite length_firstn; lia).
  assert (Hp2 : (List.length p2 + n = List.length payload)%nat)
    by (unfold p2; rewrite length_skipn; lia).
  assert (Hs1 : _pStream s = p1 ++ (p2 ++ rest)).
  { rewrite Hs, app_assoc. unfold p1, p2. now rewrite firstn_skipn. }
  rewrite <- Hp1.
  rewrite (readVariableBytes_fill_success p1 0 0%nat buf0 s (p2 ++ rest)); try lia;
    [| exact Hs1].
  cbn [negb firstn app Nat.add].
  assert (Hl1 : List.length (map (fun b => cast_char (byte_val b)) p1) = n)
    by (rewrite length_map; exact Hp1).
  rewrite store_in_range
    by (rewrite length_app, length_skipn, length_map; lia).
  rewrite (skipChunkBytes_success (Z.to_nat (length - (0 + Z.of_nat (List.length p1)))));
    [| rewrite advance_bytesLeft; lia
     | rewrite advance_pStream, Hs1, skipn_app, skipn_all2, Hp1, Nat.sub_diag by lia;
       cbn [skipn app]; rewrite length_app; lia].
  cbn [negb]. rewrite advance_advance.
  replace (List.length p1 + Z.to_nat (length - (0 + Z.of_nat (List.length p1))))%nat
    with (List.length payload) by lia.
  f_equal. f_equal. f_equal; [lia |].
  rewrite firstn_app, Hl1, Hp1, Nat.sub_diag, firstn_O, app_nil_r.
  rewrite firstn_all2 by lia.
  rewrite skipn_app, Hl1. rewrite (skipn_all2 (map _ p1)) by lia.
  replace (S n - n)%nat with 1%nat by lia. cbn [app].
  replace (firstn (Z.to_nat 140) payload) with p1.
  - f_equal. f_equal. rewrite skipn_skipn.
    unfold buf0. cbn [firstn app].
    replace (1 + n)%nat with (S n) by lia.
    change (skipn (S n) (0 :: skipn 1 pBuffer)) with (skipn n (skipn 1 pBuffer)).
    rewrite skipn_skipn. f_equal. lia.
  - unfold p1, n.
    destruct (Z_le_gt_dec length 140).
    + rewrite Z.min_l by lia. rewrite !firstn_all2 by lia. reflexivity.
    + rewrite Z.min_r by lia. reflexivity.
Qed.

Lemma readEvent_meta_text (length : Z) (s : MidiFileStream) :
  readEvent_meta 0x01 length s = readEvent_bytes ET_TEXT length s.
Proof. reflexivity. Qed.

(** A text meta event whose declared bytes are all there. *)
Lemma readEvent_text_event
    (s s1 s2 s3 s4 : MidiFileStream) (dt length : Z) (payload rest : list byte) :
  buffer_ok s ->
  readVariableLong s = (dt, s1) -> 0 <= dt ->
  readChunkByte s1 = (0xFF, s2) ->
  readChunkByte s2 = (0x01, s3) ->
  readVariableLong s3 = (length, s4) ->
  _pStream s4 = payload ++ rest ->
  Z.of_nat (List.length payload) = length ->
  length <= _bytesLeft s4 ->
  exists s',
    readEvent s = Some (ET_TEXT, s')
    /\ length_ (buffer (getEventDataP s')) = Z.min length (EV_BUFFER_SIZE - 1)
    /\ bytes (buffer (getEventDataP s'))
       = map (fun b => cast_char (byte_val b))
             (firstn (Z.to_nat (EV_BUFFER_SIZE - 1)) payload)
           ++ 0 :: skipn (S (Z.to_nat (Z.min length (EV_BUFFER_SIZE - 1))))
                     (bytes (buffer (getEventDataP s)))
    /\ _pStream s' = rest
    /\ _bytesLeft s' = _bytesLeft s4 - length.
Proof.
  intros Hok E1 Hdt E2 E3 E4 Hs Hp Hb.
  assert (Hd : _eventData s4 = _eventData s).
  { pose proof (readVariableLong_only_read s) as H1.
    pose proof (readChunkByte_only_read s1) as H2.
    pose proof (readChunkByte_only_read s2) as H3.
    pose proof (readVariableLong_only_read s3) as H4.
    rewrite E1 in H1. rewrite E2 in H2. rewrite E3 in H3. rewrite E4 in H4.
    cbn [snd] in *.
    apply (only_read_fields s s4).
    eauto using only_read_trans. }
  rewrite (readEvent_meta_event s s1 s2 s3 s4 dt 0x01 length E1 Hdt E2 E3 ltac:(lia) E4)
    by lia.
  rewrite readEvent_meta_text. unfold readEvent_bytes. cbv zeta.
  rewrite (readVariableBytes_success length _ _ payload rest);
    [| proj_data; rewrite Hd; exact Hok | exact Hs | exact Hp | exact Hb].
  proj_data.
  assert (Hmin : 0 <= Z.min length (EV_BUFFER_SIZE - 1) <= 140)
    by (unfold EV_BUFFER_SIZE; lia).
  rewrite cast_int_id by lia.
  destruct (Z.min length (EV_BUFFER_SIZE - 1) <? 0) eqn:E; [zb E; lia | clear E].
  unfold ret. proj_data. eexists. split; [reflexivity |].
  proj_data. rewrite Hd, Hs, skipn_app, skipn_all, Nat.sub_diag. cbn [skipn app].
  repeat split. lia.
Qed.

(** C2. [readVariableBytes] on a buffer of [EV_BUFFER_SIZE] = 141
    characters: whatever length is declared, no store falls outside the
    buffer; when the declared bytes are there, at most 140 of them are
    stored, followed by a null character, the stored (truncated) length
    is returned and exactly the declared number of bytes is consumed from
    the chunk.  For a declared length of 200: 140 bytes and the
    terminator fill the buffer, 140 is returned and 200 bytes are
    consumed; so it is for a text meta event read by [readEvent]. *)
Theorem readVariableBytes_truncates_and_consumes :
  (forall (length : Z) (pBuffer : list Z) (s : MidiFileStream),
      Z.of_nat (List.length pBuffer) = EV_BUFFER_SIZE ->
      exists r pBuffer' s',
        readVariableBytes length pBuffer s = Some (r, pBuffer', s')
        /\ List.length pBuffer' = List.length pBuffer
        /\ r <= 140)
  /\ (forall (length : Z) (pBuffer : list Z) (s : MidiFileStream)
             (payload rest : list byte),
      Z.of_nat (List.length pBuffer) = EV_BUFFER_SIZE ->
      _pStream s = payload ++ rest ->
      Z.of_nat (List.length payload) = length ->
      length <= _bytesLeft s ->
      exists pBuffer' s',
        readVariableBytes length pBuffer s = Some (Z.min length 140, pBuffer', s')
        /\ pBuffer'
           = map (fun b => cast_char (byte_val b)) (firstn 140 payload)
               ++ 0 :: skipn (S (Z.to_nat (Z.min length 140))) pBuffer
        /\ _pStream s' = rest
        /\ _bytesLeft s' = _bytesLeft s - length)
  /\ (forall (pBuffer : list Z) (s : MidiFileStream) (payload rest : list byte),
      Z.of_nat (List.length pBuffer) = EV_BUFFER_SIZE ->
      _pStream s = payload ++ rest ->
      List.length payload = 200%nat ->
      200 <= _bytesLeft s ->
      exists s',
        readVariableBytes 200 pBuffer s
        = Some (140, map (fun b => cast_char (byte_val b)) (firstn 140 payload) ++ [0], s')
        /\ _pStream s' = rest
        /\ _bytesLeft s' = _bytesLeft s - 200)
  /\ (forall (s s1 : MidiFileStream) (dt : Z) (payload rest : list byte),
      buffer_ok s ->
      readVariableLong s = (dt, s1) -> 0 <= dt ->
      _pStream s1 = [xff; x01; x81; x48] ++ payload ++ rest ->
      List.length payload = 200%nat ->
      204 <= _bytesLeft s1 ->
      exists s',
        readEvent s = Some (ET_TEXT, s')
        /\ length_ (buffer (getEventDataP s')) = 140
        /\ bytes (buffer (getEventDataP s'))
           = map (fun b => cast_char (byte_val b)) (firstn 140 payload) ++ [0]
        /\ _pStream s' = rest
        /\ _bytesLeft s' = _bytesLeft s1 - 204).
Proof.
  split; [| split; [| split]].
  - intros length pBuffer s Hlen.
    destruct (readVariableBytes_safe length pBuffer s Hlen)
      as (r & buf' & s' & E & Hl & Hr & _).
    exists r, buf', s'. unfold EV_BUFFER_SIZE in Hr. repeat split; try assumption; lia.
  - intros length pBuffer s payload rest Hlen Hs Hp Hb.
    rewrite (readVariableBytes_success length pBuffer s payload rest Hlen Hs Hp Hb).
    eexists _, _. split; [reflexivity |]. split; [reflexivity |].
    rewrite advance_pStream, advance_bytesLeft, Hs, skipn_app, skipn_all, Nat.sub_diag.
    cbn [skipn app]. split; [reflexivity | lia].
  - intros pBuffer s payload rest Hlen Hs Hp Hb.
    rewrite (readVariableBytes_success 200 pBuffer s payload rest Hlen Hs) by lia.
    eexists. split; [| rewrite advance_pStream, advance_bytesLeft, Hs, skipn_app,
                         skipn_all, Nat.sub_diag; cbn [skipn app]; split;
                         [reflexivity | lia]].
    change (Z.min 200 (EV_BUFFER_SIZE - 1)) with 140.
    change (Z.to_nat (EV_BUFFER_SIZE - 1)) with 140%nat.
    rewrite (skipn_all2 pBuffer) by (unfold EV_BUFFER_SIZE in Hlen; lia).
    reflexivity.
  - intros s s1 dt payload rest Hok E1 Hdt Hs Hp Hb.
    assert (E2 : readChunkByte s1 = (0xFF, advance 1 s1)).
    { apply (readChunkByte_cons s1 xff ([x01; x81; x48] ++ payload ++ rest));
        [lia | exact Hs]. }
    assert (E3 : readChunkByte (advance 1 s1) = (0x01, advance 2 s1)).
    { rewrite (readChunkByte_cons (advance 1 s1) x01 ([x81; x48] ++ payload ++ rest)).
      - now rewrite advance_advance.
      - rewrite advance_bytesLeft. lia.
      - rewrite advance_pStream, Hs. reflexivity. }
    assert (E4 : readVariableLong (advance 2 s1) = (200, advance 4 s1)).
    { rewrite (readVariableLong_decode [x81] x48 (advance 2 s1)).
      - now rewrite advance_advance.
      - repeat constructor.
      - unfold continuation. discriminate.
      - exists (payload ++ rest). rewrite advance_pStream, Hs. reflexivity.
      - rewrite advance_bytesLeft. simpl. lia.
      - simpl. lia.
      - vm_compute. reflexivity. }
    destruct (readEvent_text_event s s1 _ _ _ dt 200 payload rest Hok E1 Hdt E2 E3 E4)
      as (s' & E & Hl & Hbytes & Hst & Hbl).
    + rewrite advance_pStream, Hs. reflexivity.
    + lia.
    + rewrite advance_bytesLeft. lia.
    + exists s'. split; [exact E |]. split; [exact Hl |].
      split; [| split; [exact Hst | rewrite Hbl, advance_bytesLeft; lia]].
      rewrite Hbytes.
      change (Z.min 200 (EV_BUFFER_SIZE - 1)) with 140.
      change (Z.to_nat (EV_BUFFER_SIZE - 1)) with 140%nat.
      rewrite skipn_all2; [reflexivity |].
      unfold buffer_ok, EV_BUFFER_SIZE in Hok. unfold getEventDataP. lia.
Qed.

Lemma readVariableBytes_truncates_and_consumes_witness :
  (exists s',
      readVariableBytes 200 (repeat 7 141)
        (in_chunk (repeat x41 200 ++ [x00; x90]) 202)
      = Some (140,
              map (fun b => cast_char (byte_val b)) (firstn 140 (repeat x41 200)) ++ [0],
              s')
      /\ _pStream s' = [x00; x90]
      /\ _bytesLeft s' = 202 - 200)
  /\ (exists pBuffer' s',
      readVariableBytes 2 (repeat 7 141) (in_chunk [x41; x42; x00] 3)
      = Some (Z.min 2 140, pBuffer', s')
      /\ pBuffer'
         = map (fun b => cast_char (byte_val b)) (firstn 140 [x41; x42])
             ++ 0 :: skipn (S (Z.to_nat (Z.min 2 140))) (repeat 7 141)
      /\ _pStream s' = [x00]
      /\ _bytesLeft s' = 3 - 2).
Proof.
  destruct readVariableBytes_truncates_and_consumes as (_ & Hgen & H200 & _).
  split.
  - apply (H200 (repeat 7 141) (in_chunk (repeat x41 200 ++ [x00; x90]) 202)
             (repeat x41 200) [x00; x90]).
    + reflexivity.
    + reflexivity.
    + reflexivity.
    + simpl. lia.
  - apply (Hgen 2 (repeat 7 141) (in_chunk [x41; x42; x00] 3) [x41; x42] [x00]).
    + reflexivity.
    + reflexivity.
    + reflexivity.
    + simpl. lia.
Defined.

(** ** One step of the event reader *)

Ltac proj_all :=
  cbn [fst snd _pStream _bytesLeft _format _numTracks _ticksPerBeat
       _runningStatus _eventType _eventDeltaTicks _eventData
       set_pStream set_bytesLeft set_format set_numTracks set_ticksPerBeat
       set_runningStatus set_eventType set_eventDeltaTicks set_eventData
       advance getEventDataP buffer_size
       buffer seqNum_number chanPrefix_chan tempo_uSecPerBeat smpteOffset
       timeSign keySign channel code chan param1 param2 length_ bytes
       set_buffer set_buffer_length set_buffer_bytes set_channel
       set_code set_chan set_param1 set_param2
       set_seqNum_number set_chanPrefix_chan set_tempo_uSecPerBeat
       set_smpteOffset set_timeSign set_keySign
       set_hours set_minutes set_seconds set_frames set_f100ths
       set_numer set_denom set_metro set_m32nds set_numSharps set_isMinor] in *.

Ltac same_view_tac :=
  solve [ unfold same_view;
          cbn [_pStream _bytesLeft _runningStatus _eventData
               set_pStream set_bytesLeft set_format set_numTracks set_ticksPerBeat
               set_runningStatus set_eventType set_eventDeltaTicks set_eventData
               buffer_size buffer bytes
               set_buffer set_buffer_length set_channel
               set_code set_chan set_param1 set_param2
               set_seqNum_number set_chanPrefix_chan set_tempo_uSecPerBeat
               set_smpteOffset set_timeSign set_keySign
               set_hours set_minutes set_seconds set_frames set_f100ths
               set_numer set_denom set_metro set_m32nds set_numSharps set_isMinor];
          repeat split; try reflexivity; intros; try reflexivity; discriminate ].

Lemma event_step_refl_same (k : bool) (s t : MidiFileStream) :
  same_view k t s -> event_step k s t.
Proof.
  intros (P & B & L & R). repeat split; auto.
  apply (within_budget_same s s); auto. apply within_budget_refl.
Qed.

Lemma event_step_trans (k : bool) (s s' s'' : MidiFileStream) :
  event_step k s s' -> event_step k s' s'' -> event_step k s s''.
Proof.
  intros (W1 & L1 & R1) (W2 & L2 & R2). repeat split.
  - eapply within_budget_trans; eassumption.
  - congruence.
  - intros K. rewrite (R2 K). apply (R1 K).
Qed.

Lemma event_step_same_r (k : bool) (s s' t : MidiFileStream) :
  event_step k s s' -> same_view k t s' -> event_step k s t.
Proof.
  intros (W & L & R) (P & B & L' & R'). repeat split.
  - apply (within_budget_same s s'); auto.
  - congruence.
  - intros K. rewrite (R' K). apply (R K).
Qed.

Lemma event_step_read (k : bool) (s s' : MidiFileStream) :
  within_budget s s' -> only_read s s' -> event_step k s s'.
Proof.
  intros W O. repeat split; [exact W | |]; rewrite O; reflexivity.
Qed.

Lemma readChunkByte_step (k : bool) (s : MidiFileStream) :
  event_step k s (snd (readChunkByte s)).
Proof.
  apply event_step_read;
    [apply readChunkByte_within_budget | apply readChunkByte_only_read].
Qed.

Lemma readChunkByte_noting_step (k : bool) (s : MidiFileStream) :
  event_step k s (snd (readChunkByte_noting s)).
Proof.
  unfold readChunkByte_noting. pose proof (readChunkByte_step k s) as H.
  destruct (readChunkByte s) as [bint s1]. cbn [snd] in H.
  destruct (bint <? 0); cbn [snd]; [| exact H].
  apply (event_step_same_r k s s1); [exact H | same_view_tac].
Qed.

Lemma readFixedLong_step (k : bool) (numBytes : Z) (s : MidiFileStream) :
  event_step k s (snd (readFixedLong numBytes s)).
Proof.
  apply event_step_read;
    [apply readFixedLong_within_budget | apply readFixedLong_loop_only_read].
Qed.

Lemma readVariableLong_step (k : bool) (s : MidiFileStream) :
  event_step k s (snd (readVariableLong s)).
Proof.
  apply event_step_read;
    [apply readVariableLong_within_budget | apply readVariableLong_only_read].
Qed.

Lemma skipChunkBytes_step (k : bool) (n : nat) (s : MidiFileStream) :
  event_step k s (snd (skipChunkBytes n s)).
Proof.
  apply event_step_read;
    [apply skipChunkBytes_within_budget | apply skipChunkBytes_only_read].
Qed.

Lemma buffer_ok_step (k : bool) (s s' : MidiFileStream) :
  event_step k s s' -> buffer_ok s -> buffer_ok s'.
Proof.
  intros (_ & L & _). unfold buffer_ok, buffer_size in *. now rewrite L.
Qed.

(** Walk back along the reads made so far. *)
Ltac chain :=
  first
    [ apply event_step_refl_same; same_view_tac
    | match goal with
      | H : event_step ?k ?a ?b |- event_step ?k ?s ?t =>
          let V := fresh "V" in
          assert (V : same_view k t b) by same_view_tac;
          apply (event_step_trans k s a t);
            [ clear V; chain | exact (event_step_same_r k a b t H V) ]
      end ].

Lemma readEvent_bytes_step (k : bool) (et length : Z) (s : MidiFileStream) :
  buffer_ok s ->
  exists r s', readEvent_bytes et length s = Some (r, s') /\ event_step k s s'.
Proof.
  intros Hok. unfold readEvent_bytes. cbv zeta.
  destruct (readVariableBytes_safe length
              (bytes (buffer (_eventData (set_eventType et s)))) (set_eventType et s))
    as (r & buf' & s1 & E & Hl & _ & W & O); [exact Hok |].
  rewrite E.
  assert (H : event_step k (set_eventType et s) s1) by (now apply event_step_read).
  assert (Hfinal : event_step k s
                     (set_buffer_length (cast_int r) (set_buffer_bytes buf' s1))).
  { destruct H as (W' & L & R). repeat split.
    - apply (within_budget_same (set_eventType et s) s1); auto.
    - unfold buffer_size in *. proj_all. exact Hl.
    - intros K. proj_all. apply (R K). }
  destruct (length_ (buffer (_eventData (set_buffer_length (cast_int r)
                                           (set_buffer_bytes buf' s1)))) <? 0);
    unfold fail, ret; eexists _, _; (split; [reflexivity |]);
    (apply (event_step_same_r k _ _ _ Hfinal); same_view_tac).
Qed.

(** Take the next read or the next test of the function in the goal;
    [k] is the kind of step followed, [s0] the state the walk began in. *)
Ltac walk_step k s0 :=
  match goal with
  | |- context [if ?c then _ else _] => destruct c
  | |- context [readChunkByte_noting ?x] =>
      let H := fresh "Hstep" in
      pose proof (readChunkByte_noting_step k x) as H;
      destruct (readChunkByte_noting x) as [? ?]; cbn [snd] in H
  | |- context [readChunkByte ?x] =>
      let H := fresh "Hstep" in
      pose proof (readChunkByte_step k x) as H;
      destruct (readChunkByte x) as [? ?]; cbn [snd] in H
  | |- context [readFixedLong ?n ?x] =>
      let H := fresh "Hstep" in
      pose proof (readFixedLong_step k n x) as H;
      destruct (readFixedLong n x) as [? ?]; cbn [snd] in H
  | |- context [readVariableLong ?x] =>
      let H := fresh "Hstep" in
      pose proof (readVariableLong_step k x) as H;
      destruct (readVariableLong x) as [? ?]; cbn [snd] in H
  | |- context [skipChunkBytes ?n ?x] =>
      let H := fresh "Hstep" in
      pose proof (skipChunkBytes_step k n x) as H;
      destruct (skipChunkBytes n x) as [? ?]; cbn [snd] in H
  | Hok : buffer_ok s0 |- context [readEvent_bytes ?et ?len ?x] =>
      let H := fresh "Hstep" in
      let r := fresh "r" in
      let s' := fresh "s" in
      let E := fresh "E" in
      assert (H : event_step k s0 x) by chain;
      destruct (readEvent_bytes_step k et len x (buffer_ok_step k s0 x H Hok))
        as (r & s' & E & ?);
      rewrite E; clear H
  end.

Ltac walk_end :=
  unfold fail, ret; eexists _, _; split; [reflexivity | chain].

Lemma readEvent_meta_step (k : bool) (metaType length : Z) (s : MidiFileStream) :
  buffer_ok s ->
  exists r s', readEvent_meta metaType length s = Some (r, s') /\ event_step k s s'.
Proof.
  intros Hok. unfold readEvent_meta. cbv zeta.
  repeat walk_step k s; walk_end.
Qed.

Lemma readEvent_channel_step (bint : Z) (s : MidiFileStream) :
  exists r s', readEvent_channel bint s = Some (r, s') /\ event_step false s s'.
Proof.
  unfold readEvent_channel, readEvent_status, readEvent_param2. cbv zeta.
  repeat walk_step false s; walk_end.
Qed.

(** Every call of [readEvent] on an object whose event buffer has its
    declared size returns, inside the budget of the chunk. *)
Lemma readEvent_step (s : MidiFileStream) :
  buffer_ok s ->
  exists r s', readEvent s = Some (r, s') /\ event_step false s s'.
Proof.
  intros Hok. unfold readEvent. cbv zeta.
  repeat walk_step false s;
    try (match goal with
         | |- context [readEvent_meta ?m ?l ?x] =>
             let H := fresh "Hstep" in
             assert (H : event_step false s x) by chain;
             destruct (readEvent_meta_step false m l x
                         (buffer_ok_step false s x H Hok)) as (? & ? & -> & ?);
             clear H
         | |- context [readEvent_channel ?b ?x] =>
             destruct (readEvent_channel_step b x) as (? & ? & -> & ?)
         end);
    walk_end.
Qed.

(** ** readEvent: sysex and meta events clear the running status *)

Lemma readEvent_clears_running_status
    (s s1 s2 : MidiFileStream) (dt bint : Z) :
  buffer_ok s ->
  readVariableLong s = (dt, s1) -> 0 <= dt ->
  readChunkByte s1 = (bint, s2) ->
  bint = 0xFF \/ bint = 0xF0 \/ bint = 0xF7 ->
  exists r s', readEvent s = Some (r, s') /\ _runningStatus s' = 0.
Proof.
  intros Hok E1 Hdt E2 Hb.
  assert (Hok2 : buffer_ok s2).
  { pose proof (readVariableLong_only_read s) as H1.
    pose proof (readChunkByte_only_read s1) as H2.
    rewrite E1 in H1. rewrite E2 in H2. cbn [snd] in *.
    unfold buffer_ok in *.
    destruct (only_read_fields s s2 (only_read_trans _ _ _ H1 H2)) as (_ & -> & _).
    exact Hok. }
  rewrite readEvent_delta, E1. cbv zeta. cbn [fst snd].
  destruct (dt <? 0) eqn:E; [zb E; lia | clear E].
  rewrite (readChunkByte_frame (fun x => set_eventDeltaTicks dt (set_eventType ET_UNK x)))
    by auto with frames.
  rewrite E2. cbn [fst snd].
  set (y := set_runningStatus 0 (set_eventDeltaTicks dt (set_eventType ET_UNK s2))).
  assert (Hy : buffer_ok y) by exact Hok2.
  assert (Hry : _runningStatus y = 0) by reflexivity.
  clearbody y.
  enough (exists r s',
             (if bint <? 0 then fail (set_eventDeltaTicks dt (set_eventType ET_UNK s2))
              else if (bint =? 240) || (bint =? 247) then
                let '(length, s) := readVariableLong y in
                if length <? 0 then fail s
                else if bint =? 240 then readEvent_bytes ET_SYSEX_F0 length s
                else if bint =? 247 then readEvent_bytes ET_SYSEX_ESC length s
                else ret s
              else if bint =? 255 then
                let '(metaType, s) := readChunkByte y in
                if metaType <? 0 then fail s
                else
                  let '(length, s) := readVariableLong s in
                  if length <? 0 then fail s
                  else readEvent_meta metaType length s
              else readEvent_channel bint
                     (set_eventDeltaTicks dt (set_eventType ET_UNK s2)))
             = Some (r, s') /\ event_step true y s') as (r & s' & E & (_ & _ & R)).
  { exists r, s'. split; [exact E |]. rewrite (R eq_refl). exact Hry. }
  destruct Hb as [-> | [-> | ->]];
    match goal with
    | |- context [?n <? 0] => change (n <? 0) with false
    end;
    [ change ((255 =? 240) || (255 =? 247)) with false; change (255 =? 255) with true
    | change ((240 =? 240) || (240 =? 247)) with true; change (240 =? 240) with true
    | change ((247 =? 240) || (247 =? 247)) with true; change (247 =? 240) with false;
      change (247 =? 247) with true ];
    cbv iota;
    repeat walk_step true y;
    try (match goal with
         | |- context [readEvent_meta ?m ?l ?x] =>
             let H := fresh "Hstep" in
             assert (H : event_step true y x) by chain;
             destruct (readEvent_meta_step true m l x
                         (buffer_ok_step true y x H Hy)) as (? & ? & -> & ?);
             clear H
         end);
    walk_end.
Qed.

(** A first byte with the top bit clear while no running status is in
    force: the error "running status used, but not active". *)
Lemma readEvent_running_status_inactive
    (s s1 : MidiFileStream) (dt : Z) (d1 : byte) (rest : list byte) :
  readVariableLong s = (dt, s1) -> 0 <= dt ->
  _pStream s1 = d1 :: rest ->
  1 <= _bytesLeft s1 ->
  byte_val d1 < 0x80 ->
  _runningStatus s = 0 ->
  exists s',
    readEvent s = Some (ET_UNK, s') /\ getEventType s' = ET_UNK /\ _pStream s' = rest.
Proof.
  intros E1 Hdt Hs Hb Hd1 Hrs.
  pose proof (byte_val_range d1) as Rd1.
  assert (Ers : _runningStatus s1 = _runningStatus s).
  { pose proof (readVariableLong_only_read s) as H. rewrite E1 in H.
    apply (only_read_fields s s1 H). }
  rewrite (readEvent_channel_event s s1 (advance 1 s1) dt (byte_val d1));
    try assumption; try lia;
    [| apply (readChunkByte_cons s1 d1 rest); [lia | exact Hs]].
  unfold readEvent_channel. cbv zeta.
  rewrite (land_0x80_range (byte_val d1)) by lia.
  destruct (byte_val d1 <? 128) eqn:E; [clear E | zb E; lia].
  change (0 =? 0) with true. cbv iota. proj_data. rewrite Ers, Hrs.
  change (Z.land 0 128 =? 0) with true. cbv iota.
  unfold fail, ret. eexists. split; [reflexivity |].
  unfold getEventType. proj_data. rewrite Hs. split; reflexivity.
Qed.

(** C6. Meta events (first byte FF) and sysex events (F0, F7) clear the
    running status, whatever becomes of the rest of the event; a channel
    event that follows with a first byte whose top bit is clear then
    fails with [ET_UNK].  So it goes for 90 40 7F, then FF 01 00 (or
    F0 00), then 41 00 (each after a delta time of 0): the third event
    fails. *)
Theorem readEvent_meta_sysex_clear_running_status :
  (forall (s s1 s2 : MidiFileStream) (dt bint : Z),
      buffer_ok s ->
      readVariableLong s = (dt, s1) -> 0 <= dt ->
      readChunkByte s1 = (bint, s2) ->
      bint = 0xFF \/ bint = 0xF0 \/ bint = 0xF7 ->
      exists r s', readEvent s = Some (r, s') /\ _runningStatus s' = 0)
  /\ (forall (s s1 : MidiFileStream) (dt : Z) (d1 : byte) (rest : list byte),
      readVariableLong s = (dt, s1) -> 0 <= dt ->
      _pStream s1 = d1 :: rest ->
      1 <= _bytesLeft s1 ->
      byte_val d1 < 0x80 ->
      _runningStatus s = 0 ->
      exists s',
        readEvent s = Some (ET_UNK, s') /\ getEventType s' = ET_UNK
        /\ _pStream s' = rest)
  /\ (do r1 <- readEvent
                 (in_chunk [x00; x90; x40; x7f; x00; xff; x01; x00; x00; x41; x00] 11);
      do r2 <- readEvent (snd r1);
      do r3 <- readEvent (snd r2);
      Some (fst r1, _runningStatus (snd r1), fst r2, _runningStatus (snd r2), fst r3))
     = Some (ET_CHANNEL, 0x90, ET_TEXT, 0, ET_UNK)
  /\ (do r1 <- readEvent
                 (in_chunk [x00; x90; x40; x7f; x00; xf0; x00; x00; x41; x00] 10);
      do r2 <- readEvent (snd r1);
      do r3 <- readEvent (snd r2);
      Some (fst r1, _runningStatus (snd r1), fst r2, _runningStatus (snd r2), fst r3))
     = Some (ET_CHANNEL, 0x90, ET_SYSEX_F0, 0, ET_UNK).
Proof.
  split; [exact readEvent_clears_running_status |].
  split; [exact readEvent_running_status_inactive |].
  split; vm_compute; reflexivity.
Qed.

Lemma readEvent_meta_sysex_clear_running_status_witness :
  (exists r s',
      readEvent (set_runningStatus 0x90 (in_chunk [x00; xff; x01; x00; x00; x41; x00] 7))
      = Some (r, s')
      /\ _runningStatus s' = 0)
  /\ (exists s',
      readEvent (in_chunk [x00; x41; x00] 3) = Some (ET_UNK, s')
      /\ getEventType s' = ET_UNK /\ _pStream s' = [x00]).
Proof.
  destruct readEvent_meta_sysex_clear_running_status as (Hclear & Hfail & _).
  split.
  - apply (Hclear
             (set_runningStatus 0x90 (in_chunk [x00; xff; x01; x00; x00; x41; x00] 7))
             (advance 1 (set_runningStatus 0x90
                           (in_chunk [x00; xff; x01; x00; x00; x41; x00] 7)))
             (advance 2 (set_runningStatus 0x90
                           (in_chunk [x00; xff; x01; x00; x00; x41; x00] 7)))
             0 0xFF).
    + reflexivity.
    + reflexivity.
    + lia.
    + reflexivity.
    + left. reflexivity.
  - apply (Hfail (in_chunk [x00; x41; x00] 3) (advance 1 (in_chunk [x00; x41; x00] 3))
             0 x41 [x00]).
    + reflexivity.
    + lia.
    + reflexivity.
    + simpl. lia.
    + vm_compute. reflexivity.
    + reflexivity.
Defined.

(** ** readFixedLong *)

Lemma lor_low8 (x b : Z) : x mod 256 = 0 -> 0 <= b < 256 -> Z.lor x b = x + b.
Proof.
  intros Hx Hb.
  assert (Hl : Z.land x b = 0).
  { replace b with (Z.land (Z.ones 8) b).
    - rewrite Z.land_assoc, Z.land_ones by lia. change (2 ^ 8) with 256.
      rewrite Hx. apply Z.land_0_l.
    - rewrite Z.land_comm, Z.land_ones by lia. apply Z.mod_small.
      change (2 ^ 8) with 256. lia. }
  rewrite <- Z.lxor_lor, <- Z.add_nocarry_lxor by exact Hl. reflexivity.
Qed.

Lemma cast_long_cases (y : Z) :
  0 <= y < 4294967296 ->
  (y < 2147483648 /\ cast_long y = y)
  \/ (2147483648 <= y /\ cast_long y = y - 4294967296).
Proof.
  intros H. destruct (Z_lt_ge_dec y 2147483648) as [L | G].
  - left. split; [exact L | apply cast_long_id; lia].
  - right. split; [lia |]. unfold cast_long, wrap.
    change (2 ^ (32 - 1)) with 2147483648. change (2 ^ 32) with 4294967296.
    replace (y + 2147483648) with (y - 2147483648 + 1 * 4294967296) by lia.
    rewrite Z.mod_add by lia. rewrite Z.mod_small; lia.
Qed.

(** One more byte of a big-endian number that still fits 32 bits. *)
Lemma fixed_step (r b : Z) :
  0 <= r < 16777216 -> 0 <= b < 256 ->
  Z.lor (cast_long (Z.shiftl r 8)) b = cast_long (r * 256 + b).
Proof.
  intros Hr Hb. rewrite Z.shiftl_mul_pow2 by lia. change (2 ^ 8) with 256.
  destruct (cast_long_cases (r * 256) ltac:(lia)) as [[L E] | [G E]];
    destruct (cast_long_cases (r * 256 + b) ltac:(lia)) as [[L' E'] | [G' E']];
    rewrite E, E'.
  - apply lor_low8; [apply Z.mod_mul; lia | exact Hb].
  - assert (r * 256 mod 256 = 0) by (apply Z.mod_mul; lia).
    pose proof (Z.div_mod (r * 256) 256 ltac:(lia)).
    pose proof (Z.div_mod 2147483648 256 ltac:(lia)) as H2.
    change (2147483648 mod 256) with 0 in H2. change (2147483648 / 256) with 8388608 in H2.
    rewrite Z.div_mul in * by lia. lia.
  - lia.
  - rewrite lor_low8; [lia | | exact Hb].
    replace (r * 256 - 4294967296) with ((r - 16777216) * 256) by lia.
    apply Z.mod_mul. lia.
Qed.

Lemma readFixedLong_loop_cons (n : nat) (result : Z) (s : MidiFileStream)
    (b : byte) (rest : list byte) :
  0 < _bytesLeft s -> _pStream s = b :: rest ->
  readFixedLong_loop (S n) result s
  = readFixedLong_loop n (Z.lor (cast_long (Z.shiftl result 8)) (byte_val b))
      (advance 1 s).
Proof.
  intros Hb Hs. cbn [readFixedLong_loop].
  rewrite (readChunkByte_cons s b rest Hb Hs).
  pose proof (byte_val_range b).
  destruct (byte_val b <? 0) eqn:E; [zb E; lia | reflexivity].
Qed.

Lemma readFixedLong_2 (s : MidiFileStream) (b1 b2 : byte) (rest : list byte) :
  _pStream s = b1 :: b2 :: rest -> 2 <= _bytesLeft s ->
  readFixedLong 2 s = (byte_val b1 * 256 + byte_val b2, advance 2 s).
Proof.
  intros Hs Hb. unfold readFixedLong. change (Z.to_nat 2) with 2%nat.
  pose proof (byte_val_range b1). pose proof (byte_val_range b2).
  rewrite (readFixedLong_loop_cons 1 0 s b1 (b2 :: rest)) by (try assumption; lia).
  rewrite (readFixedLong_loop_cons 0 _ (advance 1 s) b2 rest);
    [| rewrite advance_bytesLeft; lia | rewrite advance_pStream, Hs; reflexivity].
  cbn [readFixedLong_loop]. rewrite advance_advance.
  rewrite (fixed_step 0) by lia. rewrite Z.mul_0_l, Z.add_0_l.
  rewrite (cast_long_id (byte_val b1)) by lia.
  rewrite fixed_step by lia. rewrite cast_long_id by lia. reflexivity.
Qed.

Lemma readFixedLong_4 (s : MidiFileStream) (b1 b2 b3 b4 : byte) (rest : list byte) :
  _pStream s = b1 :: b2 :: b3 :: b4 :: rest -> 4 <= _bytesLeft s ->
  readFixedLong 4 s
  = (cast_long (((byte_val b1 * 256 + byte_val b2) * 256 + byte_val b3) * 256
                + byte_val b4),
     advance 4 s).
Proof.
  intros Hs Hb. unfold readFixedLong. change (Z.to_nat 4) with 4%nat.
  pose proof (byte_val_range b1). pose proof (byte_val_range b2).
  pose proof (byte_val_range b3). pose proof (byte_val_range b4).
  rewrite (readFixedLong_loop_cons 3 0 s b1 (b2 :: b3 :: b4 :: rest))
    by (try assumption; lia).
  rewrite (readFixedLong_loop_cons 2 _ (advance 1 s) b2 (b3 :: b4 :: rest));
    [| rewrite advance_bytesLeft; lia | rewrite advance_pStream, Hs; reflexivity].
  rewrite advance_advance.
  rewrite (readFixedLong_loop_cons 1 _ (advance (1 + 1) s) b3 (b4 :: rest));
    [| rewrite advance_bytesLeft; lia | rewrite advance_pStream, Hs; reflexivity].
  rewrite advance_advance.
  rewrite (readFixedLong_loop_cons 0 _ (advance (1 + 1 + 1) s) b4 rest);
    [| rewrite advance_bytesLeft; lia | rewrite advance_pStream, Hs; reflexivity].
  rewrite advance_advance. cbn [readFixedLong_loop].
  rewrite (fixed_step 0) by lia. rewrite Z.mul_0_l, Z.add_0_l.
  rewrite (cast_long_id (byte_val b1)) by lia.
  rewrite (fixed_step (byte_val b1) (byte_val b2)) by lia.
  rewrite (cast_long_id (byte_val b1 * 256 + byte_val b2)) by lia.
  rewrite (fixed_step (byte_val b1 * 256 + byte_val b2) (byte_val b3)) by lia.
  rewrite (cast_long_id ((byte_val b1 * 256 + byte_val b2) * 256 + byte_val b3)) by lia.
  rewrite fixed_step by lia. reflexivity.
Qed.

(** A number that the stream is too short for cannot be read. *)
Lemma readFixedLong_loop_short (n : nat) :
  forall result s,
    (List.length (_pStream s) < n)%nat ->
    fst (readFixedLong_loop n result s) = -1.
Proof.
  induction n as [|n IH]; intros result s H; [lia |].
  cbn [readFixedLong_loop].
  destruct (readChunkByte_cases s) as [[_ E]|[(_ & _ & E)|(b & rest & Hb & Hs & E)]];
    rewrite E; try reflexivity.
  pose proof (byte_val_range b).
  destruct (byte_val b <? 0) eqn:E0; [zb E0; lia |].
  apply IH. rewrite advance_pStream, Hs. rewrite Hs in H. simpl in *. lia.
Qed.

(** ** openChunk *)

Lemma byte_of_Z_byte_val (b : byte) : byte_of_Z (byte_val b) = b.
Proof. destruct b; reflexivity. Qed.

Lemma byte_val_ltb0 (b : byte) : (byte_val b <? 0) = false.
Proof.
  pose proof (byte_val_range b).
  destruct (byte_val b <? 0) eqn:E; [zb E; lia | reflexivity].
Qed.

(** A character of the signature, compared with a letter. *)
Lemma sig_char (b : byte) (k : Z) :
  0 <= k < 128 -> (cast_char (byte_val b) =? k) = true -> b = byte_of_Z k.
Proof.
  intros Hk E. zb E. pose proof (byte_val_range b) as R.
  rewrite <- (byte_of_Z_byte_val b). f_equal.
  destruct (Z_lt_ge_dec (byte_val b) 128) as [L | G].
  - rewrite cast_char_id in E by lia. exact E.
  - exfalso. unfold cast_char, wrap in E. change (2 ^ (8 - 1)) with 128 in E.
    change (2 ^ 8) with 256 in E.
    replace (byte_val b + 128) with (byte_val b - 128 + 1 * 256) in E by lia.
    rewrite Z.mod_add, Z.mod_small in E by lia. lia.
Qed.

Lemma stream_read_cons (s : MidiFileStream) (b : byte) (rest : list byte) :
  _pStream s = b :: rest -> stream_read s = (byte_val b, set_pStream rest s).
Proof. intros E. unfold stream_read. now rewrite E. Qed.

Lemma stream_read_nil (s : MidiFileStream) :
  _pStream s = [] -> stream_read s = (-1, s).
Proof. intros E. unfold stream_read. now rewrite E. Qed.

(** Close the case of an early return of [openChunk_sig]; [Es] tells
    what the stream was. *)
Ltac early_return Es :=
  eexists _, _; split; [reflexivity |];
  split; [auto |];
  split; [reflexivity |];
  cbn [_pStream set_pStream List.length]; try rewrite Es; cbn [List.length]; lia.

(** The signature: four characters, or an early return that is not
    [CT_MTHD] and leaves [_bytesLeft] alone. *)
Lemma openChunk_sig_spec (s : MidiFileStream) :
  match _pStream s with
  | a :: b :: c :: d :: rest =>
      openChunk_sig 4 0 [] s
      = (inr [cast_char (byte_val a); cast_char (byte_val b);
              cast_char (byte_val c); cast_char (byte_val d)],
         set_pStream rest s)
  | _ =>
      exists t s',
        openChunk_sig 4 0 [] s = (inl t, s')
        /\ (t = CT_END \/ t = CT_UNK)
        /\ _bytesLeft s' = _bytesLeft s
        /\ (List.length (_pStream s') <= List.length (_pStream s))%nat
  end.
Proof.
  destruct (_pStream s) as [|a [|b [|c [|d rest]]]] eqn:Es.
  - cbn [openChunk_sig]. rewrite (stream_read_nil s Es).
    change (-1 <? 0) with true. change (0 =? 0) with true. cbv iota.
    early_return Es.
  - cbn [openChunk_sig]. rewrite (stream_read_cons s a [] Es), byte_val_ltb0.
    rewrite (stream_read_nil (set_pStream [] s)) by reflexivity.
    change (-1 <? 0) with true. change (0 + 1 =? 0) with false. cbv iota.
    early_return Es.
  - cbn [openChunk_sig]. rewrite (stream_read_cons s a [b] Es), byte_val_ltb0.
    rewrite (stream_read_cons (set_pStream [b] s) b []) by reflexivity.
    rewrite byte_val_ltb0.
    rewrite (stream_read_nil (set_pStream [] (set_pStream [b] s))) by reflexivity.
    change (-1 <? 0) with true. change (0 + 1 + 1 =? 0) with false. cbv iota.
    early_return Es.
  - cbn [openChunk_sig]. rewrite (stream_read_cons s a [b; c] Es), byte_val_ltb0.
    rewrite (stream_read_cons (set_pStream [b; c] s) b [c]) by reflexivity.
    rewrite byte_val_ltb0.
    rewrite (stream_read_cons (set_pStream [c] (set_pStream [b; c] s)) c [])
      by reflexivity.
    rewrite byte_val_ltb0.
    rewrite (stream_read_nil
               (set_pStream [] (set_pStream [c] (set_pStream [b; c] s))))
      by reflexivity.
    change (-1 <? 0) with true. change (0 + 1 + 1 + 1 =? 0) with false. cbv iota.
    early_return Es.
  - cbn [openChunk_sig].
    rewrite (stream_read_cons s a (b :: c :: d :: rest) Es), byte_val_ltb0.
    rewrite (stream_read_cons (set_pStream (b :: c :: d :: rest) s) b (c :: d :: rest))
      by reflexivity.
    rewrite byte_val_ltb0.
    rewrite (stream_read_cons
               (set_pStream (c :: d :: rest) (set_pStream (b :: c :: d :: rest) s))
               c (d :: rest)) by reflexivity.
    rewrite byte_val_ltb0.
    rewrite (stream_read_cons
               (set_pStream (d :: rest)
                  (set_pStream (c :: d :: rest) (set_pStream (b :: c :: d :: rest) s)))
               d rest) by reflexivity.
    rewrite byte_val_ltb0. cbn [app]. reflexivity.
Qed.

(** When [openChunk] answers [CT_MTHD], the stream began with "MThd" and
    four bytes of length; the budget is that length, which fits a
    [long]. *)
Lemma openChunk_header (s : MidiFileStream) :
  fst (openChunk s) = CT_MTHD ->
  exists l1 l2 l3 l4 rest,
    _pStream s = x4d :: x54 :: x68 :: x64 :: l1 :: l2 :: l3 :: l4 :: rest
    /\ _pStream (snd (openChunk s)) = rest
    /\ _bytesLeft (snd (openChunk s)) = declared_length l1 l2 l3 l4
    /\ declared_length l1 l2 l3 l4 < 2147483648.
Proof.
  unfold openChunk. cbv zeta.
  set (s0 := set_eventDeltaTicks (-1)
               (set_eventType ET_UNK (set_runningStatus 0 (set_bytesLeft (-1) s)))).
  pose proof (openChunk_sig_spec s0) as Hsig.
  change (_pStream s0) with (_pStream s) in Hsig.
  destruct (_pStream s) as [|a [|b [|c [|d rest]]]] eqn:Es;
    try (destruct Hsig as (t & s' & -> & [-> | ->] & _); cbn [fst]; discriminate).
  rewrite Hsig. clear Hsig.
  set (s1 := set_bytesLeft 4 (set_pStream rest s0)).
  destruct rest as [|l1 [|l2 [|l3 [|l4 rest]]]];
    try (pose proof (readFixedLong_loop_short 4 0 s1 ltac:(unfold s1; simpl; lia))
           as Hshort;
         change (readFixedLong_loop 4 0 s1) with (readFixedLong 4 s1) in Hshort;
         destruct (readFixedLong 4 s1) as [r s2]; cbn [fst] in Hshort; subst r;
         proj; change (-1 <? 0) with true; cbn [fst]; discriminate).
  rewrite (readFixedLong_4 s1 l1 l2 l3 l4 rest) by (try reflexivity; simpl; lia).
  fold (declared_length l1 l2 l3 l4).
  pose proof (byte_val_range l1). pose proof (byte_val_range l2).
  pose proof (byte_val_range l3). pose proof (byte_val_range l4).
  assert (Hd : 0 <= declared_length l1 l2 l3 l4 < 4294967296)
    by (unfold declared_length; lia).
  proj.
  destruct (cast_long (declared_length l1 l2 l3 l4) <? 0) eqn:Eneg;
    [cbn [fst]; discriminate |].
  zb Eneg.
  destruct (cast_long_cases _ Hd) as [[L E] | [G E]]; [| lia].
  cbn [sig_compare mthd mtrk].
  destruct (cast_char (byte_val a) =? 77) eqn:Ea;
    [apply sig_char in Ea; [| lia]
    | change (0 =? 4) with false; cbv iota;
      repeat match goal with
             | |- context [if ?c then _ else _] => destruct c
             end; cbn [fst]; discriminate ].
  destruct (cast_char (byte_val b) =? 84) eqn:Eb;
    [apply sig_char in Eb; [| lia]
    | change (0 + 1 =? 4) with false; cbv iota;
      repeat match goal with
             | |- context [if ?c then _ else _] => destruct c
             end; cbn [fst]; discriminate ].
  destruct (cast_char (byte_val c) =? 104) eqn:Ec;
    [apply sig_char in Ec; [| lia]
    | change (0 + 1 + 1 =? 4) with false; cbv iota;
      repeat match goal with
             | |- context [if ?c then _ else _] => destruct c
             end; cbn [fst]; discriminate ].
  destruct (cast_char (byte_val d) =? 100) eqn:Ed;
    [apply sig_char in Ed; [| lia]
    | change (0 + 1 + 1 + 1 =? 4) with false; cbv iota;
      repeat match goal with
             | |- context [if ?c then _ else _] => destruct c
             end; cbn [fst]; discriminate ].
  change (0 + 1 + 1 + 1 + 1 =? 4) with true. cbv iota. cbn [fst snd].
  intros _. exists l1, l2, l3, l4, rest. subst a b c d.
  repeat split; try reflexivity; [proj; rewrite E; reflexivity | lia].
Qed.

(** ** begin *)

Lemma cast_int_nonneg (v : Z) :
  0 <= v < 65536 -> (cast_int v <? 0) = false -> v < 32768 /\ cast_int v = v.
Proof.
  intros Hv E. zb E. destruct (Z_lt_ge_dec v 32768) as [L | G].
  - split; [exact L | apply cast_int_id; lia].
  - rewrite cast_int_high in E by lia. lia.
Qed.

(** One 16-bit field of the header, read from an object [x] whose
    stream and budget are known: either the call of [begin] fails there,
    or the field was read and is not negative as an [int]. *)
Lemma begin_field (x : MidiFileStream) :
  2 <= _bytesLeft x ->
  (fst (readFixedLong 2 x) = -1)
  \/ (exists b1 b2 rest,
         _pStream x = b1 :: b2 :: rest
         /\ readFixedLong 2 x = (byte_val b1 * 256 + byte_val b2, advance 2 x)
         /\ 0 <= byte_val b1 * 256 + byte_val b2 < 65536).
Proof.
  intros Hb. destruct (_pStream x) as [|b1 [|b2 rest]] eqn:Es.
  - left. apply readFixedLong_loop_short. rewrite Es. simpl. lia.
  - left. apply readFixedLong_loop_short. rewrite Es. simpl. lia.
  - right. exists b1, b2, rest. split; [reflexivity |].
    split; [apply (readFixedLong_2 x b1 b2 rest Es Hb) |].
    pose proof (byte_val_range b1). pose proof (byte_val_range b2). lia.
Qed.

(** What a successful [begin] has read. *)
Lemma begin_true (stream : list byte) (s : MidiFileStream) :
  fst (begin stream s) = true ->
  exists l1 l2 l3 l4 f1 f2 t1 t2 d1 d2 rest,
    stream = x4d :: x54 :: x68 :: x64 :: l1 :: l2 :: l3 :: l4
               :: f1 :: f2 :: t1 :: t2 :: d1 :: d2 :: rest
    /\ declared_length l1 l2 l3 l4 = 6
    /\ getFormat (snd (begin stream s)) = byte_val f1 * 256 + byte_val f2
    /\ getNumTracks (snd (begin stream s)) = byte_val t1 * 256 + byte_val t2
    /\ getTicksPerBeat (snd (begin stream s)) = byte_val d1 * 256 + byte_val d2
    /\ byte_val f1 * 256 + byte_val f2 < 32768
    /\ byte_val t1 * 256 + byte_val t2 < 32768
    /\ byte_val d1 * 256 + byte_val d2 < 32768
    /\ _pStream (snd (begin stream s)) = rest
    /\ _bytesLeft (snd (begin stream s)) = 0.
Proof.
  unfold begin. cbv zeta.
  set (s0 := set_eventDeltaTicks (-1) (set_eventType ET_UNK (set_runningStatus 0
               (set_ticksPerBeat 0 (set_numTracks (-1) (set_format (-1)
                  (set_bytesLeft (-1) (set_pStream stream s)))))))).
  pose proof (openChunk_header s0) as Hh.
  destruct (openChunk s0) as [ct s1]. cbn [fst snd] in Hh.
  destruct (ct =? CT_MTHD) eqn:Ect; cbn [negb]; [| cbn [fst]; discriminate].
  zb Ect. destruct (Hh Ect) as (l1 & l2 & l3 & l4 & rest & Hs0 & Hs1 & Hb1 & _).
  change (_pStream s0) with stream in Hs0. clear Hh.
  destruct (_bytesLeft s1 =? 6) eqn:E6; cbn [negb]; [| cbn [fst]; discriminate].
  zb E6.
  (* format *)
  destruct (begin_field s1 ltac:(lia)) as [Hf | (f1 & f2 & rest1 & Hr1 & Hf & Rf)].
  { destruct (readFixedLong 2 s1) as [r x]. cbn [fst] in Hf. subst r.
    proj. change (cast_int (-1) <? 0) with true. cbn [fst]. discriminate. }
  rewrite Hf. proj.
  destruct (cast_int (byte_val f1 * 256 + byte_val f2) <? 0) eqn:Ef;
    [cbn [fst]; discriminate |].
  destruct (cast_int_nonneg _ Rf Ef) as [Lf Cf].
  (* number of tracks *)
  set (x1 := set_format _ _).
  destruct (begin_field x1 ltac:(unfold x1; proj; lia))
    as [Ht | (t1 & t2 & rest2 & Hr2 & Ht & Rt)].
  { destruct (readFixedLong 2 x1) as [r x]. cbn [fst] in Ht. subst r.
    proj. change (cast_int (-1) <? 0) with true. cbn [fst]. discriminate. }
  rewrite Ht. proj.
  destruct (cast_int (byte_val t1 * 256 + byte_val t2) <? 0) eqn:Et;
    [cbn [fst]; discriminate |].
  destruct (cast_int_nonneg _ Rt Et) as [Lt Ct].
  (* ticks per beat *)
  set (x2 := set_numTracks _ _).
  destruct (begin_field x2 ltac:(unfold x2, x1; proj; lia))
    as [Hd | (d1 & d2 & rest3 & Hr3 & Hd & Rd)].
  { destruct (readFixedLong 2 x2) as [r x]. cbn [fst] in Hd. subst r.
    proj. change (cast_int (-1) <? 0) with true. cbn [fst]. discriminate. }
  rewrite Hd. proj.
  destruct (cast_int (byte_val d1 * 256 + byte_val d2) <? 0) eqn:Ed;
    [cbn [fst]; discriminate |].
  destruct (cast_int_nonneg _ Rd Ed) as [Ld Cd].
  unfold x2, x1 in *. proj.
  rewrite Hr1 in Hs1, Hr2, Hr3. cbn [skipn] in Hr2, Hr3.
  subst rest rest1. cbn [skipn] in Hr3. subst rest2.
  change (Z.of_nat 2) with 2 in *.
  destruct (_bytesLeft s1 - 2 - 2 - 2 >? 0) eqn:Eb; [zb Eb; lia |].
  cbn [fst snd]. intros _.
  exists l1, l2, l3, l4, f1, f2, t1, t2, d1, d2, rest3.
  unfold getFormat, getNumTracks, getTicksPerBeat. proj.
  rewrite Hr1. cbn [skipn].
  repeat split; try assumption; try lia.
Qed.

(** [openChunk] on a stream that holds a whole chunk header whose length
    fits a [long]: the eight bytes are consumed, the budget is the
    declared length, and the signature decides the type. *)
Lemma openChunk_budget (s : MidiFileStream) (a b c d l1 l2 l3 l4 : byte)
    (rest : list byte) :
  _pStream s = a :: b :: c :: d :: l1 :: l2 :: l3 :: l4 :: rest ->
  declared_length l1 l2 l3 l4 < 2147483648 ->
  let sig := [cast_char (byte_val a); cast_char (byte_val b);
              cast_char (byte_val c); cast_char (byte_val d)] in
  fst (openChunk s)
  = (if sig_compare 0 sig mthd =? 4 then CT_MTHD
     else if sig_compare 0 sig mtrk =? 4 then CT_MTRK else CT_UNK)
  /\ _pStream (snd (openChunk s)) = rest
  /\ _bytesLeft (snd (openChunk s)) = declared_length l1 l2 l3 l4.
Proof.
  intros Hs Hlen sig. unfold openChunk. cbv zeta.
  set (s0 := set_eventDeltaTicks (-1)
               (set_eventType ET_UNK (set_runningStatus 0 (set_bytesLeft (-1) s)))).
  pose proof (openChunk_sig_spec s0) as Hsig.
  change (_pStream s0) with (_pStream s) in Hsig. rewrite Hs in Hsig.
  rewrite Hsig. clear Hsig.
  rewrite (readFixedLong_4 _ l1 l2 l3 l4 rest) by (try reflexivity; simpl; lia).
  fold (declared_length l1 l2 l3 l4).
  pose proof (byte_val_range l1). pose proof (byte_val_range l2).
  pose proof (byte_val_range l3). pose proof (byte_val_range l4).
  assert (Hd : 0 <= declared_length l1 l2 l3 l4) by (unfold declared_length; lia).
  rewrite cast_long_id by lia. proj.
  destruct (declared_length l1 l2 l3 l4 <? 0) eqn:E; [zb E; lia | clear E].
  fold sig.
  destruct (sig_compare 0 sig mthd =? 4); [now repeat split |].
  destruct (sig_compare 0 sig mtrk =? 4); now repeat split.
Qed.

(** [begin] on a stream that opens with a header chunk of length 6: the
    three fields are read in turn, each as a 16-bit [int]; the first
    that comes out negative stops the call. *)
Lemma begin_header (s : MidiFileStream) (f1 f2 t1 t2 d1 d2 : byte) (rest : list byte) :
  let stream := [x4d; x54; x68; x64; x00; x00; x00; x06; f1; f2; t1; t2; d1; d2] ++ rest in
  let format := byte_val f1 * 256 + byte_val f2 in
  let numTracks := byte_val t1 * 256 + byte_val t2 in
  let ticksPerBeat := byte_val d1 * 256 + byte_val d2 in
  format < 32768 -> numTracks < 32768 ->
  fst (begin stream s) = (ticksPerBeat <? 32768)
  /\ getFormat (snd (begin stream s)) = format
  /\ getNumTracks (snd (begin stream s)) = numTracks
  /\ getTicksPerBeat (snd (begin stream s)) = cast_int ticksPerBeat
  /\ _pStream (snd (begin stream s)) = rest
  /\ _bytesLeft (snd (begin stream s)) = 0.
Proof.
  intros stream format numTracks ticksPerBeat Hf Ht.
  pose proof (byte_val_range f1). pose proof (byte_val_range f2).
  pose proof (byte_val_range t1). pose proof (byte_val_range t2).
  pose proof (byte_val_range d1). pose proof (byte_val_range d2).
  unfold begin. cbv zeta.
  set (s0 := set_eventDeltaTicks (-1) (set_eventType ET_UNK (set_runningStatus 0
               (set_ticksPerBeat 0 (set_numTracks (-1) (set_format (-1)
                  (set_bytesLeft (-1) (set_pStream stream s)))))))).
  destruct (openChunk_budget s0 x4d x54 x68 x64 x00 x00 x00 x06
              (f1 :: f2 :: t1 :: t2 :: d1 :: d2 :: rest))
    as (Hct & Hs1 & Hb1); [reflexivity | vm_compute; reflexivity |].
  cbv zeta in Hct.
  change (sig_compare 0 _ mthd =? 4) with true in Hct. cbv iota in Hct.
  change (declared_length x00 x00 x00 x06) with 6 in Hb1.
  destruct (openChunk s0) as [ct s1]. cbn [fst snd] in Hct, Hs1, Hb1. subst ct.
  change (negb (CT_MTHD =? CT_MTHD)) with false. cbv iota.
  rewrite Hb1. change (negb (6 =? 6)) with false. cbv iota.
  rewrite (readFixedLong_2 s1 f1 f2 (t1 :: t2 :: d1 :: d2 :: rest) Hs1) by lia.
  fold format. rewrite (cast_int_id format) by (unfold format; lia). proj.
  destruct (format <? 0) eqn:E; [zb E; unfold format in E; lia | clear E].
  rewrite (readFixedLong_2 _ t1 t2 (d1 :: d2 :: rest));
    [| proj; rewrite Hs1; reflexivity | proj; lia].
  fold numTracks. rewrite (cast_int_id numTracks) by (unfold numTracks; lia). proj.
  destruct (numTracks <? 0) eqn:E; [zb E; unfold numTracks in E; lia | clear E].
  rewrite (readFixedLong_2 _ d1 d2 rest);
    [| proj; rewrite Hs1; reflexivity | proj; lia].
  fold ticksPerBeat. proj. rewrite Hb1.
  change (6 - Z.of_nat 2 - Z.of_nat 2 - Z.of_nat 2 >? 0) with false. cbv iota.
  unfold getFormat, getNumTracks, getTicksPerBeat.
  destruct (Z_lt_ge_dec ticksPerBeat 32768) as [L | G].
  - rewrite (cast_int_id ticksPerBeat) by (unfold ticksPerBeat in *; lia).
    destruct (ticksPerBeat <? 0) eqn:E; [zb E; unfold ticksPerBeat in E; lia | clear E].
    destruct (ticksPerBeat <? 32768) eqn:E; [clear E | zb E; lia].
    proj. rewrite Hs1, Hb1. repeat split.
  - rewrite (cast_int_high ticksPerBeat) by (unfold ticksPerBeat in *; lia).
    destruct (ticksPerBeat - 65536 <? 0) eqn:E;
      [clear E | zb E; unfold ticksPerBeat in E; lia].
    destruct (ticksPerBeat <? 32768) eqn:E; [zb E; lia | clear E].
    proj. rewrite Hs1, Hb1. repeat split.
Qed.

(** C7. [begin] answers false when the stream does not open with the
    signature MThd, when the declared length of the first chunk is not 6,
    and when the stream ends before the three 16-bit fields are read
    (fewer than 14 bytes in all).  When it answers true, [getFormat],
    [getNumTracks] and [getTicksPerBeat] are the three big-endian values
    of the six bytes that follow the chunk header. *)
Theorem begin_validates_header :
  (forall (stream : list byte) (s : MidiFileStream),
      firstn 4 stream <> [x4d; x54; x68; x64] ->
      fst (begin stream s) = false)
  /\ (forall (stream : list byte) (s : MidiFileStream)
             (sig : list byte) (l1 l2 l3 l4 : byte) (rest : list byte),
      stream = sig ++ l1 :: l2 :: l3 :: l4 :: rest ->
      List.length sig = 4%nat ->
      declared_length l1 l2 l3 l4 <> 6 ->
      fst (begin stream s) = false)
  /\ (forall (stream : list byte) (s : MidiFileStream),
      (List.length stream < 14)%nat ->
      fst (begin stream s) = false)
  /\ (forall (stream : list byte) (s : MidiFileStream)
             (hdr : list byte) (f1 f2 t1 t2 d1 d2 : byte) (rest : list byte),
      stream = hdr ++ f1 :: f2 :: t1 :: t2 :: d1 :: d2 :: rest ->
      List.length hdr = 8%nat ->
      fst (begin stream s) = true ->
      getFormat (snd (begin stream s)) = byte_val f1 * 256 + byte_val f2
      /\ getNumTracks (snd (begin stream s)) = byte_val t1 * 256 + byte_val t2
      /\ getTicksPerBeat (snd (begin stream s)) = byte_val d1 * 256 + byte_val d2).
Proof.
  split; [| split; [| split]].
  - intros stream s Hsig.
    destruct (fst (begin stream s)) eqn:E; [exfalso | reflexivity].
    destruct (begin_true stream s E) as (l1 & l2 & l3 & l4 & f1 & f2 & t1 & t2 & d1 & d2
                                         & rest & -> & _).
    apply Hsig. reflexivity.
  - intros stream s sig l1 l2 l3 l4 rest Hs Hsig Hlen.
    destruct (fst (begin stream s)) eqn:E; [exfalso | reflexivity].
    destruct (begin_true stream s E) as (l1' & l2' & l3' & l4' & f1 & f2 & t1 & t2 & d1 & d2
                                         & rest' & Hs' & H6 & _).
    destruct sig as [|a [|b [|c [|d [|e sig]]]]]; try discriminate Hsig.
    rewrite Hs' in Hs. cbn [app] in Hs.
    injection Hs as _ _ _ _ -> -> -> -> _. contradiction.
  - intros stream s Hshort.
    destruct (fst (begin stream s)) eqn:E; [exfalso | reflexivity].
    destruct (begin_true stream s E) as (l1 & l2 & l3 & l4 & f1 & f2 & t1 & t2 & d1 & d2
                                         & rest & -> & _).
    simpl in Hshort. lia.
  - intros stream s hdr f1 f2 t1 t2 d1 d2 rest Hs Hhdr E.
    destruct (begin_true stream s E) as (l1 & l2 & l3 & l4 & f1' & f2' & t1' & t2' & d1'
                                         & d2' & rest' & Hs' & _ & Hf & Ht & Hd & _).
    destruct hdr as [|h1 [|h2 [|h3 [|h4 [|h5 [|h6 [|h7 [|h8 [|h9 hdr]]]]]]]]];
      try discriminate Hhdr.
    rewrite Hs' in Hs. cbn [app] in Hs.
    injection Hs as _ _ _ _ _ _ _ _ -> -> -> -> -> -> _.
    auto.
Qed.

Lemma begin_validates_header_witness :
  fst (begin [x4d; x54; x72; x6b; x00; x00; x00; x06; x00; x01; x00; x02; x01; xe0] closed)
  = false
  /\ fst (begin [x4d; x54; x68; x64; x00; x00; x00; x07; x00; x01; x00; x02; x01; xe0; x00]
            closed) = false
  /\ fst (begin [x4d; x54; x68; x64; x00; x00; x00; x06; x00; x01; x00; x02; x01] closed)
     = false
  /\ (getFormat (snd (begin [x4d; x54; x68; x64; x00; x00; x00; x06;
                             x00; x01; x00; x02; x01; xe0; x4d] closed))
      = byte_val x00 * 256 + byte_val x01
      /\ getNumTracks (snd (begin [x4d; x54; x68; x64; x00; x00; x00; x06;
                                   x00; x01; x00; x02; x01; xe0; x4d] closed))
         = byte_val x00 * 256 + byte_val x02
      /\ getTicksPerBeat (snd (begin [x4d; x54; x68; x64; x00; x00; x00; x06;
                                      x00; x01; x00; x02; x01; xe0; x4d] closed))
         = byte_val x01 * 256 + byte_val xe0).
Proof.
  destruct begin_validates_header as (Hsig & Hlen & Hshort & Hvalues).
  split; [| split; [| split]].
  - apply Hsig. simpl. discriminate.
  - apply (Hlen _ closed [x4d; x54; x68; x64] x00 x00 x00 x07
             [x00; x01; x00; x02; x01; xe0; x00]).
    + reflexivity.
    + reflexivity.
    + vm_compute. discriminate.
  - apply Hshort. simpl. lia.
  - apply (Hvalues _ closed [x4d; x54; x68; x64; x00; x00; x00; x06]
             x00 x01 x00 x02 x01 xe0 [x4d]).
    + reflexivity.
    + reflexivity.
    + vm_compute. reflexivity.
Defined.

(** A well-formed header is accepted with the values it carries. *)
Lemma begin_accepts (s : MidiFileStream) (f1 f2 t1 t2 d1 d2 : byte) (rest : list byte) :
  byte_val f1 < 128 -> byte_val t1 < 128 -> byte_val d1 < 128 ->
  exists s',
    begin ([x4d; x54; x68; x64; x00; x00; x00; x06; f1; f2; t1; t2; d1; d2] ++ rest) s
    = (true, s')
    /\ getFormat s' = byte_val f1 * 256 + byte_val f2
    /\ getNumTracks s' = byte_val t1 * 256 + byte_val t2
    /\ getTicksPerBeat s' = byte_val d1 * 256 + byte_val d2
    /\ _pStream s' = rest.
Proof.
  intros Hf Ht Hd.
  pose proof (byte_val_range f2). pose proof (byte_val_range t2).
  pose proof (byte_val_range d2). pose proof (byte_val_range d1).
  assert (Lf : byte_val f1 * 256 + byte_val f2 < 32768) by lia.
  assert (Lt : byte_val t1 * 256 + byte_val t2 < 32768) by lia.
  destruct (begin_header s f1 f2 t1 t2 d1 d2 rest Lf Lt)
    as (E & Ef & Et & Ed & Es & _).
  destruct (begin _ s) as [r s']. cbn [fst snd] in *.
  exists s'. rewrite cast_int_id in Ed by lia.
  repeat split; try assumption. f_equal. rewrite E.
  destruct (byte_val d1 * 256 + byte_val d2 <? 32768) eqn:E'; [reflexivity | zb E'; lia].
Qed.

(** C8. A header whose division field has its top bit set (the SMPTE
    form, 0x8000..0xFFFF) is rejected: [begin] answers false.  The test
    that rejects it is the one on [_ticksPerBeat]: as a 16-bit [int]
    such a field is negative. *)
Theorem begin_rejects_smpte_division :
  (forall (stream : list byte) (s : MidiFileStream)
          (hdr : list byte) (f1 f2 t1 t2 d1 d2 : byte) (rest : list byte),
      stream = hdr ++ f1 :: f2 :: t1 :: t2 :: d1 :: d2 :: rest ->
      List.length hdr = 8%nat ->
      0x8000 <= byte_val d1 * 256 + byte_val d2 <= 0xFFFF ->
      fst (begin stream s) = false)
  /\ (forall (s : MidiFileStream) (f1 f2 t1 t2 d1 d2 : byte) (rest : list byte),
      byte_val f1 * 256 + byte_val f2 < 0x8000 ->
      byte_val t1 * 256 + byte_val t2 < 0x8000 ->
      0x8000 <= byte_val d1 * 256 + byte_val d2 <= 0xFFFF ->
      let r := begin ([x4d; x54; x68; x64; x00; x00; x00; x06;
                       f1; f2; t1; t2; d1; d2] ++ rest) s in
      fst r = false
      /\ getTicksPerBeat (snd r) = byte_val d1 * 256 + byte_val d2 - 65536
      /\ getTicksPerBeat (snd r) < 0).
Proof.
  split.
  - intros stream s hdr f1 f2 t1 t2 d1 d2 rest Hs Hhdr Hdiv.
    destruct (fst (begin stream s)) eqn:E; [exfalso | reflexivity].
    destruct (begin_true stream s E) as (l1 & l2 & l3 & l4 & f1' & f2' & t1' & t2' & d1'
                                         & d2' & rest' & Hs' & _ & _ & _ & _ & _ & _ & Hd & _).
    destruct hdr as [|h1 [|h2 [|h3 [|h4 [|h5 [|h6 [|h7 [|h8 [|h9 hdr]]]]]]]]];
      try discriminate Hhdr.
    rewrite Hs' in Hs. cbn [app] in Hs.
    injection Hs as _ _ _ _ _ _ _ _ _ _ _ _ -> -> _.
    lia.
  - intros s f1 f2 t1 t2 d1 d2 rest Hf Ht Hdiv r.
    assert (Lf : byte_val f1 * 256 + byte_val f2 < 32768) by lia.
    assert (Lt : byte_val t1 * 256 + byte_val t2 < 32768) by lia.
    destruct (begin_header s f1 f2 t1 t2 d1 d2 rest Lf Lt)
      as (E & _ & _ & Ed & _).
    fold r in E, Ed. rewrite E, Ed, cast_int_high by lia.
    repeat split; lia.
Qed.

Lemma begin_rejects_smpte_division_witness :
  fst (begin [x4d; x54; x68; x64; x00; x00; x00; x06; x00; x01; x00; x02; xe7; x28; x4d]
         closed) = false
  /\ (let r := begin ([x4d; x54; x68; x64; x00; x00; x00; x06;
                       x00; x01; x00; x02; xe7; x28] ++ [x4d]) closed in
      fst r = false
      /\ getTicksPerBeat (snd r) = byte_val xe7 * 256 + byte_val x28 - 65536
      /\ getTicksPerBeat (snd r) < 0).
Proof.
  destruct begin_rejects_smpte_division as (Hany & Hcheck).
  split.
  - apply (Hany _ closed [x4d; x54; x68; x64; x00; x00; x00; x06]
             x00 x01 x00 x02 xe7 x28 [x4d]).
    + reflexivity.
    + reflexivity.
    + vm_compute. split; discriminate.
  - apply (Hcheck closed x00 x01 x00 x02 xe7 x28 [x4d]).
    + vm_compute. reflexivity.
    + vm_compute. reflexivity.
    + vm_compute. split; discriminate.
Defined.

(** C10. The budget of the chunk.  [readChunkByte] reads nothing and
    answers -1 when [_bytesLeft] is zero or less; otherwise it takes one
    from [_bytesLeft] and at most the next byte from the stream.  Hence
    [readFixedLong], [readVariableLong], [readVariableBytes] and
    [readEvent] all stay within the budget: the bytes they take from the
    stream are no more than [_bytesLeft] went down, and [_bytesLeft] does
    not pass zero; so no more than the [_bytesLeft] bytes of the open
    chunk are ever read.  [openChunk] sets that budget from the declared
    length of the chunk. *)
Theorem chunk_budget_is_respected :
  (forall s : MidiFileStream,
      _bytesLeft s <= 0 -> readChunkByte s = (-1, s))
  /\ (forall s : MidiFileStream,
      0 < _bytesLeft s ->
      _bytesLeft (snd (readChunkByte s)) = _bytesLeft s - 1
      /\ _pStream (snd (readChunkByte s)) = tl (_pStream s))
  /\ (forall (numBytes : Z) (s : MidiFileStream),
      within_budget s (snd (readFixedLong numBytes s)))
  /\ (forall s : MidiFileStream,
      within_budget s (snd (readVariableLong s)))
  /\ (forall (length : Z) (pBuffer : list Z) (s : MidiFileStream),
      Z.of_nat (List.length pBuffer) = EV_BUFFER_SIZE ->
      exists r pBuffer' s',
        readVariableBytes length pBuffer s = Some (r, pBuffer', s')
        /\ within_budget s s')
  /\ (forall s : MidiFileStream,
      buffer_ok s ->
      exists r s', readEvent s = Some (r, s') /\ within_budget s s')
  /\ (forall s s' : MidiFileStream,
      within_budget s s' ->
      Z.of_nat (List.length (_pStream s)) - Z.of_nat (List.length (_pStream s'))
      <= Z.max 0 (_bytesLeft s)
      /\ (0 <= _bytesLeft s -> 0 <= _bytesLeft s'))
  /\ (forall (s : MidiFileStream) (a b c d l1 l2 l3 l4 : byte) (rest : list byte),
      _pStream s = a :: b :: c :: d :: l1 :: l2 :: l3 :: l4 :: rest ->
      declared_length l1 l2 l3 l4 < 2 ^ 31 ->
      _bytesLeft (snd (openChunk s)) = declared_length l1 l2 l3 l4
      /\ _pStream (snd (openChunk s)) = rest).
Proof.
  split; [exact readChunkByte_exhausted |].
  split.
  { intros s Hb.
    destruct (readChunkByte_cases s) as [[H _]|[(_ & Hs & E)|(b & rest & _ & Hs & E)]];
      [lia | |]; rewrite E, Hs; proj; [auto | rewrite Hs; split; [lia | reflexivity]]. }
  split; [exact readFixedLong_within_budget |].
  split; [exact readVariableLong_within_budget |].
  split.
  { intros length pBuffer s Hlen.
    destruct (readVariableBytes_safe length pBuffer s Hlen)
      as (r & buf' & s' & E & _ & _ & W & _).
    exists r, buf', s'. auto. }
  split.
  { intros s Hok. destruct (readEvent_step s Hok) as (r & s' & E & W & _).
    exists r, s'. auto. }
  split.
  { intros s s' (taken & E & L & M). rewrite E, length_app. lia. }
  intros s a b c d l1 l2 l3 l4 rest Hs Hlen.
  destruct (openChunk_budget s a b c d l1 l2 l3 l4 rest Hs Hlen) as (_ & P & B).
  auto.
Qed.

Lemma chunk_budget_is_respected_witness :
  readChunkByte (in_chunk [x00; x90] 0) = (-1, in_chunk [x00; x90] 0)
  /\ (_bytesLeft (snd (readChunkByte (in_chunk [x00; x90] 1))) = 1 - 1
      /\ _pStream (snd (readChunkByte (in_chunk [x00; x90] 1))) = tl [x00; x90])
  /\ (exists r s',
        readEvent (in_chunk [x00; x90; x40; x7f] 3) = Some (r, s')
        /\ within_budget (in_chunk [x00; x90; x40; x7f] 3) s')
  /\ (_bytesLeft (snd (openChunk (in_chunk [x4d; x54; x72; x6b; x00; x00; x01; x02; x00] 0)))
      = declared_length x00 x00 x01 x02
      /\ _pStream (snd (openChunk
                          (in_chunk [x4d; x54; x72; x6b; x00; x00; x01; x02; x00] 0)))
         = [x00]).
Proof.
  destruct chunk_budget_is_respected as (Hzero & Hone & _ & _ & _ & Hev & _ & Hopen).
  split; [| split; [| split]].
  - apply Hzero. simpl. lia.
  - apply (Hone (in_chunk [x00; x90] 1)). simpl. lia.
  - apply Hev. reflexivity.
  - apply (Hopen _ x4d x54 x72 x6b x00 x00 x01 x02 [x00]).
    + reflexivity.
    + vm_compute. reflexivity.
Defined.

(** * Further properties of the reader *)

(** ** What can still be read *)

Lemma readable_nonneg (s : MidiFileStream) : 0 <= readable s.
Proof. unfold readable. lia. Qed.

Lemma readChunkByte_readable (s : MidiFileStream) :
  0 < readable s ->
  exists b rest,
    _pStream s = b :: rest /\ 0 < _bytesLeft s
    /\ readChunkByte s = (byte_val b, advance 1 s)
    /\ readable (advance 1 s) = readable s - 1.
Proof.
  unfold readable. intros H.
  destruct (_pStream s) as [|b rest] eqn:Es; [simpl in H; lia |].
  exists b, rest. split; [reflexivity |]. split; [lia |].
  split; [apply (readChunkByte_cons s b rest); [lia | exact Es] |].
  rewrite advance_pStream, advance_bytesLeft, Es. cbn [skipn List.length].
  lia.
Qed.

Lemma readChunkByte_unreadable (s : MidiFileStream) :
  readable s <= 0 ->
  fst (readChunkByte s) = -1 /\ readable (snd (readChunkByte s)) = 0.
Proof.
  unfold readable. intros H.
  destruct (readChunkByte_cases s) as [[Hb E]|[(Hb & Hs & E)|(b & rest & Hb & Hs & E)]];
    rewrite E; cbn [fst snd].
  - split; [reflexivity | lia].
  - split; [reflexivity |]. proj. rewrite Hs. simpl. lia.
  - rewrite Hs in H. simpl in H. lia.
Qed.

(** ** readFixedLong: big-endian numbers *)

Lemma be_value_app (acc : Z) (bs cs : list byte) :
  be_value acc (bs ++ cs) = be_value (be_value acc bs) cs.
Proof. unfold be_value. apply fold_left_app. Qed.

Lemma be_value_ge (bs : list byte) :
  forall acc, 0 <= acc -> acc <= be_value acc bs.
Proof.
  induction bs as [|b bs IH]; intros acc H; simpl; [lia |].
  pose proof (byte_val_range b). etransitivity; [| apply IH]; lia.
Qed.

Lemma be_value_bound (bs : list byte) :
  forall acc, 0 <= acc ->
    be_value acc bs < (acc + 1) * 256 ^ Z.of_nat (List.length bs).
Proof.
  induction bs as [|b bs IH]; intros acc H.
  - simpl. lia.
  - cbn [be_value fold_left List.length].
    fold (be_value (acc * 256 + byte_val b) bs).
    pose proof (byte_val_range b).
    rewrite Nat2Z.inj_succ, Z.pow_succ_r by lia.
    pose proof (IH (acc * 256 + byte_val b) ltac:(lia)) as IHb.
    assert (0 < 256 ^ Z.of_nat (List.length bs)) by (apply Z.pow_pos_nonneg; lia).
    nia.
Qed.

Lemma readFixedLong_loop_decode (bs : list byte) :
  forall result s rest,
    _pStream s = bs ++ rest ->
    Z.of_nat (List.length bs) <= _bytesLeft s ->
    0 <= result ->
    be_value result bs < 2147483648 ->
    readFixedLong_loop (List.length bs) result s
    = (be_value result bs, advance (List.length bs) s).
Proof.
  induction bs as [|b bs IH]; intros result s rest Hs Hb Hr Hv.
  - cbn [List.length readFixedLong_loop be_value fold_left]. now rewrite advance_0.
  - cbn [List.length] in Hb |- *. cbn [app] in Hs.
    rewrite (readFixedLong_loop_cons _ result s b (bs ++ rest)) by (try assumption; lia).
    pose proof (byte_val_range b) as Rb.
    cbn [be_value fold_left] in Hv |- *.
    fold (be_value (result * 256 + byte_val b) bs) in Hv |- *.
    pose proof (be_value_ge bs (result * 256 + byte_val b) ltac:(lia)).
    rewrite fixed_step by lia. rewrite cast_long_id by lia.
    rewrite (IH _ _ rest); try lia.
    + now rewrite advance_advance.
    + rewrite advance_pStream, Hs. reflexivity.
    + rewrite advance_bytesLeft. lia.
Qed.

Lemma readFixedLong_loop_unreadable (n : nat) :
  forall result s,
    readable s < Z.of_nat n ->
    fst (readFixedLong_loop n result s) = -1.
Proof.
  induction n as [|n IH]; intros result s H; [pose proof (readable_nonneg s); lia |].
  cbn [readFixedLong_loop].
  destruct (Z_le_gt_dec (readable s) 0) as [Hz | Hp].
  - destruct (readChunkByte_unreadable s Hz) as [E _].
    destruct (readChunkByte s) as [bint s1]. cbn [fst] in E. subst bint.
    reflexivity.
  - destruct (readChunkByte_readable s ltac:(lia)) as (b & rest & _ & _ & E & Hr).
    rewrite E. rewrite byte_val_ltb0. apply IH. lia.
Qed.

(** X1. [readFixedLong] reads a big-endian number: when the [numBytes]
    bytes are in the chunk and their value fits a [long], it returns
    that value and consumes exactly those bytes. *)
Theorem readFixedLong_big_endian
    (numBytes : Z) (s : MidiFileStream) (bs rest : list byte) :
  Z.of_nat (List.length bs) = numBytes ->
  _pStream s = bs ++ rest ->
  numBytes <= _bytesLeft s ->
  be_value 0 bs < 2 ^ 31 ->
  readFixedLong numBytes s = (be_value 0 bs, advance (List.length bs) s).
Proof.
  intros Hn Hs Hb Hv. unfold readFixedLong. rewrite <- Hn, Nat2Z.id.
  apply (readFixedLong_loop_decode bs 0 s rest); try assumption; lia.
Qed.

Lemma readFixedLong_big_endian_witness :
  readFixedLong 3 (in_chunk [x07; xa1; x20; x00] 4)
  = (be_value 0 [x07; xa1; x20], advance 3 (in_chunk [x07; xa1; x20; x00] 4)).
Proof.
  apply (readFixedLong_big_endian 3 (in_chunk [x07; xa1; x20; x00] 4)
           [x07; xa1; x20] [x00]).
  - reflexivity.
  - reflexivity.
  - simpl. lia.
  - vm_compute. reflexivity.
Defined.

(** X2. For one to three bytes, [readFixedLong] returns -1 exactly when
    fewer than [numBytes] bytes can still be read from the chunk;
    otherwise its result lies in [0, 256^numBytes). *)
Theorem readFixedLong_fails_iff_unreadable (numBytes : Z) (s : MidiFileStream) :
  1 <= numBytes <= 3 ->
  (fst (readFixedLong numBytes s) = -1 <-> readable s < numBytes)
  /\ (numBytes <= readable s ->
      0 <= fst (readFixedLong numBytes s) < 256 ^ numBytes).
Proof.
  intros Hn.
  assert (Hok : numBytes <= readable s ->
                0 <= fst (readFixedLong numBytes s) < 256 ^ numBytes).
  { intros Hr. unfold readable in Hr.
    set (n := Z.to_nat numBytes).
    assert (Hlen : List.length (firstn n (_pStream s)) = n)
      by (rewrite length_firstn; lia).
    pose proof (be_value_bound (firstn n (_pStream s)) 0 ltac:(lia)) as Hbd.
    pose proof (be_value_ge (firstn n (_pStream s)) 0 ltac:(lia)) as Hge.
    rewrite Hlen in Hbd. replace (Z.of_nat n) with numBytes in Hbd by lia.
    assert (256 ^ numBytes <= 256 ^ 3) by (apply Z.pow_le_mono_r; lia).
    change (256 ^ 3) with 16777216 in *.
    assert (E : readFixedLong numBytes s
                = (be_value 0 (firstn n (_pStream s)),
                   advance (List.length (firstn n (_pStream s))) s)).
    { unfold readFixedLong. fold n. rewrite <- Hlen at 1.
      apply (readFixedLong_loop_decode _ 0 s (skipn n (_pStream s))).
      - symmetry. apply firstn_skipn.
      - lia.
      - lia.
      - lia. }
    rewrite E. cbn [fst]. lia. }
  split; [| exact Hok].
  split.
  - intros E. destruct (Z_lt_ge_dec (readable s) numBytes) as [L | G]; [exact L |].
    specialize (Hok ltac:(lia)). lia.
  - intros L. apply readFixedLong_loop_unreadable. lia.
Qed.

Lemma readFixedLong_fails_iff_unreadable_witness :
  (fst (readFixedLong 2 (in_chunk [x01; xe0] 1)) = -1
   <-> readable (in_chunk [x01; xe0] 1) < 2)
  /\ (2 <= readable (in_chunk [x01; xe0] 1) ->
      0 <= fst (readFixedLong 2 (in_chunk [x01; xe0] 1)) < 256 ^ 2).
Proof.
  apply (readFixedLong_fails_iff_unreadable 2 (in_chunk [x01; xe0] 1)). lia.
Defined.

(** ** readVariableLong: how far it reads, and the fifth byte *)

Lemma readVariableLong_loop_takes (fuel : nat) :
  forall numBytes result s r s',
    readVariableLong_loop fuel numBytes result s = Some (r, s') ->
    0 <= numBytes <= 5 ->
    exists taken,
      _pStream s = taken ++ _pStream s'
      /\ Z.of_nat (List.length taken) <= 5 - numBytes
      /\ 0 <= _bytesLeft s - _bytesLeft s' <= 5 - numBytes.
Proof.
  induction fuel as [|fuel IH]; intros numBytes result s r s' H Hn; [discriminate |].
  cbn [readVariableLong_loop] in H.
  destruct (numBytes >? 4) eqn:E4.
  { inversion H; subst. exists []. cbn [app List.length]. repeat split; lia. }
  zb E4.
  destruct (readChunkByte_cases s) as [[Hb E]|[(Hb & Hs & E)|(b & rest & Hb & Hs & E)]];
    rewrite E in H.
  - inversion H; subst. exists []. cbn [app List.length]. repeat split; lia.
  - inversion H; subst. exists []. proj. rewrite Hs. cbn [app List.length]. repeat split; lia.
  - rewrite byte_val_ltb0 in H.
    destruct (Z.land (byte_val b) 128 =? 128).
    + destruct (IH _ _ _ _ _ H ltac:(lia)) as (taken & Et & Lt & Bt).
      exists (b :: taken). rewrite advance_pStream, Hs in Et. cbn [skipn] in Et.
      rewrite advance_bytesLeft in Bt. rewrite Hs, Et. cbn [List.length app].
      repeat split; lia.
    + inversion H; subst. exists [b]. rewrite advance_pStream, advance_bytesLeft, Hs. cbn [app List.length skipn]. repeat split; lia.
Qed.

(** X3. [readVariableLong] never takes more than five bytes from the
    stream, nor more than five from the budget of the chunk, whatever
    the bytes are. *)
Theorem readVariableLong_reads_at_most_five (s : MidiFileStream) :
  exists taken,
    _pStream s = taken ++ _pStream (snd (readVariableLong s))
    /\ (List.length taken <= 5)%nat
    /\ 0 <= _bytesLeft s - _bytesLeft (snd (readVariableLong s)) <= 5.
Proof.
  pose proof (readVariableLong_loop_fuel 0 s) as E.
  destruct (readVariableLong s) as [r s'].
  destruct (readVariableLong_loop_takes _ _ _ _ _ _ E ltac:(lia)) as (taken & Et & Lt & Bt).
  exists taken. cbn [snd]. repeat split; try assumption; lia.
Qed.

Lemma lor_low7 (x g : Z) : x mod 128 = 0 -> 0 <= g < 128 -> Z.lor x g = x + g.
Proof.
  intros Hx Hg.
  assert (Hl : Z.land x g = 0).
  { replace g with (Z.land (Z.ones 7) g).
    - rewrite Z.land_assoc, Z.land_ones by lia. change (2 ^ 7) with 128.
      rewrite Hx. apply Z.land_0_l.
    - rewrite Z.land_comm, Z.land_ones by lia. apply Z.mod_small.
      change (2 ^ 7) with 128. lia. }
  rewrite <- Z.lxor_lor, <- Z.add_nocarry_lxor by exact Hl. reflexivity.
Qed.

(** The last group of a quantity, when the shift may leave the 32 bits
    of a [long]: what is kept is the whole number cut to 32 bits. *)
Lemma vlq_step_wrap (r g : Z) :
  0 <= g < 128 ->
  Z.lor (cast_long (Z.shiftl r 7)) g = cast_long (r * 128 + g).
Proof.
  intros Hg. rewrite Z.shiftl_mul_pow2 by lia. change (2 ^ 7) with 128.
  unfold cast_long, wrap. change (2 ^ (32 - 1)) with 2147483648.
  change (2 ^ 32) with 4294967296.
  pose proof (Z.div_mod (r * 128 + 2147483648) 4294967296 ltac:(lia)) as Hdm.
  pose proof (Z.mod_pos_bound (r * 128 + 2147483648) 4294967296 ltac:(lia)) as Hm.
  set (q := (r * 128 + 2147483648) / 4294967296) in *.
  set (m := (r * 128 + 2147483648) mod 4294967296) in *.
  assert (Em : m - 2147483648 = (r - 33554432 * q) * 128) by lia.
  rewrite lor_low7; [| rewrite Em; apply Z.mod_mul; lia | exact Hg].
  assert (E : (r * 128 + g + 2147483648) mod 4294967296 = m + g).
  { symmetry. apply (Z.mod_unique _ _ q); [left | ]; lia. }
  rewrite E. lia.
Qed.

(** Decoding a quantity whose value before its last byte fits a [long]:
    the last shift is the only one that can lose bits. *)
Lemma readVariableLong_loop_decode_wrap (conts : list byte) :
  forall (last : byte) fuel numBytes result s,
    Forall continuation conts ->
    ~ continuation last ->
    (exists rest, _pStream s = conts ++ last :: rest) ->
    Z.of_nat (List.length conts) + 1 <= _bytesLeft s ->
    0 <= numBytes ->
    numBytes + Z.of_nat (List.length conts) <= 4 ->
    (List.length conts < fuel)%nat ->
    0 <= result ->
    vlq_value result conts < 2147483648 ->
    readVariableLong_loop fuel numBytes result s
    = Some (cast_long (vlq_value result (conts ++ [last])),
            advance (List.length conts + 1) s).
Proof.
  induction conts as [|c conts IH];
    intros last fuel numBytes result s Hc Hl [rest Hs] Hb Hn Hn4 Hf Hr Hv.
  - destruct fuel as [|fuel]; [simpl in Hf; lia |].
    cbn [app List.length Nat.add] in *. cbn [readVariableLong_loop].
    destruct (numBytes >? 4) eqn:E4; [zb E4; lia |].
    rewrite (readChunkByte_cons s last rest) by (try assumption; lia).
    rewrite byte_val_ltb0.
    destruct (Z.land (byte_val last) 0x80 =? 0x80) eqn:Ec;
      [zb Ec; contradiction |].
    cbn [vlq_value fold_left]. rewrite land_0x7F.
    pose proof (Z.mod_pos_bound (byte_val last) 128 ltac:(lia)).
    rewrite vlq_step_wrap by lia. reflexivity.
  - destruct fuel as [|fuel]; [simpl in Hf; lia |].
    inversion Hc as [|? ? Hcc Hcs]; subst.
    cbn [app List.length] in Hs, Hb, Hn4, Hf |- *.
    cbn [readVariableLong_loop].
    destruct (numBytes >? 4) eqn:E4; [zb E4; lia |].
    rewrite (readChunkByte_cons s c (conts ++ last :: rest)) by (try assumption; lia).
    rewrite byte_val_ltb0.
    unfold continuation in Hcc. rewrite Hcc, Z.eqb_refl.
    unfold vlq_value in Hv |- *. cbn [fold_left] in Hv |- *.
    fold (vlq_value (result * 128 + Z.land (byte_val c) 0x7F) conts) in Hv.
    fold (vlq_value (result * 128 + Z.land (byte_val c) 0x7F) (conts ++ [last])).
    rewrite land_0x7F in Hv.
    pose proof (Z.mod_pos_bound (byte_val c) 128 ltac:(lia)) as Hm.
    pose proof (vlq_value_ge conts (result * 128 + byte_val c mod 128) ltac:(lia)).
    rewrite cast_long_id
      by (rewrite Z.shiftl_mul_pow2 by lia; change (2 ^ 7) with 128; lia).
    rewrite shift7_lor, land_0x7F.
    rewrite (IH last fuel (numBytes + 1) (result * 128 + byte_val c mod 128) (advance 1 s));
      try assumption; try lia.
    + rewrite advance_advance. reflexivity.
    + exists rest. rewrite advance_pStream, Hs. reflexivity.
    + rewrite advance_bytesLeft. lia.
Qed.

Lemma vlq_value_bound (bs : list byte) :
  forall acc, 0 <= acc ->
    vlq_value acc bs < (acc + 1) * 128 ^ Z.of_nat (List.length bs).
Proof.
  induction bs as [|b bs IH]; intros acc H.
  - simpl. lia.
  - cbn [vlq_value fold_left List.length].
    fold (vlq_value (acc * 128 + Z.land (byte_val b) 127) bs).
    change 127 with 0x7F. rewrite land_0x7F.
    pose proof (Z.mod_pos_bound (byte_val b) 128 ltac:(lia)).
    rewrite Nat2Z.inj_succ, Z.pow_succ_r by lia.
    pose proof (IH (acc * 128 + byte_val b mod 128) ltac:(lia)) as IHb.
    assert (0 < 128 ^ Z.of_nat (List.length bs)) by (apply Z.pow_pos_nonneg; lia).
    nia.
Qed.

(** X4. Any quantity of up to five bytes (at most four bytes with the
    high bit set, then one with it clear) is accepted by
    [readVariableLong], also when it is not the shortest encoding of its
    value: the result is its base-128 value cut to the 32 bits of a
    [long], which is the value itself when that is below 2^31; a
    five-byte quantity of 2^31 or more therefore comes out wrapped. *)
Theorem readVariableLong_accepts_five_bytes
    (s : MidiFileStream) (conts : list byte) (last : byte) (rest : list byte) :
  Forall continuation conts ->
  ~ continuation last ->
  (List.length conts <= 4)%nat ->
  _pStream s = conts ++ last :: rest ->
  Z.of_nat (List.length conts) + 1 <= _bytesLeft s ->
  readVariableLong s
  = (cast_long (vlq_value 0 (conts ++ [last])), advance (List.length conts + 1) s)
  /\ (vlq_value 0 (conts ++ [last]) < 2 ^ 31 ->
      fst (readVariableLong s) = vlq_value 0 (conts ++ [last])).
Proof.
  intros Hc Hl Hlen Hs Hb.
  assert (E : readVariableLong s
              = (cast_long (vlq_value 0 (conts ++ [last])),
                 advance (List.length conts + 1) s)).
  { pose proof (readVariableLong_loop_fuel 0 s) as Hfuel.
    change (6 + 0)%nat with 6%nat in Hfuel.
    rewrite (readVariableLong_loop_decode_wrap conts last 6 0 0 s) in Hfuel;
      try assumption; try lia.
    - now inversion Hfuel.
    - exists rest. exact Hs.
    - pose proof (vlq_value_bound conts 0 ltac:(lia)) as Hbd.
      assert (128 ^ Z.of_nat (List.length conts) <= 128 ^ 4)
        by (apply Z.pow_le_mono_r; lia).
      change (128 ^ 4) with 268435456 in *. lia. }
  split; [exact E |].
  intros Hv. rewrite E. cbn [fst]. apply cast_long_id.
  pose proof (vlq_value_ge (conts ++ [last]) 0 ltac:(lia)).
  change (2 ^ 31) with 2147483648 in Hv. lia.
Qed.

Lemma readVariableLong_accepts_five_bytes_witness :
  readVariableLong (in_chunk [x90; x80; x80; x80; x07; x00] 6)
  = (cast_long (vlq_value 0 ([x90; x80; x80; x80] ++ [x07])),
     advance (List.length [x90; x80; x80; x80] + 1)
       (in_chunk [x90; x80; x80; x80; x07; x00] 6))
  /\ (vlq_value 0 ([x90; x80; x80; x80] ++ [x07]) < 2 ^ 31 ->
      fst (readVariableLong (in_chunk [x90; x80; x80; x80; x07; x00] 6))
      = vlq_value 0 ([x90; x80; x80; x80] ++ [x07])).
Proof.
  apply (readVariableLong_accepts_five_bytes
           (in_chunk [x90; x80; x80; x80; x07; x00] 6)
           [x90; x80; x80; x80] x07 [x00]).
  - repeat constructor.
  - unfold continuation. vm_compute. discriminate.
  - simpl. lia.
  - reflexivity.
  - simpl. lia.
Defined.

(** ** openChunk: every outcome *)

Lemma openChunk_sig_only_read (n : nat) :
  forall i sig s, only_read s (snd (openChunk_sig n i sig s)).
Proof.
  induction n as [|n IH]; intros i sig s; [apply only_read_refl |].
  cbn [openChunk_sig]. unfold stream_read.
  destruct (_pStream s) as [|b rest] eqn:Es.
  - change (-1 <? 0) with true. cbv iota. destruct (i =? 0); apply only_read_refl.
  - rewrite byte_val_ltb0.
    eapply only_read_trans; [| apply IH].
    unfold only_read. destruct s; reflexivity.
Qed.

Lemma openChunk_opened (s : MidiFileStream) : chunk_opened s (snd (openChunk s)).
Proof.
  unfold openChunk. cbv zeta.
  set (s0 := set_eventDeltaTicks (-1)
               (set_eventType ET_UNK (set_runningStatus 0 (set_bytesLeft (-1) s)))).
  pose proof (openChunk_sig_only_read 4 0 [] s0) as H0.
  destruct (openChunk_sig 4 0 [] s0) as [[t | sig] s1]; cbn [snd] in H0.
  - cbn [snd]. destruct (only_read_fields _ _ H0) as (A & B & C & D & E & F & G).
    unfold chunk_opened. rewrite A, B, C, D, E, F, G. now repeat split.
  - pose proof (readFixedLong_loop_only_read 4 0 (set_bytesLeft 4 s1)) as H1.
    change (readFixedLong_loop 4 0 (set_bytesLeft 4 s1))
      with (readFixedLong 4 (set_bytesLeft 4 s1)) in H1.
    destruct (readFixedLong 4 (set_bytesLeft 4 s1)) as [r s2]. cbn [snd] in H1.
    assert (H : chunk_opened s (set_bytesLeft r s2)).
    { destruct (only_read_fields _ _ H0) as (A & B & C & D & E & F & G).
      destruct (only_read_fields _ _ H1) as (A' & B' & C' & D' & E' & F' & G').
      unfold chunk_opened. proj.
      rewrite A', B', C', D', E', F', G', A, B, C, D, E, F, G. now repeat split. }
    repeat match goal with
           | |- context [if ?c then _ else _] => destruct c
           end; exact H.
Qed.

(** The signature when the stream ends inside it. *)
Lemma openChunk_sig_short (n : nat) :
  forall i sig s,
    0 <= i ->
    (List.length (_pStream s) < n)%nat ->
    exists s',
      openChunk_sig n i sig s
      = (inl (if (i =? 0) && (match _pStream s with [] => true | _ => false end)
              then CT_END else CT_UNK), s')
      /\ _pStream s' = [] /\ _bytesLeft s' = _bytesLeft s.
Proof.
  induction n as [|n IH]; intros i sig s Hi Hlen; [inversion Hlen |].
  cbn [openChunk_sig]. destruct (_pStream s) as [|b rest] eqn:Es.
  - rewrite (stream_read_nil s Es). change (-1 <? 0) with true. cbv iota.
    rewrite andb_true_r. exists s. destruct (i =? 0); repeat split; assumption.
  - rewrite (stream_read_cons s b rest Es), byte_val_ltb0.
    destruct (IH (i + 1) (sig ++ [cast_char (byte_val b)]) (set_pStream rest s)
                ltac:(lia) ltac:(cbn [List.length] in Hlen; proj; lia))
      as (s' & E & Hp & Hb).
    exists s'. rewrite E. rewrite andb_false_r.
    destruct (i + 1 =? 0) eqn:E1; [zb E1; lia |]. cbn [andb].
    repeat split; assumption.
Qed.

(** [readFixedLong] on a stream that ends before the bytes asked for. *)
Lemma readFixedLong_loop_drains (n : nat) :
  forall result s,
    (List.length (_pStream s) < n)%nat ->
    Z.of_nat n <= _bytesLeft s ->
    fst (readFixedLong_loop n result s) = -1
    /\ _pStream (snd (readFixedLong_loop n result s)) = [].
Proof.
  induction n as [|n IH]; intros result s Hlen Hb; [inversion Hlen |].
  destruct (_pStream s) as [|b rest] eqn:Es.
  - cbn [readFixedLong_loop]. rewrite (readChunkByte_nil s) by (try assumption; lia).
    change (-1 <? 0) with true. cbv iota. proj. split; [reflexivity | exact Es].
  - rewrite (readFixedLong_loop_cons n result s b rest) by (try assumption; lia).
    apply IH.
    + rewrite advance_pStream, Es. cbn [skipn List.length] in *. lia.
    + rewrite advance_bytesLeft. lia.
Qed.

Lemma sig_compare_4 (a b c d : byte) (k1 k2 k3 k4 : Z) :
  0 <= k1 < 128 -> 0 <= k2 < 128 -> 0 <= k3 < 128 -> 0 <= k4 < 128 ->
  (sig_compare 0 [cast_char (byte_val a); cast_char (byte_val b);
                  cast_char (byte_val c); cast_char (byte_val d)] [k1; k2; k3; k4]
   =? 4) = true
  <-> [a; b; c; d] = [byte_of_Z k1; byte_of_Z k2; byte_of_Z k3; byte_of_Z k4].
Proof.
  intros H1 H2 H3 H4. cbn [sig_compare]. split.
  - destruct (cast_char (byte_val a) =? k1) eqn:Ea; [| discriminate].
    destruct (cast_char (byte_val b) =? k2) eqn:Eb; [| discriminate].
    destruct (cast_char (byte_val c) =? k3) eqn:Ec; [| discriminate].
    destruct (cast_char (byte_val d) =? k4) eqn:Ed; [| discriminate].
    intros _.
    apply sig_char in Ea; [| lia]. apply sig_char in Eb; [| lia].
    apply sig_char in Ec; [| lia]. apply sig_char in Ed; [| lia].
    now subst.
  - intros E. inversion E; subst.
    rewrite !byte_val_byte_of_Z by lia.
    rewrite !cast_char_id by lia. rewrite !Z.eqb_refl. reflexivity.
Qed.

(** [openChunk] on a stream that ends inside the eight bytes of a chunk
    header. *)
Lemma openChunk_short (s : MidiFileStream) :
  (List.length (_pStream s) < 8)%nat ->
  fst (openChunk s) = (match _pStream s with [] => CT_END | _ => CT_UNK end)
  /\ _pStream (snd (openChunk s)) = []
  /\ _bytesLeft (snd (openChunk s)) = -1.
Proof.
  intros Hlen. unfold openChunk. cbv zeta.
  set (s0 := set_eventDeltaTicks (-1)
               (set_eventType ET_UNK (set_runningStatus 0 (set_bytesLeft (-1) s)))).
  destruct (Nat.lt_ge_cases (List.length (_pStream s)) 4) as [L4 | G4].
  - destruct (openChunk_sig_short 4 0 [] s0 ltac:(lia) L4) as (s' & E & Hp & Hb).
    rewrite E. change (_pStream s0) with (_pStream s). cbn [fst snd].
    change (0 =? 0) with true. cbn [andb].
    split; [destruct (_pStream s); reflexivity |].
    split; [exact Hp | rewrite Hb; reflexivity].
  - pose proof (openChunk_sig_spec s0) as Hsig.
    change (_pStream s0) with (_pStream s) in Hsig.
    destruct (_pStream s) as [|a [|b [|c [|d rest]]]] eqn:Es;
      try (cbn [List.length] in G4; lia).
    rewrite Hsig. clear Hsig.
    set (s1 := set_bytesLeft 4 (set_pStream rest s0)).
    destruct (readFixedLong_loop_drains 4 0 s1) as [Hr Hp].
    { unfold s1. proj. cbn [List.length] in Hlen. lia. }
    { unfold s1. proj. simpl. lia. }
    change (readFixedLong_loop 4 0 s1) with (readFixedLong 4 s1) in Hr, Hp.
    destruct (readFixedLong 4 s1) as [r s2]. cbn [fst snd] in Hr, Hp. subst r.
    proj. change (-1 <? 0) with true. cbv iota. proj.
    repeat split; try reflexivity. exact Hp.
Qed.

(** [openChunk] on a stream that holds the eight bytes of a chunk
    header. *)
Lemma openChunk_full (s : MidiFileStream) (a b c d l1 l2 l3 l4 : byte)
    (rest : list byte) :
  _pStream s = a :: b :: c :: d :: l1 :: l2 :: l3 :: l4 :: rest ->
  let sig := [cast_char (byte_val a); cast_char (byte_val b);
              cast_char (byte_val c); cast_char (byte_val d)] in
  fst (openChunk s)
  = (if cast_long (declared_length l1 l2 l3 l4) <? 0 then CT_UNK
     else if sig_compare 0 sig mthd =? 4 then CT_MTHD
     else if sig_compare 0 sig mtrk =? 4 then CT_MTRK else CT_UNK)
  /\ _pStream (snd (openChunk s)) = rest
  /\ _bytesLeft (snd (openChunk s)) = cast_long (declared_length l1 l2 l3 l4).
Proof.
  intros Hs sig. unfold openChunk. cbv zeta.
  set (s0 := set_eventDeltaTicks (-1)
               (set_eventType ET_UNK (set_runningStatus 0 (set_bytesLeft (-1) s)))).
  pose proof (openChunk_sig_spec s0) as Hsig.
  change (_pStream s0) with (_pStream s) in Hsig. rewrite Hs in Hsig.
  rewrite Hsig. clear Hsig.
  rewrite (readFixedLong_4 _ l1 l2 l3 l4 rest) by (try reflexivity; simpl; lia).
  fold (declared_length l1 l2 l3 l4). proj. fold sig.
  destruct (cast_long (declared_length l1 l2 l3 l4) <? 0); [now repeat split |].
  destruct (sig_compare 0 sig mthd =? 4); [now repeat split |].
  destruct (sig_compare 0 sig mtrk =? 4); now repeat split.
Qed.

Lemma declared_length_range (l1 l2 l3 l4 : byte) :
  0 <= declared_length l1 l2 l3 l4 < 4294967296
  /\ (declared_length l1 l2 l3 l4 < 2147483648 <-> byte_val l1 < 128).
Proof.
  pose proof (byte_val_range l1). pose proof (byte_val_range l2).
  pose proof (byte_val_range l3). pose proof (byte_val_range l4).
  unfold declared_length. lia.
Qed.

(** X5. What [openChunk] answers is decided by the first eight bytes of
    the stream: [CT_END] exactly when the stream is at its end,
    [CT_MTHD] (or [CT_MTRK]) exactly when it holds "MThd" (or "MTrk")
    and four bytes of length whose value is below 2^31, and [CT_UNK]
    for everything else. *)
Theorem openChunk_classifies (s : MidiFileStream) :
  (fst (openChunk s) = CT_END <-> _pStream s = [])
  /\ (fst (openChunk s) = CT_MTHD
      <-> exists l1 l2 l3 l4 rest,
            _pStream s = [x4d; x54; x68; x64] ++ l1 :: l2 :: l3 :: l4 :: rest
            /\ declared_length l1 l2 l3 l4 < 2 ^ 31)
  /\ (fst (openChunk s) = CT_MTRK
      <-> exists l1 l2 l3 l4 rest,
            _pStream s = [x4d; x54; x72; x6b] ++ l1 :: l2 :: l3 :: l4 :: rest
            /\ declared_length l1 l2 l3 l4 < 2 ^ 31)
  /\ (fst (openChunk s) = CT_END \/ fst (openChunk s) = CT_UNK
      \/ fst (openChunk s) = CT_MTHD \/ fst (openChunk s) = CT_MTRK).
Proof.
  change (2 ^ 31) with 2147483648.
  destruct (Nat.lt_ge_cases (List.length (_pStream s)) 8) as [L | G].
  - destruct (openChunk_short s L) as (E & _ & _).
    assert (Hno : forall sig, ~ exists l1 l2 l3 l4 rest,
                    _pStream s = sig ++ l1 :: l2 :: l3 :: l4 :: rest
                    /\ List.length sig = 4%nat).
    { intros sig (l1 & l2 & l3 & l4 & rest & Hs & Hl). rewrite Hs in L.
      rewrite length_app, Hl in L. cbn [List.length] in L. lia. }
    rewrite E. unfold CT_END, CT_UNK, CT_MTHD, CT_MTRK.
    split; [| split; [| split]].
    + destruct (_pStream s); split; intros H; try reflexivity; discriminate.
    + split.
      * destruct (_pStream s); discriminate.
      * intros (l1 & l2 & l3 & l4 & rest & Hs & _). exfalso.
        apply (Hno [x4d; x54; x68; x64]). now exists l1, l2, l3, l4, rest.
    + split.
      * destruct (_pStream s); discriminate.
      * intros (l1 & l2 & l3 & l4 & rest & Hs & _). exfalso.
        apply (Hno [x4d; x54; x72; x6b]). now exists l1, l2, l3, l4, rest.
    + destruct (_pStream s); auto.
  - destruct (_pStream s) as [|a [|b [|c [|d [|l1 [|l2 [|l3 [|l4 rest]]]]]]]] eqn:Es;
      try (cbn [List.length] in G; lia).
    destruct (openChunk_full s a b c d l1 l2 l3 l4 rest Es) as (E & _ & _).
    cbv zeta in E.
    pose proof (sig_compare_4 a b c d 77 84 104 100
                  ltac:(lia) ltac:(lia) ltac:(lia) ltac:(lia)) as Hh.
    pose proof (sig_compare_4 a b c d 77 84 114 107
                  ltac:(lia) ltac:(lia) ltac:(lia) ltac:(lia)) as Hk.
    change [byte_of_Z 77; byte_of_Z 84; byte_of_Z 104; byte_of_Z 100]
      with [x4d; x54; x68; x64] in Hh.
    change [byte_of_Z 77; byte_of_Z 84; byte_of_Z 114; byte_of_Z 107]
      with [x4d; x54; x72; x6b] in Hk.
    change [77; 84; 104; 100] with mthd in Hh.
    change [77; 84; 114; 107] with mtrk in Hk.
    destruct (declared_length_range l1 l2 l3 l4) as [Hd _].
    rewrite E. unfold CT_END, CT_UNK, CT_MTHD, CT_MTRK. cbn [app].
    destruct (cast_long (declared_length l1 l2 l3 l4) <? 0) eqn:Eneg; zb Eneg.
    + assert (Hbig : 2147483648 <= declared_length l1 l2 l3 l4)
        by (destruct (cast_long_cases _ Hd) as [[? ?] | [? ?]]; lia).
      split; [split; discriminate |].
      split; [| split; [| auto]].
      * split; [discriminate |].
        intros (m1 & m2 & m3 & m4 & rest' & Hs & Hlt). inversion Hs; subst. lia.
      * split; [discriminate |].
        intros (m1 & m2 & m3 & m4 & rest' & Hs & Hlt). inversion Hs; subst. lia.
    + assert (Hsmall : declared_length l1 l2 l3 l4 < 2147483648)
        by (destruct (cast_long_cases _ Hd) as [[? ?] | [? ?]]; lia).
      destruct (sig_compare 0 _ mthd =? 4) eqn:Eh.
      * pose proof (proj1 Hh eq_refl) as Eh'. inversion Eh'; subst.
        split; [split; discriminate |].
        split; [| split; [| auto]].
        -- split; [| reflexivity]. intros _. now exists l1, l2, l3, l4, rest.
        -- split; [discriminate |].
           intros (m1 & m2 & m3 & m4 & rest' & Hs & Hlt). discriminate Hs.
      * assert (Nh : [a; b; c; d] <> [x4d; x54; x68; x64])
          by (intros Heq; apply (proj2 Hh) in Heq; discriminate).
        destruct (sig_compare 0 _ mtrk =? 4) eqn:Ek.
        -- pose proof (proj1 Hk eq_refl) as Ek'. inversion Ek'; subst.
           split; [split; discriminate |].
           split; [| split; [| auto]].
           ++ split; [discriminate |].
              intros (m1 & m2 & m3 & m4 & rest' & Hs & Hlt). discriminate Hs.
           ++ split; [| reflexivity]. intros _. now exists l1, l2, l3, l4, rest.
        -- assert (Nk : [a; b; c; d] <> [x4d; x54; x72; x6b])
             by (intros Heq; apply (proj2 Hk) in Heq; discriminate).
           split; [split; discriminate |].
           split; [| split; [| auto]].
           ++ split; [discriminate |].
              intros (m1 & m2 & m3 & m4 & rest' & Hs & Hlt).
              inversion Hs; subst. exfalso. now apply Nh.
           ++ split; [discriminate |].
              intros (m1 & m2 & m3 & m4 & rest' & Hs & Hlt).
              inversion Hs; subst. exfalso. now apply Nk.
Qed.

(** X6. A stream that ends inside the eight bytes of a chunk header:
    [openChunk] answers [CT_UNK], has taken every byte that was left,
    and leaves the chunk closed ([getChunkBytesLeft] is -1); asked
    again, it answers [CT_END], and [readEvent] answers [ET_END]. *)
Theorem openChunk_truncated_header (s : MidiFileStream) :
  (0 < List.length (_pStream s) < 8)%nat ->
  fst (openChunk s) = CT_UNK
  /\ _pStream (snd (openChunk s)) = []
  /\ getChunkBytesLeft (snd (openChunk s)) = -1
  /\ fst (openChunk (snd (openChunk s))) = CT_END
  /\ option_map fst (readEvent (snd (openChunk s))) = Some ET_END.
Proof.
  intros [Hpos Hlen].
  destruct (openChunk_short s Hlen) as (E & Hp & Hb).
  split; [| split; [exact Hp | split; [exact Hb | split]]].
  - rewrite E. destruct (_pStream s); [cbn [List.length] in Hpos; lia | reflexivity].
  - destruct (openChunk_short (snd (openChunk s))) as (E' & _ & _).
    + rewrite Hp. cbn [List.length]. lia.
    + rewrite E', Hp. reflexivity.
  - apply readEvent_exhausted. rewrite Hb. lia.
Qed.

Lemma openChunk_truncated_header_witness :
  fst (openChunk (in_chunk [x4d; x54; x72; x6b; x00; x00] 0)) = CT_UNK
  /\ _pStream (snd (openChunk (in_chunk [x4d; x54; x72; x6b; x00; x00] 0))) = []
  /\ getChunkBytesLeft (snd (openChunk (in_chunk [x4d; x54; x72; x6b; x00; x00] 0))) = -1
  /\ fst (openChunk (snd (openChunk (in_chunk [x4d; x54; x72; x6b; x00; x00] 0))))
     = CT_END
  /\ option_map fst
       (readEvent (snd (openChunk (in_chunk [x4d; x54; x72; x6b; x00; x00] 0))))
     = Some ET_END.
Proof.
  apply (openChunk_truncated_header (in_chunk [x4d; x54; x72; x6b; x00; x00] 0)).
  simpl. lia.
Defined.

(** X7. A chunk whose declared length is 2^31 or more (the first length
    byte is 0x80 or above) is refused whatever its signature is: the
    length comes out of the 32-bit [long] negative, [openChunk] answers
    [CT_UNK] with the eight bytes of the header taken, and [readEvent]
    then answers [ET_END]. *)
Theorem openChunk_rejects_long_chunk
    (s : MidiFileStream) (a b c d l1 l2 l3 l4 : byte) (rest : list byte) :
  _pStream s = a :: b :: c :: d :: l1 :: l2 :: l3 :: l4 :: rest ->
  0x80 <= byte_val l1 ->
  fst (openChunk s) = CT_UNK
  /\ _pStream (snd (openChunk s)) = rest
  /\ getChunkBytesLeft (snd (openChunk s)) = declared_length l1 l2 l3 l4 - 2 ^ 32
  /\ getChunkBytesLeft (snd (openChunk s)) < 0
  /\ option_map fst (readEvent (snd (openChunk s))) = Some ET_END.
Proof.
  intros Hs Hl1. change (2 ^ 32) with 4294967296.
  destruct (openChunk_full s a b c d l1 l2 l3 l4 rest Hs) as (E & Hp & Hb).
  cbv zeta in E.
  destruct (declared_length_range l1 l2 l3 l4) as [Hd Hiff].
  destruct (cast_long_cases _ Hd) as [[L _] | [G Ec]];
    [apply Hiff in L; lia |].
  unfold getChunkBytesLeft. rewrite Hb, Ec.
  assert (Eneg : (declared_length l1 l2 l3 l4 - 4294967296 <? 0) = true)
    by (apply Z.ltb_lt; lia).
  rewrite Ec, Eneg in E.
  split; [exact E | split; [exact Hp | split; [reflexivity | split; [lia |]]]].
  apply readEvent_exhausted. rewrite Hb, Ec. lia.
Qed.

Lemma openChunk_rejects_long_chunk_witness :
  fst (openChunk (in_chunk [x4d; x54; x72; x6b; x80; x00; x00; x03; x00; xff; x2f] 0))
  = CT_UNK
  /\ _pStream (snd (openChunk
                      (in_chunk [x4d; x54; x72; x6b; x80; x00; x00; x03; x00; xff; x2f] 0)))
     = [x00; xff; x2f]
  /\ getChunkBytesLeft
       (snd (openChunk
               (in_chunk [x4d; x54; x72; x6b; x80; x00; x00; x03; x00; xff; x2f] 0)))
     = declared_length x80 x00 x00 x03 - 2 ^ 32
  /\ getChunkBytesLeft
       (snd (openChunk
               (in_chunk [x4d; x54; x72; x6b; x80; x00; x00; x03; x00; xff; x2f] 0)))
     < 0
  /\ option_map fst
       (readEvent
          (snd (openChunk
                  (in_chunk [x4d; x54; x72; x6b; x80; x00; x00; x03; x00; xff; x2f] 0))))
     = Some ET_END.
Proof.
  apply (openChunk_rejects_long_chunk
           (in_chunk [x4d; x54; x72; x6b; x80; x00; x00; x03; x00; xff; x2f] 0)
           x4d x54 x72 x6b x80 x00 x00 x03 [x00; xff; x2f]).
  - reflexivity.
  - vm_compute. discriminate.
Defined.

(** X8. Whatever it answers, [openChunk] starts the event reader
    afresh: no running status, event type [ET_UNK], delta time -1; the
    format, the number of tracks, the ticks per beat and the event data
    stay as they were.  So running status never carries over from one
    chunk into the next: a first event that opens with a data byte is
    answered with [ET_UNK]. *)
Theorem openChunk_starts_afresh (s : MidiFileStream) :
  chunk_opened s (snd (openChunk s))
  /\ (forall (s1 : MidiFileStream) (dt : Z) (d1 : byte) (rest : list byte),
        readVariableLong (snd (openChunk s)) = (dt, s1) -> 0 <= dt ->
        _pStream s1 = d1 :: rest ->
        1 <= _bytesLeft s1 ->
        byte_val d1 < 0x80 ->
        exists s', readEvent (snd (openChunk s)) = Some (ET_UNK, s')
                   /\ getEventType s' = ET_UNK).
Proof.
  pose proof (openChunk_opened s) as H. split; [exact H |].
  intros s1 dt d1 rest E Hdt Hs Hb Hd.
  destruct (readEvent_running_status_inactive _ s1 dt d1 rest E Hdt Hs Hb Hd)
    as (s' & Er & Ht & _).
  - apply H.
  - exists s'. split; assumption.
Qed.

Lemma openChunk_starts_afresh_witness :
  chunk_opened
    (set_runningStatus 0x90
       (in_chunk [x4d; x54; x72; x6b; x00; x00; x00; x03; x00; x40; x7f] 0))
    (snd (openChunk
            (set_runningStatus 0x90
               (in_chunk [x4d; x54; x72; x6b; x00; x00; x00; x03; x00; x40; x7f] 0))))
  /\ exists s',
       readEvent
         (snd (openChunk
                 (set_runningStatus 0x90
                    (in_chunk [x4d; x54; x72; x6b; x00; x00; x00; x03; x00; x40; x7f] 0))))
       = Some (ET_UNK, s')
       /\ getEventType s' = ET_UNK.
Proof.
  destruct (openChunk_starts_afresh
              (set_runningStatus 0x90
                 (in_chunk [x4d; x54; x72; x6b; x00; x00; x00; x03; x00; x40; x7f] 0)))
    as [Hopen Hfirst].
  split; [exact Hopen |].
  apply (Hfirst
           (snd (readVariableLong
                   (snd (openChunk
                           (set_runningStatus 0x90
                              (in_chunk [x4d; x54; x72; x6b; x00; x00; x00; x03;
                                         x00; x40; x7f] 0))))))
           0 x40 [x7f]).
  - vm_compute. reflexivity.
  - lia.
  - reflexivity.
  - vm_compute. discriminate.
  - vm_compute. reflexivity.
Defined.

(** ** readEvent: what every call reports *)

Ltac event_types :=
  unfold ET_UNK, ET_NO_OP, ET_END, ET_SYSEX_F0, ET_SYSEX_ESC, ET_SEQ_NUM, ET_TEXT,
    ET_COPYRIGHT, ET_NAME, ET_INSTRUMENT, ET_LYRIC, ET_MARKER, ET_CUE,
    ET_CHAN_PREFIX, ET_END_TRACK, ET_TEMPO, ET_SMPTE_OFFSET, ET_TIME_SIGN,
    ET_KEY_SIGN, ET_CHANNEL in *.

Lemma read_on_only_read (s s' : MidiFileStream) : only_read s s' -> read_on s s'.
Proof.
  intros O. unfold read_on, kept_fields, buffer_size. rewrite O.
  repeat split. now left.
Qed.

Lemma readChunkByte_read_on (s : MidiFileStream) : read_on s (snd (readChunkByte s)).
Proof. apply read_on_only_read, readChunkByte_only_read. Qed.

Lemma readFixedLong_read_on (numBytes : Z) (s : MidiFileStream) :
  read_on s (snd (readFixedLong numBytes s)).
Proof. apply read_on_only_read, readFixedLong_loop_only_read. Qed.

Lemma readVariableLong_read_on (s : MidiFileStream) :
  read_on s (snd (readVariableLong s)).
Proof. apply read_on_only_read, readVariableLong_only_read. Qed.

Lemma skipChunkBytes_read_on (n : nat) (s : MidiFileStream) :
  read_on s (snd (skipChunkBytes n s)).
Proof. apply read_on_only_read, skipChunkBytes_only_read. Qed.

Lemma readChunkByte_noting_read_on (s : MidiFileStream) :
  read_on s (snd (readChunkByte_noting s)).
Proof.
  unfold readChunkByte_noting. pose proof (readChunkByte_read_on s) as H.
  destruct (readChunkByte s) as [bint s1]. cbn [snd] in H.
  destruct (bint <? 0); cbn [snd]; [| exact H].
  destruct H as (K & L & _). repeat split; [exact K | exact L | now right].
Qed.

(** Close a walk: every equation collected on the way is between
    members of the objects met. *)
Ltac report_tac :=
  unfold read_on, kept_fields, buffer_ok, buffer_size in *; proj_all; event_types;
  intuition (first [congruence | discriminate]).

Lemma readEvent_bytes_reports (et length : Z) (s : MidiFileStream) :
  buffer_ok s ->
  exists r s',
    readEvent_bytes et length s = Some (r, s')
    /\ r = _eventType s'
    /\ kept_fields s' = kept_fields s
    /\ buffer_size s' = buffer_size s
    /\ (_eventType s' = et \/ _eventType s' = ET_UNK).
Proof.
  intros Hok. unfold readEvent_bytes. cbv zeta.
  destruct (readVariableBytes_safe length
              (bytes (buffer (_eventData (set_eventType et s)))) (set_eventType et s))
    as (r & buf' & s1 & E & Hl & _ & _ & O); [exact Hok |].
  rewrite E. pose proof (read_on_only_read _ _ O) as H.
  destruct (length_ (buffer (_eventData (set_buffer_length (cast_int r)
                                           (set_buffer_bytes buf' s1)))) <? 0);
    unfold fail, ret; eexists _, _; (split; [reflexivity |]);
    (split; [reflexivity |]); report_tac.
Qed.

(** Take the next read or the next test of the function in the goal,
    noting what it keeps; [s0] is the object the walk began in. *)
Ltac report_step s0 :=
  match goal with
  | |- context [if ?c then _ else _] => destruct c
  | |- context [readChunkByte_noting ?x] =>
      let H := fresh "Hon" in
      pose proof (readChunkByte_noting_read_on x) as H;
      destruct (readChunkByte_noting x) as [? ?]; cbn [snd] in H
  | |- context [readChunkByte ?x] =>
      let H := fresh "Hon" in
      pose proof (readChunkByte_read_on x) as H;
      destruct (readChunkByte x) as [? ?]; cbn [snd] in H
  | |- context [readFixedLong ?n ?x] =>
      let H := fresh "Hon" in
      pose proof (readFixedLong_read_on n x) as H;
      destruct (readFixedLong n x) as [? ?]; cbn [snd] in H
  | |- context [readVariableLong ?x] =>
      let H := fresh "Hon" in
      pose proof (readVariableLong_read_on x) as H;
      destruct (readVariableLong x) as [? ?]; cbn [snd] in H
  | |- context [skipChunkBytes ?n ?x] =>
      let H := fresh "Hon" in
      pose proof (skipChunkBytes_read_on n x) as H;
      destruct (skipChunkBytes n x) as [? ?]; cbn [snd] in H
  | Hok : buffer_ok s0 |- context [readEvent_bytes ?et ?len ?x] =>
      let H := fresh "Hok" in
      let r := fresh "r" in
      let s' := fresh "s" in
      let E := fresh "E" in
      assert (H : buffer_ok x) by report_tac;
      destruct (readEvent_bytes_reports et len x H) as (r & s' & E & ? & ? & ? & ?);
      rewrite E; clear H
  end.

Ltac report_end :=
  unfold fail, ret; eexists _, _; split; [reflexivity |];
  split; [first [reflexivity | assumption] |]; report_tac.

Lemma readEvent_meta_reports (metaType length : Z) (s : MidiFileStream) :
  buffer_ok s ->
  exists r s',
    readEvent_meta metaType length s = Some (r, s')
    /\ r = _eventType s'
    /\ kept_fields s' = kept_fields s
    /\ buffer_size s' = buffer_size s
    /\ _eventType s' <> ET_END.
Proof.
  intros Hok. unfold readEvent_meta. cbv zeta.
  repeat report_step s; report_end.
Qed.

Lemma readEvent_channel_reports (bint : Z) (s : MidiFileStream) :
  exists r s',
    readEvent_channel bint s = Some (r, s')
    /\ r = _eventType s'
    /\ kept_fields s' = kept_fields s
    /\ buffer_size s' = buffer_size s
    /\ _eventType s' <> ET_END.
Proof.
  unfold readEvent_channel, readEvent_status, readEvent_param2. cbv zeta.
  repeat report_step s; report_end.
Qed.

(** After the delta time: the rest of [readEvent], from the object [x]
    in which the delta time was set. *)
Lemma readEvent_rest_reports (x : MidiFileStream) :
  buffer_ok x -> _eventType x = ET_UNK ->
  exists r s',
    (let '(bint, s) := readChunkByte x in
     if bint <? 0 then fail s
     else if (bint =? 0xF0) || (bint =? 0xF7) then
       let s := set_runningStatus 0 s in
       let '(length, s) := readVariableLong s in
       if length <? 0 then fail s
       else if bint =? 0xF0 then readEvent_bytes ET_SYSEX_F0 length s
       else if bint =? 0xF7 then readEvent_bytes ET_SYSEX_ESC length s
       else ret s
     else if bint =? 0xFF then
       let s := set_runningStatus 0 s in
       let '(metaType, s) := readChunkByte s in
       if metaType <? 0 then fail s
       else
         let '(length, s) := readVariableLong s in
         if length <? 0 then fail s
         else readEvent_meta metaType length s
     else readEvent_channel bint s) = Some (r, s')
    /\ r = _eventType s'
    /\ kept_fields s' = kept_fields x
    /\ buffer_size s' = buffer_size x
    /\ _eventType s' <> ET_END.
Proof.
  intros Hok Hx. cbv zeta.
  repeat report_step x;
    try (match goal with
         | |- context [readEvent_meta ?m ?l ?y] =>
             let H := fresh "Hok" in
             assert (H : buffer_ok y) by report_tac;
             destruct (readEvent_meta_reports m l y H) as (? & ? & -> & ? & ? & ? & ?);
             clear H
         | |- context [readEvent_channel ?b ?y] =>
             destruct (readEvent_channel_reports b y) as (? & ? & -> & ? & ? & ? & ?)
         end);
    report_end.
Qed.

(** X9. What a caller can rely on after any call of [readEvent] (on an
    object whose event buffer has its declared size): the call returns;
    the value returned is what [getEventType] then gives;
    [getEventDeltaTicks] gives what the delta time decoded to; the
    format, the number of tracks and the ticks per beat are untouched;
    and [ET_END] is returned exactly when the delta time could not be
    read, never for an event that is cut short later. *)
Theorem readEvent_reports (s : MidiFileStream) :
  buffer_ok s ->
  exists r s',
    readEvent s = Some (r, s')
    /\ getEventType s' = r
    /\ getEventDeltaTicks s' = fst (readVariableLong s)
    /\ getFormat s' = getFormat s
    /\ getNumTracks s' = getNumTracks s
    /\ getTicksPerBeat s' = getTicksPerBeat s
    /\ buffer_ok s'
    /\ (r = ET_END <-> fst (readVariableLong s) < 0).
Proof.
  intros Hok. rewrite readEvent_delta. cbv zeta.
  pose proof (readVariableLong_read_on s) as Hon.
  destruct (readVariableLong s) as [dt s1]. cbn [fst snd] in *.
  unfold getEventType, getEventDeltaTicks, getFormat, getNumTracks, getTicksPerBeat.
  destruct (dt <? 0) eqn:Edt; zb Edt.
  - eexists _, _. split; [reflexivity |].
    unfold read_on, kept_fields, buffer_ok, buffer_size in *. proj_all.
    destruct Hon as (K & L & _). inversion K.
    repeat split; try reflexivity; try assumption; try congruence.
  - assert (Hok1 : buffer_ok (set_eventDeltaTicks dt (set_eventType ET_UNK s1))).
    { unfold read_on, buffer_ok, buffer_size in *. proj_all.
      destruct Hon as (_ & L & _). congruence. }
    destruct (readEvent_rest_reports _ Hok1 eq_refl) as (r & s' & E & Hr & K & L & Ht).
    exists r, s'. split; [exact E |].
    unfold read_on, kept_fields, buffer_ok, buffer_size in *. proj_all.
    destruct Hon as (K' & L' & _). inversion K. inversion K'.
    repeat split; try congruence; lia.
Qed.

Lemma readEvent_reports_witness :
  exists r s',
    readEvent (in_chunk [x00; xff; x51; x03; x07; xa1] 6) = Some (r, s')
    /\ getEventType s' = r
    /\ getEventDeltaTicks s'
       = fst (readVariableLong (in_chunk [x00; xff; x51; x03; x07; xa1] 6))
    /\ getFormat s' = getFormat (in_chunk [x00; xff; x51; x03; x07; xa1] 6)
    /\ getNumTracks s' = getNumTracks (in_chunk [x00; xff; x51; x03; x07; xa1] 6)
    /\ getTicksPerBeat s' = getTicksPerBeat (in_chunk [x00; xff; x51; x03; x07; xa1] 6)
    /\ buffer_ok s'
    /\ (r = ET_END
        <-> fst (readVariableLong (in_chunk [x00; xff; x51; x03; x07; xa1] 6)) < 0).
Proof.
  apply (readEvent_reports (in_chunk [x00; xff; x51; x03; x07; xa1] 6)).
  reflexivity.
Defined.

(** ** begin: the headers it accepts *)

Lemma byte_val_inj (b : byte) (k : Z) : byte_val b = k -> b = byte_of_Z k.
Proof. intros <-. symmetry. apply byte_of_Z_byte_val. Qed.

(** X10. [begin] succeeds on exactly the streams that open with "MThd",
    the length 00 00 00 06, and three 16-bit fields whose first byte is
    below 0x80.  Nothing else is asked of the header: any format number
    and any number of tracks up to 32767 pass.  On success the stream
    stands just behind the fourteen bytes and the header chunk is used
    up. *)
Theorem begin_accepts_exactly (stream : list byte) (s : MidiFileStream) :
  (fst (begin stream s) = true
   <-> exists f1 f2 t1 t2 d1 d2 rest,
         stream = [x4d; x54; x68; x64; x00; x00; x00; x06; f1; f2; t1; t2; d1; d2]
                    ++ rest
         /\ byte_val f1 < 0x80 /\ byte_val t1 < 0x80 /\ byte_val d1 < 0x80)
  /\ (fst (begin stream s) = true ->
      _pStream (snd (begin stream s)) = skipn 14 stream
      /\ getChunkBytesLeft (snd (begin stream s)) = 0).
Proof.
  assert (Hfwd : fst (begin stream s) = true ->
                 exists f1 f2 t1 t2 d1 d2 rest,
                   stream = [x4d; x54; x68; x64; x00; x00; x00; x06;
                             f1; f2; t1; t2; d1; d2] ++ rest
                   /\ (byte_val f1 < 0x80 /\ byte_val t1 < 0x80 /\ byte_val d1 < 0x80)
                   /\ _pStream (snd (begin stream s)) = rest
                   /\ _bytesLeft (snd (begin stream s)) = 0).
  { intros H.
    destruct (begin_true stream s H)
      as (l1 & l2 & l3 & l4 & f1 & f2 & t1 & t2 & d1 & d2 & rest
          & Hs & Hlen & _ & _ & _ & Hf & Ht & Hd & Hp & Hb).
    pose proof (byte_val_range l1). pose proof (byte_val_range l2).
    pose proof (byte_val_range l3). pose proof (byte_val_range l4).
    pose proof (byte_val_range f2). pose proof (byte_val_range t2).
    pose proof (byte_val_range d2).
    unfold declared_length in Hlen.
    assert (E1 : l1 = x00) by (apply (byte_val_inj l1 0); lia).
    assert (E2 : l2 = x00) by (apply (byte_val_inj l2 0); lia).
    assert (E3 : l3 = x00) by (apply (byte_val_inj l3 0); lia).
    assert (E4 : l4 = x06) by (apply (byte_val_inj l4 6); lia).
    subst l1 l2 l3 l4.
    exists f1, f2, t1, t2, d1, d2, rest.
    split; [exact Hs |]. split; [lia |]. split; assumption. }
  split; [split |].
  - intros H. destruct (Hfwd H) as (f1 & f2 & t1 & t2 & d1 & d2 & rest & Hs & Hr & _).
    now exists f1, f2, t1, t2, d1, d2, rest.
  - intros (f1 & f2 & t1 & t2 & d1 & d2 & rest & Hs & Hf & Ht & Hd). subst stream.
    destruct (begin_accepts s f1 f2 t1 t2 d1 d2 rest Hf Ht Hd) as (s' & E & _).
    rewrite E. reflexivity.
  - intros H. destruct (Hfwd H) as (f1 & f2 & t1 & t2 & d1 & d2 & rest & Hs & _ & Hp & Hb).
    unfold getChunkBytesLeft. rewrite Hp, Hb, Hs. split; reflexivity.
Qed.

Lemma begin_accepts_exactly_witness :
  _pStream (snd (begin [x4d; x54; x68; x64; x00; x00; x00; x06;
                        x00; x07; x00; x00; x01; xe0; x4d] closed))
  = skipn 14 [x4d; x54; x68; x64; x00; x00; x00; x06;
              x00; x07; x00; x00; x01; xe0; x4d]
  /\ getChunkBytesLeft (snd (begin [x4d; x54; x68; x64; x00; x00; x00; x06;
                                    x00; x07; x00; x00; x01; xe0; x4d] closed))
     = 0.
Proof.
  destruct (begin_accepts_exactly
              [x4d; x54; x68; x64; x00; x00; x00; x06; x00; x07; x00; x00; x01; xe0; x4d]
              closed) as [Hiff Hpos].
  apply Hpos. apply (proj2 Hiff).
  exists x00, x07, x00, x00, x01, xe0, [x4d].
  split; [reflexivity |]. repeat split; vm_compute; reflexivity.
Defined.

(** ** readVariableBytes: when it fails *)

Lemma readable_advance (n : nat) (s : MidiFileStream) :
  Z.of_nat n <= readable s -> readable (advance n s) = readable s - Z.of_nat n.
Proof.
  unfold readable. rewrite advance_pStream, advance_bytesLeft, length_skipn. lia.
Qed.

Lemma readable_split (n : nat) (s : MidiFileStream) :
  (0 < n)%nat ->
  Z.of_nat n <= readable s ->
  exists payload rest,
    _pStream s = payload ++ rest /\ List.length payload = n
    /\ Z.of_nat n <= _bytesLeft s.
Proof.
  unfold readable. intros Hn H.
  exists (firstn n (_pStream s)), (skipn n (_pStream s)).
  split; [symmetry; apply firstn_skipn |].
  split; [rewrite length_firstn; lia |].
  lia.
Qed.

Lemma skipChunkBytes_unreadable (n : nat) :
  forall s,
    readable s < Z.of_nat n ->
    fst (skipChunkBytes n s) = false /\ readable (snd (skipChunkBytes n s)) = 0.
Proof.
  induction n as [|n IH]; intros s H.
  - pose proof (readable_nonneg s). cbn in H. lia.
  - cbn [skipChunkBytes].
    destruct (Z_le_gt_dec (readable s) 0) as [L | G].
    + destruct (readChunkByte_unreadable s L) as [Hr Hz].
      destruct (readChunkByte s) as [bint s1]. cbn [fst snd] in Hr, Hz. subst bint.
      change (-1 <? 0) with true. cbv iota. split; [reflexivity | exact Hz].
    + destruct (readChunkByte_readable s ltac:(lia)) as (b & rest & _ & _ & E & Hd).
      rewrite E, byte_val_ltb0. apply IH. lia.
Qed.

Lemma readVariableBytes_fill_unreadable (n : nat) :
  forall bytesRead cp pBuffer s,
    (cp + n <= List.length pBuffer)%nat ->
    readable s < Z.of_nat n ->
    exists bytesRead' cp' pBuffer' s',
      readVariableBytes_fill n bytesRead cp pBuffer s
      = Some (false, bytesRead', cp', pBuffer', s')
      /\ readable s' = 0.
Proof.
  induction n as [|n IH]; intros bytesRead cp pBuffer s Hcp H.
  - pose proof (readable_nonneg s). cbn in H. lia.
  - cbn [readVariableBytes_fill].
    destruct (Z_le_gt_dec (readable s) 0) as [L | G].
    + destruct (readChunkByte_unreadable s L) as [Hr Hz].
      destruct (readChunkByte s) as [bint s1]. cbn [fst snd] in Hr, Hz. subst bint.
      change (-1 <? 0) with true. cbv iota. now eexists _, _, _, _.
    + destruct (readChunkByte_readable s ltac:(lia)) as (b & rest & _ & _ & E & Hd).
      rewrite E, byte_val_ltb0. rewrite store_in_range by lia.
      apply IH; [| lia].
      rewrite length_app. cbn [List.length]. rewrite length_firstn, length_skipn. lia.
Qed.

(** X11. [readVariableBytes], given a buffer of [EV_BUFFER_SIZE]
    characters and a length that is not negative, returns -1 exactly
    when fewer than [length] bytes can still be read from the chunk; it
    has then taken every byte that could be read.  Otherwise it returns
    the length cut to 140 and has taken [length] bytes. *)
Theorem readVariableBytes_fails_iff_unreadable
    (length : Z) (pBuffer : list Z) (s : MidiFileStream) :
  Z.of_nat (List.length pBuffer) = EV_BUFFER_SIZE ->
  0 <= length ->
  exists r pBuffer' s',
    readVariableBytes length pBuffer s = Some (r, pBuffer', s')
    /\ (r = -1 <-> readable s < length)
    /\ (length <= readable s ->
        r = Z.min length 140 /\ readable s' = readable s - length)
    /\ (readable s < length -> readable s' = 0).
Proof.
  intros Hlen Hpos.
  destruct (Z_lt_ge_dec (readable s) length) as [Hun | Hre].
  - enough (exists pBuffer' s',
               readVariableBytes length pBuffer s = Some (-1, pBuffer', s')
               /\ readable s' = 0) as (buf' & s' & E & Hz).
    { exists (-1), buf', s'. split; [exact E |].
      split; [split; [intros _; exact Hun | reflexivity] |].
      split; [lia | intros _; exact Hz]. }
    unfold EV_BUFFER_SIZE in Hlen. unfold readVariableBytes.
    rewrite store_in_range by lia.
    set (buf0 := firstn 0 pBuffer ++ 0 :: skipn 1 pBuffer).
    assert (Hlen0 : List.length buf0 = List.length pBuffer).
    { unfold buf0. rewrite length_app. cbn [List.length].
      rewrite length_firstn, length_skipn. lia. }
    change (EV_BUFFER_SIZE - 1) with 140.
    set (n := Z.to_nat (Z.min length 140)).
    assert (Etr : (if length >? 140 then 140 else length) = Z.of_nat n).
    { unfold n. destruct (length >? 140) eqn:E; zb E; lia. }
    rewrite Etr, Nat2Z.id.
    destruct (Z_lt_ge_dec (readable s) (Z.of_nat n)) as [Hfill | Hfill].
    + destruct (readVariableBytes_fill_unreadable n 0 0%nat buf0 s ltac:(lia) Hfill)
        as (br & cp & buf1 & s1 & E & Hz).
      rewrite E. cbn [negb]. now eexists _, _.
    + assert (Hn : (0 < n)%nat) by (pose proof (readable_nonneg s); lia).
      destruct (readable_split n s Hn ltac:(lia)) as (payload & rest & Hs & Hp & Hb).
      rewrite <- Hp.
      rewrite (readVariableBytes_fill_success payload 0 0%nat buf0 s rest);
        try assumption; try lia.
      cbn [negb]. rewrite store_in_range
        by (cbn [firstn app Nat.add];
            rewrite length_app, length_map, length_skipn; lia).
      destruct (skipChunkBytes_unreadable
                  (Z.to_nat (length - (0 + Z.of_nat (List.length payload))))
                  (advance (List.length payload) s)) as [Hf Hz].
      { rewrite readable_advance by lia. lia. }
      destruct (skipChunkBytes _ (advance (List.length payload) s)) as [ok s2].
      cbn [fst snd] in Hf, Hz. subst ok. cbn [negb]. now eexists _, _.
  - destruct (Z.eq_dec length 0) as [-> | Hnz].
    + unfold EV_BUFFER_SIZE in Hlen. unfold readVariableBytes.
      rewrite store_in_range by lia.
      change (0 >? EV_BUFFER_SIZE - 1) with false. cbv iota.
      cbn [Z.to_nat readVariableBytes_fill negb].
      rewrite store_in_range
        by (rewrite length_app; cbn [List.length]; rewrite length_firstn, length_skipn;
            lia).
      cbn [Z.sub Z.opp Z.add Z.to_nat skipChunkBytes negb].
      eexists _, _, _. split; [reflexivity |].
      split; [split; [discriminate | lia] |].
      split; [intros _; split; [reflexivity | lia] | lia].
    + destruct (readable_split (Z.to_nat length) s ltac:(lia) ltac:(lia))
        as (payload & rest & Hs & Hp & Hb).
      rewrite (Z2Nat.id length Hpos) in Hb.
      rewrite (readVariableBytes_success length pBuffer s payload rest Hlen Hs
                 ltac:(lia) Hb).
      eexists _, _, _. split; [reflexivity |].
      change (EV_BUFFER_SIZE - 1) with 140.
      split; [split; lia |].
      split; [| lia].
      intros _. split; [reflexivity |].
      rewrite readable_advance by lia. lia.
Qed.

Lemma readVariableBytes_fails_iff_unreadable_witness :
  exists r pBuffer' s',
    readVariableBytes 3 (repeat 0 141) (in_chunk [x41; x42; x43; x00] 2)
    = Some (r, pBuffer', s')
    /\ (r = -1 <-> readable (in_chunk [x41; x42; x43; x00] 2) < 3)
    /\ (3 <= readable (in_chunk [x41; x42; x43; x00] 2) ->
        r = Z.min 3 140
        /\ readable s' = readable (in_chunk [x41; x42; x43; x00] 2) - 3)
    /\ (readable (in_chunk [x41; x42; x43; x00] 2) < 3 -> readable s' = 0).
Proof.
  apply (readVariableBytes_fails_iff_unreadable 3 (repeat 0 141)
           (in_chunk [x41; x42; x43; x00] 2)).
  - reflexivity.
  - lia.
Defined.

(** ** readEvent: the meta events of fixed shape *)

(** A meta event whose length is written in one byte: what [readEvent]
    has done when it reaches the [switch] on the meta type. *)
Lemma readEvent_meta_header
    (s s1 : MidiFileStream) (dt : Z) (mt lenb : byte) (rest : list byte) :
  readVariableLong s = (dt, s1) -> 0 <= dt ->
  _pStream s1 = xff :: mt :: lenb :: rest ->
  3 <= _bytesLeft s1 ->
  byte_val lenb < 0x80 ->
  readEvent s
  = readEvent_meta (byte_val mt) (byte_val lenb)
      (set_runningStatus 0 (set_eventDeltaTicks dt (set_eventType ET_UNK (advance 3 s1)))).
Proof.
  intros E1 Hdt Hs Hb Hl.
  pose proof (byte_val_range mt) as Rm. pose proof (byte_val_range lenb) as Rl.
  apply (readEvent_meta_event s s1 (advance 1 s1) (advance 2 s1) (advance 3 s1));
    try assumption; try lia.
  - apply (readChunkByte_cons s1 xff (mt :: lenb :: rest)); [lia | exact Hs].
  - change (advance 2 s1) with (advance (1 + 1) s1). rewrite <- advance_advance.
    apply (readChunkByte_cons _ mt (lenb :: rest));
      [rewrite advance_bytesLeft; lia | rewrite advance_pStream, Hs; reflexivity].
  - change (advance 3 s1) with (advance (2 + (List.length (@nil byte) + 1)) s1).
    rewrite <- advance_advance.
    replace (byte_val lenb) with (vlq_value 0 ([] ++ [lenb])) at 1.
    + apply (readVariableLong_decode [] lenb (advance 2 s1)).
      * constructor.
      * unfold continuation. rewrite land_0x80_range by lia.
        destruct (byte_val lenb <? 128) eqn:E; [discriminate | zb E; lia].
      * exists rest. rewrite advance_pStream, Hs. reflexivity.
      * rewrite advance_bytesLeft. cbn [List.length]. lia.
      * cbn [List.length]. lia.
      * cbn [app vlq_value fold_left]. rewrite land_0x7F.
        pose proof (Z.mod_pos_bound (byte_val lenb) 128 ltac:(lia)). lia.
    + cbn [app vlq_value fold_left]. rewrite land_0x7F.
      rewrite Z.mod_small by lia. lia.
Qed.

Lemma readChunkByte_noting_cons (s : MidiFileStream) (b : byte) (rest : list byte) :
  0 < _bytesLeft s -> _pStream s = b :: rest ->
  readChunkByte_noting s = (byte_val b, advance 1 s).
Proof.
  intros H E. unfold readChunkByte_noting.
  rewrite (readChunkByte_cons s b rest H E), byte_val_ltb0. reflexivity.
Qed.

(** Side conditions of the reads of an event whose bytes are known:
    [Hs] tells the stream, [Hb] the budget of the chunk. *)
Ltac known_bytes Hs :=
  proj_all; rewrite ?advance_pStream, ?advance_bytesLeft; proj_all;
  rewrite ?Hs; cbn [skipn List.length app];
  first [reflexivity | lia].

(** Close the decoding of an event: what is left are equations between
    members of the object reached. *)
Ltac event_done Hs :=
  proj_all; rewrite ?Hs; cbn [skipn List.length app];
  repeat split; try reflexivity; lia.

(** X12. The Set Tempo meta event FF 51 03 tt tt tt is returned as
    [ET_TEMPO]; the microseconds per beat are the three bytes read as
    one number, most significant byte first. *)
Theorem readEvent_tempo
    (s s1 : MidiFileStream) (dt : Z) (t1 t2 t3 : byte) (rest : list byte) :
  readVariableLong s = (dt, s1) -> 0 <= dt ->
  _pStream s1 = xff :: x51 :: x03 :: t1 :: t2 :: t3 :: rest ->
  6 <= _bytesLeft s1 ->
  exists s',
    readEvent s = Some (ET_TEMPO, s')
    /\ tempo_uSecPerBeat (getEventDataP s') = be_value 0 [t1; t2; t3]
    /\ getEventDeltaTicks s' = dt
    /\ _pStream s' = rest
    /\ _bytesLeft s' = _bytesLeft s1 - 6.
Proof.
  intros E1 Hdt Hs Hb.
  rewrite (readEvent_meta_header s s1 dt x51 x03 (t1 :: t2 :: t3 :: rest) E1 Hdt Hs)
    by (try lia; vm_compute; reflexivity).
  switch_on_meta_type. change (byte_val x03 =? 3) with true. cbn [negb].
  pose proof (be_value_bound [t1; t2; t3] 0 ltac:(lia)) as Hbd.
  pose proof (be_value_ge [t1; t2; t3] 0 ltac:(lia)) as Hge.
  change (256 ^ Z.of_nat (List.length [t1; t2; t3])) with 16777216 in Hbd.
  unfold readFixedLong. change (Z.to_nat 3) with (List.length [t1; t2; t3]).
  rewrite (readFixedLong_loop_decode [t1; t2; t3] 0 _ rest);
    [| known_bytes Hs | known_bytes Hs | lia | lia].
  proj_all.
  destruct (be_value 0 [t1; t2; t3] <? 0) eqn:E; [zb E; lia | clear E].
  unfold ret. eexists. split; [reflexivity |].
  unfold getEventDeltaTicks. event_done Hs.
Qed.

Lemma readEvent_tempo_witness :
  exists s',
    readEvent (in_chunk [x00; xff; x51; x03; x07; xa1; x20; x00] 7) = Some (ET_TEMPO, s')
    /\ tempo_uSecPerBeat (getEventDataP s') = be_value 0 [x07; xa1; x20]
    /\ getEventDeltaTicks s' = 0
    /\ _pStream s' = [x00]
    /\ _bytesLeft s'
       = _bytesLeft (snd (readVariableLong
                            (in_chunk [x00; xff; x51; x03; x07; xa1; x20; x00] 7))) - 6.
Proof.
  apply (readEvent_tempo (in_chunk [x00; xff; x51; x03; x07; xa1; x20; x00] 7)
           (snd (readVariableLong (in_chunk [x00; xff; x51; x03; x07; xa1; x20; x00] 7)))
           0 x07 xa1 x20 [x00]).
  - vm_compute. reflexivity.
  - lia.
  - reflexivity.
  - vm_compute. discriminate.
Defined.

Lemma lor_neg128 (b : Z) : 128 <= b < 256 -> Z.lor b (-128) = b - 256.
Proof.
  intros H.
  replace b with (Z.lor 128 (b - 128)) at 1
    by (rewrite lor_low7 by (try reflexivity; lia); lia).
  rewrite (Z.lor_comm 128), <- Z.lor_assoc.
  change (Z.lor 128 (-128)) with (-128).
  rewrite Z.lor_comm, lor_low7 by (try reflexivity; lia). lia.
Qed.

(** X13. The Key Signature meta event FF 59 02 sf mi is returned as
    [ET_KEY_SIGN]; the first byte is taken as a signed byte, so that
    flats (0x80 and above) come out as negative numbers of sharps. *)
Theorem readEvent_key_signature
    (s s1 : MidiFileStream) (dt : Z) (sf mi : byte) (rest : list byte) :
  readVariableLong s = (dt, s1) -> 0 <= dt ->
  _pStream s1 = xff :: x59 :: x02 :: sf :: mi :: rest ->
  5 <= _bytesLeft s1 ->
  exists s',
    readEvent s = Some (ET_KEY_SIGN, s')
    /\ numSharps (keySign (getEventDataP s'))
       = (if byte_val sf <? 0x80 then byte_val sf else byte_val sf - 256)
    /\ -128 <= numSharps (keySign (getEventDataP s')) < 128
    /\ isMinor (keySign (getEventDataP s')) = byte_val mi
    /\ _pStream s' = rest
    /\ _bytesLeft s' = _bytesLeft s1 - 5.
Proof.
  intros E1 Hdt Hs Hb. pose proof (byte_val_range sf) as Rsf.
  rewrite (readEvent_meta_header s s1 dt x59 x02 (sf :: mi :: rest) E1 Hdt Hs)
    by (try lia; vm_compute; reflexivity).
  switch_on_meta_type. change (byte_val x02 =? 2) with true. cbn [negb].
  rewrite (readChunkByte_noting_cons _ sf (mi :: rest)) by known_bytes Hs.
  proj_all. cbn [numSharps]. rewrite land_0x80_range by lia.
  destruct (byte_val sf <? 128) eqn:Esf; zb Esf;
    [change (0 =? 0) with true | change (128 =? 0) with false]; cbn [negb];
    rewrite (readChunkByte_noting_cons _ mi rest) by known_bytes Hs;
    unfold ret; (eexists; split; [reflexivity |]).
  - proj_all. cbn [numSharps isMinor]. event_done Hs.
  - proj_all. cbn [numSharps isMinor]. rewrite lor_neg128 by lia. event_done Hs.
Qed.

Lemma readEvent_key_signature_witness :
  exists s',
    readEvent (in_chunk [x00; xff; x59; x02; xfd; x01; x00] 6) = Some (ET_KEY_SIGN, s')
    /\ numSharps (keySign (getEventDataP s'))
       = (if byte_val xfd <? 0x80 then byte_val xfd else byte_val xfd - 256)
    /\ -128 <= numSharps (keySign (getEventDataP s')) < 128
    /\ isMinor (keySign (getEventDataP s')) = byte_val x01
    /\ _pStream s' = [x00]
    /\ _bytesLeft s'
       = _bytesLeft (snd (readVariableLong
                            (in_chunk [x00; xff; x59; x02; xfd; x01; x00] 6))) - 5.
Proof.
  apply (readEvent_key_signature (in_chunk [x00; xff; x59; x02; xfd; x01; x00] 6)
           (snd (readVariableLong (in_chunk [x00; xff; x59; x02; xfd; x01; x00] 6)))
           0 xfd x01 [x00]).
  - vm_compute. reflexivity.
  - lia.
  - reflexivity.
  - vm_compute. discriminate.
Defined.

(** X14. The Time Signature meta event FF 58 04 nn dd cc bb is returned
    as [ET_TIME_SIGN]; the denominator stored is two to the power dd
    (for dd up to 14, which fits the 16-bit [int]), the other three
    bytes are stored as they are. *)
Theorem readEvent_time_signature
    (s s1 : MidiFileStream) (dt : Z) (nn dd cc bb : byte) (rest : list byte) :
  readVariableLong s = (dt, s1) -> 0 <= dt ->
  _pStream s1 = xff :: x58 :: x04 :: nn :: dd :: cc :: bb :: rest ->
  7 <= _bytesLeft s1 ->
  byte_val dd <= 14 ->
  exists s',
    readEvent s = Some (ET_TIME_SIGN, s')
    /\ timeSign (getEventDataP s')
       = mkDataTimeSign (byte_val nn) (2 ^ byte_val dd) (byte_val cc) (byte_val bb)
    /\ _pStream s' = rest
    /\ _bytesLeft s' = _bytesLeft s1 - 7.
Proof.
  intros E1 Hdt Hs Hb Hdd. pose proof (byte_val_range dd) as Rdd.
  rewrite (readEvent_meta_header s s1 dt x58 x04 (nn :: dd :: cc :: bb :: rest)
             E1 Hdt Hs) by (try lia; vm_compute; reflexivity).
  switch_on_meta_type. change (byte_val x04 =? 4) with true. cbn [negb].
  rewrite (readChunkByte_noting_cons _ nn (dd :: cc :: bb :: rest)) by known_bytes Hs.
  rewrite (readChunkByte_noting_cons _ dd (cc :: bb :: rest)) by known_bytes Hs.
  rewrite (readChunkByte_noting_cons _ cc (bb :: rest)) by known_bytes Hs.
  rewrite (readChunkByte_noting_cons _ bb rest) by known_bytes Hs.
  assert (Hpow : 0 < 2 ^ byte_val dd <= 2 ^ 14)
    by (split; [apply Z.pow_pos_nonneg | apply Z.pow_le_mono_r]; lia).
  change (2 ^ 14) with 16384 in Hpow.
  rewrite Z.shiftl_1_l, cast_int_id by lia.
  unfold ret. eexists. split; [reflexivity |]. event_done Hs.
Qed.

Lemma readEvent_time_signature_witness :
  exists s',
    readEvent (in_chunk [x00; xff; x58; x04; x06; x03; x18; x08; x00] 8)
    = Some (ET_TIME_SIGN, s')
    /\ timeSign (getEventDataP s')
       = mkDataTimeSign (byte_val x06) (2 ^ byte_val x03) (byte_val x18) (byte_val x08)
    /\ _pStream s' = [x00]
    /\ _bytesLeft s'
       = _bytesLeft (snd (readVariableLong
                            (in_chunk [x00; xff; x58; x04; x06; x03; x18; x08; x00] 8)))
         - 7.
Proof.
  apply (readEvent_time_signature
           (in_chunk [x00; xff; x58; x04; x06; x03; x18; x08; x00] 8)
           (snd (readVariableLong
                   (in_chunk [x00; xff; x58; x04; x06; x03; x18; x08; x00] 8)))
           0 x06 x03 x18 x08 [x00]).
  - vm_compute. reflexivity.
  - lia.
  - reflexivity.
  - vm_compute. discriminate.
  - vm_compute. discriminate.
Defined.

(** X15. The SMPTE Offset meta event FF 54 05 hr mn se fr ff is
    returned as [ET_SMPTE_OFFSET] with its five bytes stored in the
    order read, each as a number from 0 to 255. *)
Theorem readEvent_smpte_offset
    (s s1 : MidiFileStream) (dt : Z) (hr mn se fr ff : byte) (rest : list byte) :
  readVariableLong s = (dt, s1) -> 0 <= dt ->
  _pStream s1 = xff :: x54 :: x05 :: hr :: mn :: se :: fr :: ff :: rest ->
  8 <= _bytesLeft s1 ->
  exists s',
    readEvent s = Some (ET_SMPTE_OFFSET, s')
    /\ smpteOffset (getEventDataP s')
       = mkDataSmpteOffset (byte_val hr) (byte_val mn) (byte_val se)
           (byte_val fr) (byte_val ff)
    /\ _pStream s' = rest
    /\ _bytesLeft s' = _bytesLeft s1 - 8.
Proof.
  intros E1 Hdt Hs Hb.
  rewrite (readEvent_meta_header s s1 dt x54 x05 (hr :: mn :: se :: fr :: ff :: rest)
             E1 Hdt Hs) by (try lia; vm_compute; reflexivity).
  switch_on_meta_type. change (byte_val x05 =? 5) with true. cbn [negb].
  rewrite (readChunkByte_noting_cons _ hr (mn :: se :: fr :: ff :: rest))
    by known_bytes Hs.
  rewrite (readChunkByte_noting_cons _ mn (se :: fr :: ff :: rest)) by known_bytes Hs.
  rewrite (readChunkByte_noting_cons _ se (fr :: ff :: rest)) by known_bytes Hs.
  rewrite (readChunkByte_noting_cons _ fr (ff :: rest)) by known_bytes Hs.
  rewrite (readChunkByte_noting_cons _ ff rest) by known_bytes Hs.
  unfold ret. eexists. split; [reflexivity |]. event_done Hs.
Qed.

Lemma readEvent_smpte_offset_witness :
  exists s',
    readEvent (in_chunk [x00; xff; x54; x05; x01; x02; x03; x04; x05; x00] 9)
    = Some (ET_SMPTE_OFFSET, s')
    /\ smpteOffset (getEventDataP s')
       = mkDataSmpteOffset (byte_val x01) (byte_val x02) (byte_val x03)
           (byte_val x04) (byte_val x05)
    /\ _pStream s' = [x00]
    /\ _bytesLeft s'
       = _bytesLeft
           (snd (readVariableLong
                   (in_chunk [x00; xff; x54; x05; x01; x02; x03; x04; x05; x00] 9)))
         - 8.
Proof.
  apply (readEvent_smpte_offset
           (in_chunk [x00; xff; x54; x05; x01; x02; x03; x04; x05; x00] 9)
           (snd (readVariableLong
                   (in_chunk [x00; xff; x54; x05; x01; x02; x03; x04; x05; x00] 9)))
           0 x01 x02 x03 x04 x05 [x00]).
  - vm_compute. reflexivity.
  - lia.
  - reflexivity.
  - vm_compute. discriminate.
Defined.

(** X16. The Sequence Number meta event FF 00 02 ss ss is returned as
    [ET_SEQ_NUM]; the number is the two bytes, most significant first,
    put into a 16-bit [int]: from 0x8000 on it comes out negative. *)
Theorem readEvent_sequence_number
    (s s1 : MidiFileStream) (dt : Z) (n1 n2 : byte) (rest : list byte) :
  readVariableLong s = (dt, s1) -> 0 <= dt ->
  _pStream s1 = xff :: x00 :: x02 :: n1 :: n2 :: rest ->
  5 <= _bytesLeft s1 ->
  exists s',
    readEvent s = Some (ET_SEQ_NUM, s')
    /\ seqNum_number (getEventDataP s')
       = (if byte_val n1 <? 0x80 then be_value 0 [n1; n2]
          else be_value 0 [n1; n2] - 65536)
    /\ _pStream s' = rest
    /\ _bytesLeft s' = _bytesLeft s1 - 5.
Proof.
  intros E1 Hdt Hs Hb.
  pose proof (byte_val_range n1) as R1. pose proof (byte_val_range n2) as R2.
  rewrite (readEvent_meta_header s s1 dt x00 x02 (n1 :: n2 :: rest) E1 Hdt Hs)
    by (try lia; vm_compute; reflexivity).
  switch_on_meta_type. change (byte_val x02 =? 2) with true. cbn [negb].
  rewrite (readFixedLong_2 _ n1 n2 rest) by known_bytes Hs.
  destruct (byte_val n1 * 256 + byte_val n2 <? 0) eqn:E; [zb E; lia | clear E].
  unfold ret. eexists. split; [reflexivity |].
  proj_all. cbn [be_value fold_left]. rewrite Z.mul_0_l, Z.add_0_l.
  destruct (byte_val n1 <? 128) eqn:E; zb E.
  - rewrite cast_int_id by lia. event_done Hs.
  - rewrite cast_int_high by lia. event_done Hs.
Qed.

Lemma readEvent_sequence_number_witness :
  exists s',
    readEvent (in_chunk [x00; xff; x00; x02; x80; x01; x00] 6) = Some (ET_SEQ_NUM, s')
    /\ seqNum_number (getEventDataP s')
       = (if byte_val x80 <? 0x80 then be_value 0 [x80; x01]
          else be_value 0 [x80; x01] - 65536)
    /\ _pStream s' = [x00]
    /\ _bytesLeft s'
       = _bytesLeft (snd (readVariableLong
                            (in_chunk [x00; xff; x00; x02; x80; x01; x00] 6))) - 5.
Proof.
  apply (readEvent_sequence_number (in_chunk [x00; xff; x00; x02; x80; x01; x00] 6)
           (snd (readVariableLong (in_chunk [x00; xff; x00; x02; x80; x01; x00] 6)))
           0 x80 x01 [x00]).
  - vm_compute. reflexivity.
  - lia.
  - reflexivity.
  - vm_compute. discriminate.
Defined.

(** X17. The Channel Prefix meta event FF 20 01 cc is returned as
    [ET_CHAN_PREFIX] with the byte cc as the channel; the byte is not
    checked against the sixteen channels there are. *)
Theorem readEvent_channel_prefix
    (s s1 : MidiFileStream) (dt : Z) (cc : byte) (rest : list byte) :
  readVariableLong s = (dt, s1) -> 0 <= dt ->
  _pStream s1 = xff :: x20 :: x01 :: cc :: rest ->
  4 <= _bytesLeft s1 ->
  exists s',
    readEvent s = Some (ET_CHAN_PREFIX, s')
    /\ chanPrefix_chan (getEventDataP s') = byte_val cc
    /\ _pStream s' = rest
    /\ _bytesLeft s' = _bytesLeft s1 - 4.
Proof.
  intros E1 Hdt Hs Hb.
  rewrite (readEvent_meta_header s s1 dt x20 x01 (cc :: rest) E1 Hdt Hs)
    by (try lia; vm_compute; reflexivity).
  switch_on_meta_type. change (byte_val x01 =? 1) with true. cbn [negb].
  rewrite (readChunkByte_cons _ cc rest) by known_bytes Hs.
  rewrite byte_val_ltb0.
  unfold ret. eexists. split; [reflexivity |]. event_done Hs.
Qed.

Lemma readEvent_channel_prefix_witness :
  exists s',
    readEvent (in_chunk [x00; xff; x20; x01; x2a; x00] 5) = Some (ET_CHAN_PREFIX, s')
    /\ chanPrefix_chan (getEventDataP s') = byte_val x2a
    /\ _pStream s' = [x00]
    /\ _bytesLeft s'
       = _bytesLeft (snd (readVariableLong (in_chunk [x00; xff; x20; x01; x2a; x00] 5)))
         - 4.
Proof.
  apply (readEvent_channel_prefix (in_chunk [x00; xff; x20; x01; x2a; x00] 5)
           (snd (readVariableLong (in_chunk [x00; xff; x20; x01; x2a; x00] 5)))
           0 x2a [x00]).
  - vm_compute. reflexivity.
  - lia.
  - reflexivity.
  - vm_compute. discriminate.
Defined.

(** ** readEvent: events that carry a run of bytes, and unknown meta events *)

Lemma cast_char_cases (z : Z) :
  0 <= z < 256 -> cast_char z = z \/ cast_char z < 0.
Proof.
  intros H. destruct (Z_lt_ge_dec z 128) as [L | G].
  - left. apply cast_char_id. lia.
  - right. unfold cast_char, wrap. change (2 ^ (8 - 1)) with 128.
    change (2 ^ 8) with 256.
    replace (z + 128) with ((z - 128) + 1 * 256) by lia.
    rewrite Z.mod_add, Z.mod_small by lia. lia.
Qed.

(** The [default] case of the [switch] on the meta type. *)
Lemma readEvent_meta_default (metaType length : Z) (s : MidiFileStream) :
  0 <= metaType < 256 ->
  fixed_meta_length metaType = None ->
  text_event_type metaType = None ->
  readEvent_meta metaType length s
  = (let s := set_eventType ET_NO_OP s in
     let '(ok, s) := skipChunkBytes (Z.to_nat length) s in
     if negb ok then fail s else ret s).
Proof.
  intros Hmt Hf Ht. unfold fixed_meta_length in Hf. unfold text_event_type in Ht.
  repeat match type of Hf with
         | (if ?c then _ else _) = _ =>
             let E := fresh "E" in destruct c eqn:E; [discriminate | zb E]
         end.
  repeat match type of Ht with
         | (if ?c then _ else _) = _ =>
             let E := fresh "E" in destruct c eqn:E; [discriminate | zb E]
         end.
  unfold readEvent_meta. cbv zeta.
  destruct (cast_char_cases metaType Hmt) as [Hc | Hc];
    repeat match goal with
           | |- context [cast_char metaType =? ?k] =>
               let E := fresh "E" in
               destruct (cast_char metaType =? k) eqn:E; [zb E; lia | clear E]
           end;
    reflexivity.
Qed.

(** X18. A meta event of a type the reader does not know (any type but
    00, 01..07, 20, 2F, 51, 54, 58 and 59) is stepped over: its [length]
    bytes are taken from the chunk and [ET_NO_OP] is returned, with the
    event data untouched.  If the chunk cannot deliver that many bytes
    the answer is [ET_UNK]. *)
Theorem readEvent_unknown_meta
    (s s1 s2 s3 s4 : MidiFileStream) (dt metaType length : Z) :
  readVariableLong s = (dt, s1) -> 0 <= dt ->
  readChunkByte s1 = (0xFF, s2) ->
  readChunkByte s2 = (metaType, s3) -> 0 <= metaType < 256 ->
  readVariableLong s3 = (length, s4) -> 0 <= length ->
  fixed_meta_length metaType = None ->
  text_event_type metaType = None ->
  exists s',
    readEvent s = Some ((if length <=? readable s4 then ET_NO_OP else ET_UNK), s')
    /\ (length <= readable s4 ->
        _pStream s' = skipn (Z.to_nat length) (_pStream s4)
        /\ _bytesLeft s' = _bytesLeft s4 - length)
    /\ _eventData s' = _eventData s.
Proof.
  intros E1 Hdt E2 E3 Hmt E4 Hlen Hf Ht.
  assert (Hd : _eventData s4 = _eventData s).
  { pose proof (readVariableLong_only_read s) as H1.
    pose proof (readChunkByte_only_read s1) as H2.
    pose proof (readChunkByte_only_read s2) as H3.
    pose proof (readVariableLong_only_read s3) as H4.
    rewrite E1 in H1. rewrite E2 in H2. rewrite E3 in H3. rewrite E4 in H4.
    cbn [snd] in *.
    apply (only_read_fields s s4).
    eauto using only_read_trans. }
  rewrite (readEvent_meta_event s s1 s2 s3 s4 dt metaType length E1 Hdt E2 E3
             ltac:(lia) E4 Hlen).
  rewrite readEvent_meta_default by assumption. cbv zeta.
  set (x := set_eventType ET_NO_OP
              (set_runningStatus 0 (set_eventDeltaTicks dt (set_eventType ET_UNK s4)))).
  assert (Hx : readable x = readable s4) by reflexivity.
  pose proof (skipChunkBytes_only_read (Z.to_nat length) x) as Ho.
  destruct (length <=? readable s4) eqn:Er; zb Er.
  - assert (Eskip : skipChunkBytes (Z.to_nat length) x
                    = (true, advance (Z.to_nat length) x)).
    { destruct (Z.eq_dec length 0) as [-> | Hnz].
      - cbn [Z.to_nat skipChunkBytes]. now rewrite advance_0.
      - unfold readable in Er.
        apply skipChunkBytes_success; unfold x; proj_all; lia. }
    rewrite Eskip. cbn [negb]. unfold ret. eexists. split; [reflexivity |].
    split; [| proj_all; exact Hd].
    intros _. rewrite advance_pStream, advance_bytesLeft. unfold x. proj_all.
    split; [reflexivity | lia].
  - destruct (skipChunkBytes_unreadable (Z.to_nat length) x ltac:(lia)) as [Hfail _].
    destruct (skipChunkBytes (Z.to_nat length) x) as [ok s5].
    cbn [fst snd] in Hfail, Ho. subst ok. cbn [negb]. unfold fail, ret.
    eexists. split; [reflexivity |].
    split; [lia |].
    proj_all. destruct (only_read_fields _ _ Ho) as (_ & -> & _). exact Hd.
Qed.

Lemma readEvent_unknown_meta_witness :
  exists s',
    readEvent (in_chunk [x00; xff; x7f; x02; x41; x42; x00] 6)
    = Some ((if 2 <=? readable (in_chunk [x41; x42; x00] 2) then ET_NO_OP else ET_UNK),
            s')
    /\ (2 <= readable (in_chunk [x41; x42; x00] 2) ->
        _pStream s' = skipn (Z.to_nat 2) (_pStream (in_chunk [x41; x42; x00] 2))
        /\ _bytesLeft s' = _bytesLeft (in_chunk [x41; x42; x00] 2) - 2)
    /\ _eventData s' = _eventData (in_chunk [x00; xff; x7f; x02; x41; x42; x00] 6).
Proof.
  apply (readEvent_unknown_meta
           (in_chunk [x00; xff; x7f; x02; x41; x42; x00] 6)
           (in_chunk [xff; x7f; x02; x41; x42; x00] 5)
           (in_chunk [x7f; x02; x41; x42; x00] 4)
           (in_chunk [x02; x41; x42; x00] 3)
           (in_chunk [x41; x42; x00] 2)
           0 0x7F 2).
  - vm_compute. reflexivity.
  - lia.
  - vm_compute. reflexivity.
  - vm_compute. reflexivity.
  - lia.
  - vm_compute. reflexivity.
  - lia.
  - reflexivity.
  - reflexivity.
Defined.

(** The events that carry a run of bytes, when the bytes are there. *)
Lemma readEvent_bytes_decode
    (et length : Z) (x : MidiFileStream) (payload rest : list byte) :
  buffer_ok x ->
  _pStream x = payload ++ rest ->
  Z.of_nat (List.length payload) = length ->
  length <= _bytesLeft x ->
  exists s',
    readEvent_bytes et length x = Some (et, s')
    /\ length_ (buffer (getEventDataP s')) = Z.min length (EV_BUFFER_SIZE - 1)
    /\ bytes (buffer (getEventDataP s'))
       = map (fun b => cast_char (byte_val b))
             (firstn (Z.to_nat (EV_BUFFER_SIZE - 1)) payload)
           ++ 0 :: skipn (S (Z.to_nat (Z.min length (EV_BUFFER_SIZE - 1))))
                     (bytes (buffer (getEventDataP x)))
    /\ _pStream s' = rest
    /\ _bytesLeft s' = _bytesLeft x - length
    /\ _runningStatus s' = _runningStatus x
    /\ _eventDeltaTicks s' = _eventDeltaTicks x.
Proof.
  intros Hok Hs Hp Hb. unfold readEvent_bytes. cbv zeta.
  rewrite (readVariableBytes_success length _ _ payload rest);
    [| exact Hok | exact Hs | exact Hp | exact Hb].
  proj_data.
  assert (Hmin : 0 <= Z.min length (EV_BUFFER_SIZE - 1) <= 140)
    by (unfold EV_BUFFER_SIZE; lia).
  rewrite cast_int_id by lia.
  destruct (Z.min length (EV_BUFFER_SIZE - 1) <? 0) eqn:E; [zb E; lia | clear E].
  unfold ret. proj_data. eexists. split; [reflexivity |].
  proj_data. rewrite Hs, skipn_app, skipn_all, Nat.sub_diag. cbn [skipn app].
  repeat split. lia.
Qed.

Lemma readEvent_meta_text_type (metaType et length : Z) (s : MidiFileStream) :
  text_event_type metaType = Some et ->
  readEvent_meta metaType length s = readEvent_bytes et length s.
Proof.
  unfold text_event_type. intros H.
  repeat match type of H with
         | (if ?m =? ?k then _ else _) = _ =>
             let E := fresh "E" in
             destruct (m =? k) eqn:E;
               [zb E; subst m; injection H as <-; reflexivity | clear E]
         end.
  discriminate.
Qed.

(** X19. Each of the seven text meta events (FF 01 to FF 07: text,
    copyright, name, instrument, lyric, marker, cue point) is returned
    under its own event type, with its bytes in the event buffer: at
    most 140 of them are kept, a zero follows them, [length] tells how
    many were kept; the event is taken from the chunk whole. *)
Theorem readEvent_text_types
    (s s1 s2 s3 s4 : MidiFileStream) (dt metaType et length : Z)
    (payload rest : list byte) :
  buffer_ok s ->
  readVariableLong s = (dt, s1) -> 0 <= dt ->
  readChunkByte s1 = (0xFF, s2) ->
  readChunkByte s2 = (metaType, s3) ->
  text_event_type metaType = Some et ->
  readVariableLong s3 = (length, s4) ->
  _pStream s4 = payload ++ rest ->
  Z.of_nat (List.length payload) = length ->
  length <= _bytesLeft s4 ->
  exists s',
    readEvent s = Some (et, s')
    /\ length_ (buffer (getEventDataP s')) = Z.min length 140
    /\ firstn (Z.to_nat (Z.min length 140 + 1)) (bytes (buffer (getEventDataP s')))
       = map (fun b => cast_char (byte_val b)) (firstn 140 payload) ++ [0]
    /\ _pStream s' = rest
    /\ _bytesLeft s' = _bytesLeft s4 - length.
Proof.
  intros Hok E1 Hdt E2 E3 Het E4 Hs Hp Hb.
  assert (Hmt : 0 <= metaType).
  { unfold text_event_type in Het.
    repeat match type of Het with
           | (if ?m =? ?k then _ else _) = _ =>
               let E := fresh "E" in
               destruct (m =? k) eqn:E; [zb E; lia | clear E]
           end.
    discriminate. }
  assert (Hd : _eventData s4 = _eventData s).
  { pose proof (readVariableLong_only_read s) as H1.
    pose proof (readChunkByte_only_read s1) as H2.
    pose proof (readChunkByte_only_read s2) as H3.
    pose proof (readVariableLong_only_read s3) as H4.
    rewrite E1 in H1. rewrite E2 in H2. rewrite E3 in H3. rewrite E4 in H4.
    cbn [snd] in *.
    apply (only_read_fields s s4).
    eauto using only_read_trans. }
  rewrite (readEvent_meta_event s s1 s2 s3 s4 dt metaType length E1 Hdt E2 E3 Hmt E4)
    by lia.
  rewrite (readEvent_meta_text_type metaType et length _ Het).
  destruct (readEvent_bytes_decode et length
              (set_runningStatus 0 (set_eventDeltaTicks dt (set_eventType ET_UNK s4)))
              payload rest)
    as (s' & E & Hl & Hbytes & Hps & Hbl & _); try assumption.
  { unfold buffer_ok. proj_all. rewrite Hd. exact Hok. }
  exists s'. split; [exact E |].
  change (EV_BUFFER_SIZE - 1) with 140 in Hl, Hbytes.
  split; [exact Hl |]. split; [| split; [exact Hps | exact Hbl]].
  rewrite Hbytes.
  assert (Hlm : List.length (map (fun b => cast_char (byte_val b))
                               (firstn (Z.to_nat 140) payload))
                = Z.to_nat (Z.min length 140))
    by (rewrite length_map, length_firstn; lia).
  replace (Z.to_nat (Z.min length 140 + 1))
    with (List.length (map (fun b => cast_char (byte_val b))
                         (firstn (Z.to_nat 140) payload)) + 1)%nat by lia.
  rewrite firstn_app_2. reflexivity.
Qed.

Lemma readEvent_text_types_witness :
  exists s',
    readEvent (in_chunk [x00; xff; x05; x02; x6c; x61; x00] 6) = Some (ET_LYRIC, s')
    /\ length_ (buffer (getEventDataP s')) = Z.min 2 140
    /\ firstn (Z.to_nat (Z.min 2 140 + 1)) (bytes (buffer (getEventDataP s')))
       = map (fun b => cast_char (byte_val b)) (firstn 140 [x6c; x61]) ++ [0]
    /\ _pStream s' = [x00]
    /\ _bytesLeft s' = _bytesLeft (in_chunk [x6c; x61; x00] 2) - 2.
Proof.
  apply (readEvent_text_types
           (in_chunk [x00; xff; x05; x02; x6c; x61; x00] 6)
           (in_chunk [xff; x05; x02; x6c; x61; x00] 5)
           (in_chunk [x05; x02; x6c; x61; x00] 4)
           (in_chunk [x02; x6c; x61; x00] 3)
           (in_chunk [x6c; x61; x00] 2)
           0 0x05 ET_LYRIC 2 [x6c; x61] [x00]).
  - reflexivity.
  - vm_compute. reflexivity.
  - lia.
  - vm_compute. reflexivity.
  - vm_compute. reflexivity.
  - reflexivity.
  - vm_compute. reflexivity.
  - reflexivity.
  - reflexivity.
  - vm_compute. discriminate.
Defined.

(** A sysex event: what [readEvent] has done when it reaches the data. *)
Lemma readEvent_sysex_event (s s1 s2 s3 : MidiFileStream) (dt bint length : Z) :
  readVariableLong s = (dt, s1) -> 0 <= dt ->
  readChunkByte s1 = (bint, s2) ->
  bint = 0xF0 \/ bint = 0xF7 ->
  readVariableLong s2 = (length, s3) -> 0 <= length ->
  readEvent s
  = readEvent_bytes (if bint =? 0xF0 then ET_SYSEX_F0 else ET_SYSEX_ESC) length
      (set_runningStatus 0 (set_eventDeltaTicks dt (set_eventType ET_UNK s3))).
Proof.
  intros E1 Hdt E2 Hb E3 Hlen.
  rewrite readEvent_delta, E1. cbv zeta. cbn [fst snd].
  destruct (dt <? 0) eqn:E; [zb E; lia | clear E].
  rewrite (readChunkByte_frame (fun x => set_eventDeltaTicks dt (set_eventType ET_UNK x)))
    by auto with frames.
  rewrite E2. cbn [fst snd].
  rewrite (readVariableLong_frame
             (fun x => set_runningStatus 0 (set_eventDeltaTicks dt (set_eventType ET_UNK x))))
    by auto with frames.
  rewrite E3. cbn [fst snd].
  destruct (length <? 0) eqn:E; [zb E; lia | clear E].
  destruct Hb as [-> | ->]; reflexivity.
Qed.

(** X20. A sysex event, F0 or F7 followed by a length and that many
    bytes, is returned as [ET_SYSEX_F0] or [ET_SYSEX_ESC] with its bytes
    in the event buffer as they stand in the file (a closing F7 is one
    of them); at most 140 are kept, and the event is taken from the
    chunk whole.  The running status is cleared. *)
Theorem readEvent_sysex
    (s s1 s2 s3 : MidiFileStream) (dt bint length : Z) (payload rest : list byte) :
  buffer_ok s ->
  readVariableLong s = (dt, s1) -> 0 <= dt ->
  readChunkByte s1 = (bint, s2) ->
  bint = 0xF0 \/ bint = 0xF7 ->
  readVariableLong s2 = (length, s3) ->
  _pStream s3 = payload ++ rest ->
  Z.of_nat (List.length payload) = length ->
  length <= _bytesLeft s3 ->
  exists s',
    readEvent s
    = Some ((if bint =? 0xF0 then ET_SYSEX_F0 else ET_SYSEX_ESC), s')
    /\ length_ (buffer (getEventDataP s')) = Z.min length 140
    /\ firstn (Z.to_nat (Z.min length 140 + 1)) (bytes (buffer (getEventDataP s')))
       = map (fun b => cast_char (byte_val b)) (firstn 140 payload) ++ [0]
    /\ _runningStatus s' = 0
    /\ _pStream s' = rest
    /\ _bytesLeft s' = _bytesLeft s3 - length.
Proof.
  intros Hok E1 Hdt E2 Hbint E3 Hs Hp Hb.
  assert (Hd : _eventData s3 = _eventData s).
  { pose proof (readVariableLong_only_read s) as H1.
    pose proof (readChunkByte_only_read s1) as H2.
    pose proof (readVariableLong_only_read s2) as H3.
    rewrite E1 in H1. rewrite E2 in H2. rewrite E3 in H3.
    cbn [snd] in *.
    apply (only_read_fields s s3).
    eauto using only_read_trans. }
  rewrite (readEvent_sysex_event s s1 s2 s3 dt bint length E1 Hdt E2 Hbint E3) by lia.
  destruct (readEvent_bytes_decode
              (if bint =? 0xF0 then ET_SYSEX_F0 else ET_SYSEX_ESC) length
              (set_runningStatus 0 (set_eventDeltaTicks dt (set_eventType ET_UNK s3)))
              payload rest)
    as (s' & E & Hl & Hbytes & Hps & Hbl & Hrs & _); try assumption.
  { unfold buffer_ok. proj_all. rewrite Hd. exact Hok. }
  exists s'. split; [exact E |].
  change (EV_BUFFER_SIZE - 1) with 140 in Hl, Hbytes.
  split; [exact Hl |].
  split; [| split; [exact Hrs | split; [exact Hps | exact Hbl]]].
  rewrite Hbytes.
  assert (Hlm : List.length (map (fun b => cast_char (byte_val b))
                               (firstn (Z.to_nat 140) payload))
                = Z.to_nat (Z.min length 140))
    by (rewrite length_map, length_firstn; lia).
  replace (Z.to_nat (Z.min length 140 + 1))
    with (List.length (map (fun b => cast_char (byte_val b))
                         (firstn (Z.to_nat 140) payload)) + 1)%nat by lia.
  rewrite firstn_app_2. reflexivity.
Qed.

Lemma readEvent_sysex_witness :
  exists s',
    readEvent (set_runningStatus 0x90 (in_chunk [x00; xf0; x03; x7e; x09; xf7; x00] 6))
    = Some ((if 0xF0 =? 0xF0 then ET_SYSEX_F0 else ET_SYSEX_ESC), s')
    /\ length_ (buffer (getEventDataP s')) = Z.min 3 140
    /\ firstn (Z.to_nat (Z.min 3 140 + 1)) (bytes (buffer (getEventDataP s')))
       = map (fun b => cast_char (byte_val b)) (firstn 140 [x7e; x09; xf7]) ++ [0]
    /\ _runningStatus s' = 0
    /\ _pStream s' = [x00]
    /\ _bytesLeft s'
       = _bytesLeft (set_runningStatus 0x90 (in_chunk [x7e; x09; xf7; x00] 3)) - 3.
Proof.
  apply (readEvent_sysex
           (set_runningStatus 0x90 (in_chunk [x00; xf0; x03; x7e; x09; xf7; x00] 6))
           (set_runningStatus 0x90 (in_chunk [xf0; x03; x7e; x09; xf7; x00] 5))
           (set_runningStatus 0x90 (in_chunk [x03; x7e; x09; xf7; x00] 4))
           (set_runningStatus 0x90 (in_chunk [x7e; x09; xf7; x00] 3))
           0 0xF0 3 [x7e; x09; xf7] [x00]).
  - reflexivity.
  - vm_compute. reflexivity.
  - lia.
  - vm_compute. reflexivity.
  - left. reflexivity.
  - vm_compute. reflexivity.
  - reflexivity.
  - reflexivity.
  - vm_compute. discriminate.
Defined.

(** ** readEvent: events cut short by the end of the chunk *)

Lemma only_read_runningStatus (s s' : MidiFileStream) :
  only_read s s' -> _runningStatus s' = _runningStatus s.
Proof. intros O. apply (only_read_fields s s' O). Qed.

(** X21. A channel event cut short.  When the chunk ends right behind
    the delta time, [readEvent] answers [ET_UNK] (not [ET_END]).  When
    it ends behind a status byte, or behind the first of two
    parameters, the answer is [ET_UNK] as well, and the status byte has
    already become the running status. *)
Theorem readEvent_channel_cut_short :
  (forall (s s1 : MidiFileStream) (dt : Z),
      readVariableLong s = (dt, s1) -> 0 <= dt ->
      readable s1 <= 0 ->
      exists s',
        readEvent s = Some (ET_UNK, s')
        /\ getEventDeltaTicks s' = dt
        /\ _runningStatus s' = _runningStatus s)
  /\ (forall (s s1 s2 : MidiFileStream) (dt st : Z),
      readVariableLong s = (dt, s1) -> 0 <= dt ->
      readChunkByte s1 = (st, s2) ->
      0x80 <= st <= 0xFF ->
      st <> 0xF0 -> st <> 0xF7 -> st <> 0xFF ->
      readable s2
      < (if (Z.shiftr st 4 =? 0xC) || (Z.shiftr st 4 =? 0xD) then 1 else 2) ->
      exists s',
        readEvent s = Some (ET_UNK, s')
        /\ _runningStatus s' = st
        /\ readable s' = 0).
Proof.
  split.
  - intros s s1 dt E1 Hdt Hr.
    pose proof (readVariableLong_only_read s) as O1. rewrite E1 in O1. cbn [snd] in O1.
    rewrite readEvent_delta, E1. cbv zeta. cbn [fst snd].
    destruct (dt <? 0) eqn:E; [zb E; lia | clear E].
    rewrite (readChunkByte_frame
               (fun x => set_eventDeltaTicks dt (set_eventType ET_UNK x)))
      by auto with frames.
    destruct (readChunkByte_unreadable s1 Hr) as [Hm _].
    pose proof (readChunkByte_only_read s1) as O2.
    destruct (readChunkByte s1) as [bint s2]. cbn [fst snd] in *. subst bint.
    change (-1 <? 0) with true. cbv iota. unfold fail, ret.
    eexists. split; [reflexivity |]. unfold getEventDeltaTicks. proj_all.
    split; [reflexivity |].
    rewrite (only_read_runningStatus _ _ O2). apply (only_read_runningStatus _ _ O1).
  - intros s s1 s2 dt st E1 Hdt E2 Hst H0 H7 HF Hr.
    rewrite (readEvent_channel_event s s1 s2 dt st E1 Hdt E2) by (try assumption; lia).
    unfold readEvent_channel, readEvent_status, readEvent_param2. cbv zeta.
    assert (Hhigh : (Z.land st 128 =? 0) = false).
    { rewrite land_0x80_range by lia.
      destruct (st <? 128) eqn:E; [zb E; lia | reflexivity]. }
    cbn [_runningStatus set_eventType]. rewrite Hhigh.
    change (negb (-1 =? -1)) with false. cbv iota.
    set (y := set_runningStatus st _).
    assert (Hy : readable y = readable s2) by reflexivity.
    assert (Hrs : _runningStatus y = st) by reflexivity.
    assert (Hcode : code (channel (_eventData y)) = cast_char (Z.shiftr st 4))
      by reflexivity.
    clearbody y.
    pose proof (shiftr4_range st ltac:(lia)) as Hsh.
    rewrite cast_char_id in Hcode by lia.
    destruct (Z_le_gt_dec (readable y) 0) as [L | G].
    + destruct (readChunkByte_unreadable y L) as [Hm Hz].
      pose proof (readChunkByte_only_read y) as O.
      destruct (readChunkByte y) as [bint y1]. cbn [fst snd] in *. subst bint.
      change (-1 <? 0) with true. cbv iota. unfold fail, ret.
      eexists. split; [reflexivity |].
      split; [proj_all; rewrite (only_read_runningStatus _ _ O); exact Hrs |].
      exact Hz.
    + destruct (readChunkByte_readable y ltac:(lia)) as (b & rest & _ & _ & E & Hd).
      rewrite E, byte_val_ltb0.
      cbn [code channel _eventData set_param1 set_channel set_eventData advance
           set_pStream set_bytesLeft].
      rewrite Hcode.
      destruct ((Z.shiftr st 4 =? 12) || (Z.shiftr st 4 =? 13)); [lia |].
      set (z := set_param1 (byte_val b) (advance 1 y)).
      assert (Hz : readable z = readable (advance 1 y)) by reflexivity.
      assert (Hrz : _runningStatus z = st) by exact Hrs.
      clearbody z.
      destruct (readChunkByte_unreadable z ltac:(lia)) as [Hm Hz0].
      pose proof (readChunkByte_only_read z) as O.
      destruct (readChunkByte z) as [bint z1]. cbn [fst snd] in *. subst bint.
      change (-1 <? 0) with true. cbv iota. unfold fail, ret.
      eexists. split; [reflexivity |].
      split; [proj_all; rewrite (only_read_runningStatus _ _ O); exact Hrz |].
      exact Hz0.
Qed.

Lemma readEvent_channel_cut_short_witness :
  (exists s',
      readEvent (in_chunk [x00; x90] 1) = Some (ET_UNK, s')
      /\ getEventDeltaTicks s' = 0
      /\ _runningStatus s' = _runningStatus (in_chunk [x00; x90] 1))
  /\ (exists s',
        readEvent (in_chunk [x00; x90; x40; x7f] 3) = Some (ET_UNK, s')
        /\ _runningStatus s' = 0x90
        /\ readable s' = 0).
Proof.
  destruct readEvent_channel_cut_short as [Hnone Hcut]. split.
  - apply (Hnone (in_chunk [x00; x90] 1) (in_chunk [x90] 0) 0).
    + vm_compute. reflexivity.
    + lia.
    + vm_compute. discriminate.
  - apply (Hcut (in_chunk [x00; x90; x40; x7f] 3) (in_chunk [x90; x40; x7f] 2)
             (in_chunk [x40; x7f] 1) 0 0x90).
    + vm_compute. reflexivity.
    + lia.
    + vm_compute. reflexivity.
    + lia.
    + discriminate.
    + discriminate.
    + discriminate.
    + vm_compute. reflexivity.
Defined.

Lemma readFixedLong_loop_drained (n : nat) :
  forall result s,
    readable s < Z.of_nat n ->
    fst (readFixedLong_loop n result s) = -1
    /\ readable (snd (readFixedLong_loop n result s)) = 0.
Proof.
  induction n as [|n IH]; intros result s H.
  - pose proof (readable_nonneg s). cbn in H. lia.
  - cbn [readFixedLong_loop].
    destruct (Z_le_gt_dec (readable s) 0) as [L | G].
    + destruct (readChunkByte_unreadable s L) as [Hr Hz].
      destruct (readChunkByte s) as [bint s1]. cbn [fst snd] in Hr, Hz. subst bint.
      change (-1 <? 0) with true. cbv iota. split; [reflexivity | exact Hz].
    + destruct (readChunkByte_readable s ltac:(lia)) as (b & rest & _ & _ & E & Hd).
      rewrite E, byte_val_ltb0. apply IH. lia.
Qed.

(** One of the reads that note a failure and carry on: either nothing
    could be read, and the event type is [ET_UNK] from here on, or one
    byte was read. *)
Lemma readChunkByte_noting_counts (s : MidiFileStream) :
  (readable s <= 0
   /\ readable (snd (readChunkByte_noting s)) = 0
   /\ _eventType (snd (readChunkByte_noting s)) = ET_UNK)
  \/ (0 < readable s
      /\ readable (snd (readChunkByte_noting s)) = readable s - 1
      /\ _eventType (snd (readChunkByte_noting s)) = _eventType s).
Proof.
  unfold readChunkByte_noting.
  destruct (Z_le_gt_dec (readable s) 0) as [L | G].
  - left. destruct (readChunkByte_unreadable s L) as [Hr Hz].
    destruct (readChunkByte s) as [bint s1]. cbn [fst snd] in Hr, Hz. subst bint.
    change (-1 <? 0) with true. cbv iota. cbn [snd].
    repeat split; [exact L | exact Hz].
  - right. destruct (readChunkByte_readable s ltac:(lia)) as (b & rest & _ & _ & E & Hd).
    rewrite E, byte_val_ltb0. cbn [snd].
    repeat split; [lia | exact Hd].
Qed.

(** [readable] looks through the assignments to other members. *)
Ltac readable_through H :=
  repeat match type of H with
         | context [readable (?f ?a ?m)] =>
             change (readable (f a m)) with (readable m) in H
         end.

(** Follow the next read of the function in the goal, counting what is
    left to read; the case that cannot be is closed at once. *)
Ltac count_step :=
  match goal with
  | |- context [readChunkByte_noting ?x] =>
      let H := fresh "Hcount" in
      pose proof (readChunkByte_noting_counts x) as H;
      destruct (readChunkByte_noting x) as [? ?]; cbn [snd] in H;
      readable_through H; proj_all;
      destruct H as [(? & ? & ?) | (? & ? & ?)]; try lia
  end.

Ltac count_end :=
  unfold ret; eexists; split;
  [ f_equal; f_equal; proj_all; congruence
  | match goal with
    | |- readable (?f ?a ?m) = 0 => change (readable m = 0); assumption
    end ].

(** The meta events of fixed shape when the chunk ends inside their
    data. *)
Lemma readEvent_meta_cut_short (metaType n : Z) (s : MidiFileStream) :
  fixed_meta_length metaType = Some n ->
  readable s < n ->
  exists s', readEvent_meta metaType n s = Some (ET_UNK, s') /\ readable s' = 0.
Proof.
  unfold fixed_meta_length. intros Hn Hr. pose proof (readable_nonneg s) as Hs.
  repeat match type of Hn with
         | (if ?m =? ?k then _ else _) = _ =>
             let E := fresh "E" in
             destruct (m =? k) eqn:E;
               [zb E; subst m; injection Hn as <-; switch_on_meta_type | clear E]
         end; try discriminate.
  - (* sequence number *)
    change (negb (2 =? 2)) with false. cbv iota.
    destruct (readFixedLong_loop_drained 2 0 (set_eventType ET_SEQ_NUM s)) as [Hm Hz];
      [exact Hr |].
    change (readFixedLong_loop 2 0 (set_eventType ET_SEQ_NUM s))
      with (readFixedLong 2 (set_eventType ET_SEQ_NUM s)) in Hm, Hz.
    destruct (readFixedLong 2 (set_eventType ET_SEQ_NUM s)) as [l s1].
    cbn [fst snd] in Hm, Hz. subst l. change (-1 <? 0) with true. cbv iota.
    unfold fail, ret. eexists. split; [reflexivity | exact Hz].
  - (* channel prefix *)
    change (negb (1 =? 1)) with false. cbv iota.
    destruct (readChunkByte_unreadable (set_eventType ET_CHAN_PREFIX s)) as [Hm Hz];
      [change (readable (set_eventType ET_CHAN_PREFIX s)) with (readable s); lia |].
    destruct (readChunkByte (set_eventType ET_CHAN_PREFIX s)) as [b s1].
    cbn [fst snd] in Hm, Hz. subst b. change (-1 <? 0) with true. cbv iota.
    unfold fail, ret. eexists. split; [reflexivity | exact Hz].
  - (* end of track: no data to miss *)
    lia.
  - (* tempo *)
    change (negb (3 =? 3)) with false. cbv iota.
    destruct (readFixedLong_loop_drained 3 0 (set_eventType ET_TEMPO s)) as [Hm Hz];
      [exact Hr |].
    change (readFixedLong_loop 3 0 (set_eventType ET_TEMPO s))
      with (readFixedLong 3 (set_eventType ET_TEMPO s)) in Hm, Hz.
    destruct (readFixedLong 3 (set_eventType ET_TEMPO s)) as [l s1].
    cbn [fst snd] in Hm, Hz. subst l. proj_all. change (-1 <? 0) with true. cbv iota.
    unfold fail, ret. eexists. split; [reflexivity | exact Hz].
  - (* SMPTE offset *)
    change (negb (5 =? 5)) with false. cbv iota.
    repeat count_step; count_end.
  - (* time signature *)
    change (negb (4 =? 4)) with false. cbv iota.
    repeat count_step; count_end.
  - (* key signature *)
    change (negb (2 =? 2)) with false. cbv iota.
    count_step;
      match goal with
      | |- context [if ?c then _ else _] => destruct c
      end;
      count_step; count_end.
Qed.

(** X22. A meta event of fixed shape (sequence number, channel prefix,
    tempo, SMPTE offset, time signature, key signature) whose declared
    length is right but whose data the chunk cannot deliver in full is
    answered with [ET_UNK], also by the cases that carry on reading
    after a failed read; everything that could be read has been
    taken. *)
Theorem readEvent_fixed_meta_cut_short
    (s s1 s2 s3 s4 : MidiFileStream) (dt metaType n : Z) :
  readVariableLong s = (dt, s1) -> 0 <= dt ->
  readChunkByte s1 = (0xFF, s2) ->
  readChunkByte s2 = (metaType, s3) ->
  readVariableLong s3 = (n, s4) ->
  fixed_meta_length metaType = Some n ->
  readable s4 < n ->
  exists s', readEvent s = Some (ET_UNK, s') /\ readable s' = 0.
Proof.
  intros E1 Hdt E2 E3 E4 Hn Hr.
  pose proof (fixed_meta_length_nonneg metaType n Hn) as Hmt.
  pose proof (readable_nonneg s4) as Hpos.
  rewrite (readEvent_meta_event s s1 s2 s3 s4 dt metaType n E1 Hdt E2 E3 Hmt E4) by lia.
  apply (readEvent_meta_cut_short metaType n _ Hn).
  exact Hr.
Qed.

Lemma readEvent_fixed_meta_cut_short_witness :
  exists s',
    readEvent (in_chunk [x00; xff; x58; x04; x06; x03; x18; x08] 6) = Some (ET_UNK, s')
    /\ readable s' = 0.
Proof.
  apply (readEvent_fixed_meta_cut_short
           (in_chunk [x00; xff; x58; x04; x06; x03; x18; x08] 6)
           (in_chunk [xff; x58; x04; x06; x03; x18; x08] 5)
           (in_chunk [x58; x04; x06; x03; x18; x08] 4)
           (in_chunk [x04; x06; x03; x18; x08] 3)
           (in_chunk [x06; x03; x18; x08] 2)
           0 0x58 4).
  - vm_compute. reflexivity.
  - lia.
  - vm_compute. reflexivity.
  - vm_compute. reflexivity.
  - vm_compute. reflexivity.
  - reflexivity.
  - vm_compute. reflexivity.
Defined.

(** ** end *)

(** X23. After [end()] the object is closed: the three header getters
    give -1, -1 and 0, no chunk is open, and [readEvent] answers
    [ET_END] without reading (the stream it was given is no longer
    looked at), leaving the object closed, so that every later
    [readEvent] answers [ET_END] too. *)
Theorem end_closes (s : MidiFileStream) :
  getFormat (end_ s) = -1
  /\ getNumTracks (end_ s) = -1
  /\ getTicksPerBeat (end_ s) = 0
  /\ getChunkBytesLeft (end_ s) = -1
  /\ getEventType (end_ s) = ET_UNK
  /\ getEventDataP (end_ s) = getEventDataP s
  /\ exists s',
       readEvent (end_ s) = Some (ET_END, s')
       /\ set_eventType ET_UNK s' = end_ s
       /\ option_map fst (readEvent s') = Some ET_END.
Proof.
  repeat (split; [reflexivity |]).
  rewrite readEvent_delta.
  rewrite readVariableLong_exhausted by (cbn; lia).
  cbv zeta. cbn [fst snd]. change (-1 <? 0) with true. cbv iota.
  eexists. split; [reflexivity |]. split; [reflexivity |].
  apply readEvent_exhausted. cbn. lia.
Qed.

(** ** readEvent: every event costs at least one byte of the chunk *)

Lemma readVariableLong_loop_progress (fuel : nat) :
  forall numBytes result s r s',
    readVariableLong_loop fuel numBytes result s = Some (r, s') ->
    0 <= r ->
    0 < _bytesLeft s /\ _bytesLeft s' < _bytesLeft s.
Proof.
  induction fuel as [|fuel IH]; intros numBytes result s r s' H Hr; [discriminate |].
  cbn [readVariableLong_loop] in H.
  destruct (numBytes >? 4); [inversion H; subst; lia |].
  destruct (readChunkByte_cases s) as [[Hb E]|[(Hb & Hs & E)|(b & rest & Hb & Hs & E)]];
    rewrite E in H.
  - inversion H; subst; lia.
  - inversion H; subst; lia.
  - rewrite byte_val_ltb0 in H.
    destruct (Z.land (byte_val b) 128 =? 128).
    + destruct (IH _ _ _ _ _ H Hr) as [_ Hlt]. rewrite advance_bytesLeft in Hlt. lia.
    + inversion H; subst. rewrite advance_bytesLeft. lia.
Qed.

(** The rest of [readEvent], from the object [x] in which the delta
    time was set, stays inside the budget of the chunk. *)
Lemma readEvent_rest_step (x : MidiFileStream) :
  buffer_ok x ->
  exists r s',
    (let '(bint, s) := readChunkByte x in
     if bint <? 0 then fail s
     else if (bint =? 0xF0) || (bint =? 0xF7) then
       let s := set_runningStatus 0 s in
       let '(length, s) := readVariableLong s in
       if length <? 0 then fail s
       else if bint =? 0xF0 then readEvent_bytes ET_SYSEX_F0 length s
       else if bint =? 0xF7 then readEvent_bytes ET_SYSEX_ESC length s
       else ret s
     else if bint =? 0xFF then
       let s := set_runningStatus 0 s in
       let '(metaType, s) := readChunkByte s in
       if metaType <? 0 then fail s
       else
         let '(length, s) := readVariableLong s in
         if length <? 0 then fail s
         else readEvent_meta metaType length s
     else readEvent_channel bint s) = Some (r, s')
    /\ event_step false x s'.
Proof.
  intros Hok. cbv zeta.
  repeat walk_step false x;
    try (match goal with
         | |- context [readEvent_meta ?m ?l ?y] =>
             let H := fresh "Hstep" in
             assert (H : event_step false x y) by chain;
             destruct (readEvent_meta_step false m l y
                         (buffer_ok_step false x y H Hok)) as (? & ? & -> & ?);
             clear H
         | |- context [readEvent_channel ?b ?y] =>
             destruct (readEvent_channel_step b y) as (? & ? & -> & ?)
         end);
    walk_end.
Qed.

(** X24. Every call of [readEvent] that does not answer [ET_END] has
    used up at least one byte of the chunk: [getChunkBytesLeft] was
    positive, is smaller afterwards, and is not negative.  A loop that
    reads events until [ET_END] therefore ends after at most as many
    calls as the chunk has bytes, whatever the bytes are. *)
Theorem readEvent_progress (s : MidiFileStream) :
  buffer_ok s ->
  exists r s',
    readEvent s = Some (r, s')
    /\ (r <> ET_END ->
        0 < getChunkBytesLeft s
        /\ 0 <= getChunkBytesLeft s' < getChunkBytesLeft s).
Proof.
  intros Hok. unfold getChunkBytesLeft. rewrite readEvent_delta. cbv zeta.
  pose proof (readVariableLong_loop_fuel 0 s) as Eloop.
  pose proof (readVariableLong_only_read s) as O.
  pose proof (readVariableLong_within_budget s) as W.
  destruct (readVariableLong s) as [dt s1]. cbn [fst snd] in *.
  destruct (dt <? 0) eqn:Edt; zb Edt.
  - eexists _, _. split; [reflexivity |]. intros H. now contradiction H.
  - destruct (readVariableLong_loop_progress _ _ _ _ _ _ Eloop Edt) as [Hpos Hlt].
    destruct W as (tk & _ & _ & Hmin).
    assert (Hok1 : buffer_ok (set_eventDeltaTicks dt (set_eventType ET_UNK s1))).
    { unfold buffer_ok in *. proj_all.
      destruct (only_read_fields _ _ O) as (_ & -> & _). exact Hok. }
    destruct (readEvent_rest_step _ Hok1) as (r & s' & E & ((tk' & _ & Hl & Hm) & _)).
    exists r, s'. split; [exact E |]. intros _.
    proj_all. lia.
Qed.

Lemma readEvent_progress_witness :
  exists r s',
    readEvent (in_chunk [x00; x90; x40; x7f; x00] 5) = Some (r, s')
    /\ (r <> ET_END ->
        0 < getChunkBytesLeft (in_chunk [x00; x90; x40; x7f; x00] 5)
        /\ 0 <= getChunkBytesLeft s'
           < getChunkBytesLeft (in_chunk [x00; x90; x40; x7f; x00] 5)).
Proof.
  apply (readEvent_progress (in_chunk [x00; x90; x40; x7f; x00] 5)). reflexivity.
Defined.

(** ** begin, then the first track *)

(** X25. Opening a file: on a stream that holds a good header chunk and
    then a track chunk ("MTrk" and a length below 2^31), [begin]
    succeeds and the [openChunk] that follows answers [CT_MTRK] with
    the declared length as the budget of the chunk and the stream at
    the first event; the format, number of tracks and ticks per beat
    read by [begin] are still there. *)
Theorem begin_then_openChunk
    (s : MidiFileStream) (f1 f2 t1 t2 d1 d2 l1 l2 l3 l4 : byte) (rest : list byte) :
  byte_val f1 < 0x80 -> byte_val t1 < 0x80 -> byte_val d1 < 0x80 ->
  byte_val l1 < 0x80 ->
  exists s1 s2,
    begin ([x4d; x54; x68; x64; x00; x00; x00; x06; f1; f2; t1; t2; d1; d2]
             ++ [x4d; x54; x72; x6b; l1; l2; l3; l4] ++ rest) s = (true, s1)
    /\ openChunk s1 = (CT_MTRK, s2)
    /\ getChunkBytesLeft s2 = declared_length l1 l2 l3 l4
    /\ _pStream s2 = rest
    /\ getFormat s2 = byte_val f1 * 256 + byte_val f2
    /\ getNumTracks s2 = byte_val t1 * 256 + byte_val t2
    /\ getTicksPerBeat s2 = byte_val d1 * 256 + byte_val d2.
Proof.
  intros Hf Ht Hd Hl.
  destruct (begin_accepts s f1 f2 t1 t2 d1 d2
              ([x4d; x54; x72; x6b; l1; l2; l3; l4] ++ rest) Hf Ht Hd)
    as (s1 & Eb & Ef & Et & Ed & Hp).
  destruct (declared_length_range l1 l2 l3 l4) as [_ Hiff].
  destruct (openChunk_budget s1 x4d x54 x72 x6b l1 l2 l3 l4 rest Hp
              ltac:(apply Hiff; exact Hl)) as (Ht1 & Hp2 & Hb2).
  cbv zeta in Ht1.
  change (sig_compare 0 _ mthd =? 4) with false in Ht1.
  change (sig_compare 0 _ mtrk =? 4) with true in Ht1. cbv iota in Ht1.
  destruct (openChunk_opened s1) as (_ & _ & _ & Kf & Kt & Kd & _).
  destruct (openChunk s1) as [t s2] eqn:Eo. cbn [fst snd] in *. subst t.
  exists s1, s2. unfold getChunkBytesLeft, getFormat, getNumTracks, getTicksPerBeat in *.
  split; [exact Eb |]. split; [exact Eo |].
  split; [exact Hb2 |]. split; [exact Hp2 |].
  rewrite Kf, Kt, Kd. auto.
Qed.

Lemma begin_then_openChunk_witness :
  exists s1 s2,
    begin ([x4d; x54; x68; x64; x00; x00; x00; x06; x00; x01; x00; x02; x01; xe0]
             ++ [x4d; x54; x72; x6b; x00; x00; x00; x04] ++ [x00; xff; x2f; x00])
      closed = (true, s1)
    /\ openChunk s1 = (CT_MTRK, s2)
    /\ getChunkBytesLeft s2 = declared_length x00 x00 x00 x04
    /\ _pStream s2 = [x00; xff; x2f; x00]
    /\ getFormat s2 = byte_val x00 * 256 + byte_val x01
    /\ getNumTracks s2 = byte_val x00 * 256 + byte_val x02
    /\ getTicksPerBeat s2 = byte_val x01 * 256 + byte_val xe0.
Proof.
  apply (begin_then_openChunk closed x00 x01 x00 x02 x01 xe0 x00 x00 x00 x04
           [x00; xff; x2f; x00]); vm_compute; reflexivity.
Defined.
